(** * Overpass query subsystem: a shallow embedding and its properties

    The development follows two source files of the repository:

    - [data/input/osm_input.py]   (class [OverpassQuery]): query text
      construction, slot polling, the retry loop of [run] and the decoding of
      raw elements into geometry records;
    - [data/service/osm_client.py] (class [AsyncOverpassClient]): the
      asynchronous retry loop [_run_query] and the fan-out [run_all].

    and, of [src/osint_assistant/tools/utils.py], the function
    [sanitize_obj].

    Python values are embedded as an inductive type, dictionaries as
    insertion-ordered association lists, exceptions as an error monad, and
    effects (HTTP requests, sleeps) as an explicit event trace.  What the
    code gets from shapely, geopandas, pandas, requests and aiohttp is
    modelled where the code depends on it: the constructors of geometries
    convert their coordinates to doubles and refuse what cannot be a
    geometry, a frame needs its geometry column, a sleep needs a length it
    can take, a body need not be a JSON document.  The parsing of text
    (numbers, CSV) is taken as a parameter. *)

From Stdlib Require Import ZArith List String Ascii Bool Lia.
From Stdlib Require Import Floats.SpecFloat.
From Stdlib Require Import Numbers.DecimalString.
From Equations Require Import Equations.
Import ListNotations.

Set Warnings "-register-all".

Open Scope string_scope.
Open Scope Z_scope.

(* ===================================================================== *)
(** * The Python value layer                                              *)
(* ===================================================================== *)

Module Py.

(** Exceptions the modelled code can meet. *)
Inductive exn : Type :=
| KeyError | TypeError | ValueError | AttributeError | OverflowError
| TimeoutError
| RequestException     (* requests.RequestException and its subclasses *)
| ClientError          (* aiohttp.ClientError and its subclasses *)
| GEOSException        (* shapely.errors.GEOSException *)
| EmptyDataError       (* pandas.errors.EmptyDataError *)
| ParserError.         (* pandas.errors.ParserError *)

(** A computation either returns or raises. *)
Inductive result (A : Type) : Type :=
| Ok (a : A)
| Raise (e : exn).
Arguments Ok {A} a.
Arguments Raise {A} e.

Definition bind {A B} (m : result A) (k : A -> result B) : result B :=
  match m with
  | Ok a => k a
  | Raise e => Raise e
  end.

(** Values as [json.loads] produces them (and as a tag filter may hold
    them): [None], [bool], [int], [float] (binary64, with NaN and the
    infinities), [str], [list] and [dict]; and [tuple], which a JSON
    document never holds but the coordinates of a geometry and a model
    dump do. *)
Inductive pyval : Type :=
| PyNone
| PyBool (b : bool)
| PyInt (z : Z)
| PyFloat (f : spec_float)
| PyStr (s : string)
| PyList (l : list pyval)
| PyDict (d : list (string * pyval))
| PyTuple (l : list pyval).

(** ** Dictionaries: association lists in insertion order, keys unique. *)

Definition dict (V : Type) : Type := list (string * V).

Fixpoint dict_get {V} (k : string) (d : dict V) : option V :=
  match d with
  | [] => None
  | (k', v) :: d' => if String.eqb k k' then Some v else dict_get k d'
  end.

Definition dict_mem {V} (k : string) (d : dict V) : bool :=
  match dict_get k d with Some _ => true | None => false end.

(** [d[k] = v]: an existing key keeps its position and takes the new
    value, a new key goes to the end. *)
Fixpoint dict_set {V} (k : string) (v : V) (d : dict V) : dict V :=
  match d with
  | [] => [(k, v)]
  | (k', v') :: d' =>
      if String.eqb k k' then (k', v) :: d' else (k', v') :: dict_set k v d'
  end.

(** [d.update(other)], which is also what [**other] does inside a dict
    display: the items of [other] are written in their order. *)
Definition dict_update {V} (d other : dict V) : dict V :=
  fold_left (fun acc kv => dict_set (fst kv) (snd kv) acc) other d.

(** ** Strings *)

(** The double-quote character. *)
Definition dq : string := String "034"%char EmptyString.
(** The line feed. *)
Definition nl : string := String "010"%char EmptyString.

(** [s.startswith(p)] *)
Definition startswith (p s : string) : bool := String.prefix p s.

(** [sub in s] *)
Fixpoint str_in (sub s : string) : bool :=
  if String.prefix sub s then true
  else match s with
       | EmptyString => false
       | String _ s' => str_in sub s'
       end.

(** [s[1:]] *)
Definition str_tail (s : string) : string :=
  match s with
  | EmptyString => EmptyString
  | String _ s' => s'
  end.

(** [sep.join(parts)] *)
Definition str_join (sep : string) (parts : list string) : string :=
  String.concat sep parts.

(** [str(n)] for an [int]. *)
Definition str_int (n : Z) : string := NilZero.string_of_int (Z.to_int n).

(** Whitespace removed by [str.strip()] (the ASCII part of it). *)
Definition is_space (c : ascii) : bool :=
  let n := nat_of_ascii c in
  ((9 <=? n) && (n <=? 13) || (28 <=? n) && (n <=? 32))%nat.

Fixpoint lstrip (s : string) : string :=
  match s with
  | EmptyString => EmptyString
  | String c s' => if is_space c then lstrip s' else s
  end.

Fixpoint rstrip (s : string) : string :=
  match s with
  | EmptyString => EmptyString
  | String c s' =>
      match rstrip s' with
      | EmptyString => if is_space c then EmptyString else String c EmptyString
      | r => String c r
      end
  end.

Definition strip (s : string) : string := rstrip (lstrip s).

(** ** Numbers *)

(** [bool(v)] *)
Definition truthy (v : pyval) : bool :=
  match v with
  | PyNone => false
  | PyBool b => b
  | PyInt z => negb (z =? 0)
  | PyFloat (S754_zero _) => false
  | PyFloat _ => true
  | PyStr s => negb (String.eqb s "")
  | PyList l => match l with [] => false | _ => true end
  | PyDict d => match d with [] => false | _ => true end
  | PyTuple l => match l with [] => false | _ => true end
  end.

Definition float_is_finite (f : spec_float) : bool :=
  match f with
  | S754_zero _ | S754_finite _ _ _ => true
  | S754_infinity _ | S754_nan => false
  end.

(** An [int] converts to a [float] unless rounding to 53 bits takes it to
    2^1024 or beyond. *)
Definition int_fits_float (z : Z) : bool :=
  Z.abs z <? 2 ^ 1024 - 2 ^ 970.

(** [math.isfinite(x)]: defined on [float] and [int] (so on [bool]);
    an [int] is first converted to a [float], which can overflow; any
    other argument is a [TypeError]. *)
Definition math_isfinite (x : pyval) : result bool :=
  match x with
  | PyFloat f => Ok (float_is_finite f)
  | PyInt z => if int_fits_float z then Ok true else Raise OverflowError
  | PyBool _ => Ok true
  | _ => Raise TypeError
  end.

(** [float(z)] for an [int]: the double nearest to [z], ties to even;
    [OverflowError] when that is beyond the largest finite double. *)
Definition float_of_int (z : Z) : result spec_float :=
  let f := binary_normalize 53 1024 z 0 false in
  if float_is_finite f then Ok f else Raise OverflowError.

(** [isinstance(c, (float, int))] *)
Definition is_number (c : pyval) : bool :=
  match c with
  | PyFloat _ | PyInt _ | PyBool _ => true
  | _ => false
  end.

(** Exact comparison of a [float] with an [int], as [==] does it. *)
Definition float_eq_int (f : spec_float) (z : Z) : bool :=
  match f with
  | S754_zero _ => z =? 0
  | S754_finite s m e =>
      let v := if s then Z.neg m else Z.pos m in
      if 0 <=? e then z =? v * 2 ^ e else v =? z * 2 ^ (- e)
  | _ => false
  end.

Definition bool_int (b : bool) : Z := if b then 1 else 0.

(** [a == b] on the values that can be coordinates; two values that are
    not both numbers are compared structurally only as far as the
    decoder needs it (strings), everything else is unequal. *)
Definition py_eq (a b : pyval) : bool :=
  match a, b with
  | PyInt x, PyInt y => x =? y
  | PyInt x, PyBool y => x =? bool_int y
  | PyBool x, PyInt y => bool_int x =? y
  | PyBool x, PyBool y => Bool.eqb x y
  | PyFloat f, PyFloat g => SFeqb f g
  | PyFloat f, PyInt y => float_eq_int f y
  | PyInt x, PyFloat g => float_eq_int g x
  | PyFloat f, PyBool y => float_eq_int f (bool_int y)
  | PyBool x, PyFloat g => float_eq_int g (bool_int x)
  | PyStr s, PyStr t => String.eqb s t
  | PyNone, PyNone => true
  | _, _ => false
  end.

(** ** Access *)

(** [v[k]] with a string key. *)
Definition getitem (v : pyval) (k : string) : result pyval :=
  match v with
  | PyDict d => match dict_get k d with
                | Some x => Ok x
                | None => Raise KeyError
                end
  | _ => Raise TypeError
  end.

(** [v.get(k, default)]: only a [dict] has the method. *)
Definition get (v : pyval) (k : string) (default : pyval) : result pyval :=
  match v with
  | PyDict d => match dict_get k d with
                | Some x => Ok x
                | None => Ok default
                end
  | _ => Raise AttributeError
  end.

(** [k in v] for a string key. *)
Definition contains (k : string) (v : pyval) : result bool :=
  match v with
  | PyDict d => Ok (dict_mem k d)
  | PyList l | PyTuple l => Ok (existsb (py_eq (PyStr k)) l)
  | PyStr s => Ok (str_in k s)
  | _ => Raise TypeError
  end.

(** [for x in v]: the items a [for] loop visits. *)
Definition iter (v : pyval) : result (list pyval) :=
  match v with
  | PyList l | PyTuple l => Ok l
  | PyDict d => Ok (map (fun kv => PyStr (fst kv)) d)
  | PyStr s => Ok (map (fun c => PyStr (String c EmptyString)) (list_ascii_of_string s))
  | _ => Raise TypeError
  end.

(** ** What is taken from the libraries as a parameter

    Three functions whose results the code passes on without the code
    itself depending on how they come about: the reading of a number from
    text, what shapely's [Point] makes of arguments that are not both
    numbers (it reads numeric text, takes an array of one item for the
    item, and raises on the rest), and the errors of [pandas.read_csv] on
    a text that is not empty. *)
Inductive csv_failure : Type :=
| no_columns     (* pandas.errors.EmptyDataError *)
| bad_rows.      (* pandas.errors.ParserError *)

Definition csv_exn (f : csv_failure) : exn :=
  match f with
  | no_columns => EmptyDataError
  | bad_rows => ParserError
  end.

Class Libraries : Type := {
  float_of_text : string -> option spec_float;
  point_of_other : pyval -> pyval -> result (spec_float * spec_float);
  csv_error : string -> option csv_failure
}.

(** [float(v)]: a number is converted, text is read as a number
    ([ValueError] if it is none), anything else is a [TypeError]. *)
Definition py_float {L : Libraries} (v : pyval) : result spec_float :=
  match v with
  | PyFloat f => Ok f
  | PyInt z => float_of_int z
  | PyBool b => float_of_int (bool_int b)
  | PyStr s => match float_of_text s with
               | Some f => Ok f
               | None => Raise ValueError
               end
  | _ => Raise TypeError
  end.

End Py.

Export Py.

Declare Scope py_scope.
Open Scope py_scope.

Notation "'let?' x ':=' m 'in' k" := (Py.bind m (fun x => k))
  (at level 10, x name, m at level 100, k at level 200) : py_scope.

(* ===================================================================== *)
(** * Effects: requests, sleeps and permits as a tree of interactions     *)
(* ===================================================================== *)

Module Eff.

(** What the body of a response is to a JSON decoder: a document under a
    JSON content type; a document under another content type; or no
    document at all ([declared] tells whether the content type says
    JSON). *)
Inductive body : Type :=
| Json (data : pyval)
| Mislabelled (data : pyval)
| Opaque (declared : bool).

(** [response.json()] of requests: the content type plays no part, and a
    body that is no document raises requests' [JSONDecodeError], which is
    a [RequestException]. *)
Definition requests_json (b : body) : result pyval :=
  match b with
  | Json data | Mislabelled data => Ok data
  | Opaque _ => Raise RequestException
  end.

(** [await resp.json()] of aiohttp: the content type is tested first
    ([ContentTypeError], a [ClientError]); a body that is no document then
    raises [json.JSONDecodeError], which is a [ValueError]. *)
Definition aiohttp_json (b : body) : result pyval :=
  match b with
  | Json data => Ok data
  | Mislabelled _ | Opaque false => Raise ClientError
  | Opaque true => Raise ValueError
  end.

(** What an HTTP call comes back with: a response (status code, body text
    and what the body is to a JSON decoder), or a connection-level failure
    ([requests.RequestException], [aiohttp.ClientError]). *)
Inductive http_reply : Type :=
| Response (status_code : Z) (text : string) (json : body)
| ConnectionFailure.

(** The points at which the code talks to the outside. *)
Inductive event : Type :=
| StatusGet (url : string)             (* requests.get(status_url, timeout=5) *)
| HttpGet (server query : string)      (* GET server?data=query *)
| Sleep (seconds : Z)                  (* time.sleep / asyncio.sleep *)
| Acquire                              (* await semaphore.acquire() *)
| Release.                             (* semaphore.release() *)

Definition answer (e : event) : Type :=
  match e with
  | StatusGet _ | HttpGet _ _ => http_reply
  | Sleep _ | Acquire | Release => unit
  end.

(** A program: it ends (returning or raising), or performs an event and
    goes on with the answer. *)
Inductive prog (A : Type) : Type :=
| Ret (r : result A)
| Vis (e : event) (k : answer e -> prog A).
Arguments Ret {A} r.
Arguments Vis {A} e k.

Definition ret {A} (a : A) : prog A := Ret (Ok a).
Definition raise {A} (e : exn) : prog A := Ret (Raise e).
Definition trigger (e : event) : prog (answer e) := Vis e (fun x => ret x).
Definition lift {A} (r : result A) : prog A := Ret r.

Fixpoint pbind {A B} (m : prog A) (f : A -> prog B) : prog B :=
  match m with
  | Ret (Ok a) => f a
  | Ret (Raise e) => Ret (Raise e)
  | Vis e k => Vis e (fun x => pbind (k x) f)
  end.

(** [try: body finally: fin]: [fin] runs on every way out of [body], and
    the outcome of [body] (value or exception) is kept. *)
Fixpoint try_finally {A} (body : prog A) (fin : event) : prog A :=
  match body with
  | Ret r => Vis fin (fun _ => Ret r)
  | Vis e k => Vis e (fun x => try_finally (k x) fin)
  end.

(** [try: body except E: handler], [caught] telling the exceptions that
    are an [E]: an exception of [body] that is caught gives way to
    [handler], anything else is the outcome of [body]. *)
Fixpoint try_except {A} (body : prog A) (caught : exn -> bool)
  (handler : prog A) : prog A :=
  match body with
  | Ret (Ok a) => Ret (Ok a)
  | Ret (Raise e) => if caught e then handler else Ret (Raise e)
  | Vis e k => Vis e (fun x => try_except (k x) caught handler)
  end.

(** ** Running a program on its own

    The outside world is given by the replies of the status endpoint and
    of the query endpoint, each indexed by the number of calls made to it
    so far. *)
Record env : Type := {
  status_reply : nat -> http_reply;
  query_reply : nat -> http_reply
}.

Record world : Type := {
  status_calls : nat;
  query_calls : nat;
  trace : list event
}.

Definition world0 : world :=
  {| status_calls := 0; query_calls := 0; trace := [] |}.

Definition handle (E : env) (w : world) (e : event) : answer e * world :=
  match e return answer e * world with
  | StatusGet u =>
      (status_reply E (status_calls w),
       {| status_calls := S (status_calls w); query_calls := query_calls w;
          trace := trace w ++ [StatusGet u] |})
  | HttpGet s q =>
      (query_reply E (query_calls w),
       {| status_calls := status_calls w; query_calls := S (query_calls w);
          trace := trace w ++ [HttpGet s q] |})
  | Sleep d =>
      (tt, {| status_calls := status_calls w; query_calls := query_calls w;
              trace := trace w ++ [Sleep d] |})
  | Acquire =>
      (tt, {| status_calls := status_calls w; query_calls := query_calls w;
              trace := trace w ++ [Acquire] |})
  | Release =>
      (tt, {| status_calls := status_calls w; query_calls := query_calls w;
              trace := trace w ++ [Release] |})
  end.

Fixpoint exec {A} (E : env) (p : prog A) (w : world) : result A * world :=
  match p with
  | Ret r => (r, w)
  | Vis e k => let (x, w') := handle E w e in exec E (k x) w'
  end.

Definition is_network (e : event) : bool :=
  match e with
  | StatusGet _ | HttpGet _ _ => true
  | _ => false
  end.

Definition is_query (e : event) : bool :=
  match e with
  | HttpGet _ _ => true
  | _ => false
  end.

Definition is_sleep (e : event) : bool :=
  match e with
  | Sleep _ => true
  | _ => false
  end.

(** Seconds slept along a trace. *)
Fixpoint slept (t : list event) : Z :=
  match t with
  | [] => 0
  | Sleep d :: t' => d + slept t'
  | _ :: t' => slept t'
  end.

End Eff.

Export Eff.

Notation "x <- m ;; k" := (Eff.pbind m (fun x => k))
  (at level 61, m at next level, right associativity) : py_scope.
Notation "m ;;; k" := (Eff.pbind m (fun _ => k))
  (at level 61, right associativity) : py_scope.

(* ===================================================================== *)
(** * data/input/osm_input.py                                             *)
(* ===================================================================== *)

Module OsmInput.

(** The attributes [OverpassQuery.__init__] stores.  [area_name] may be
    [None] or empty, [bbox] may be [None] or a tuple of floats. *)
Record OverpassQuery : Type := {
  area_name : option string;
  tags : dict pyval;
  bbox : option (list spec_float);
  element_types : list string;
  timeout : Z;
  output : string;
  csv_fields : option (list string);
  parse_geometry : bool;
  server : string;
  max_retries : Z;
  retry_delay : Z
}.

(** A shapely geometry, by the coordinates it holds: doubles, whatever
    the constructor was given.  A polygon is held by its outer ring. *)
Inductive geometry : Type :=
| point (x y : spec_float)
| linestring (coords : list (spec_float * spec_float))
| polygon (shell : list (spec_float * spec_float)).

(** A value of a decoded row: a tag value, the element id, or the geometry. *)
Inductive rval : Type :=
| Val (v : pyval)
| Geom (g : geometry).

Definition record : Type := dict rval.

(** What [run] and [_run_query] hand back. *)
Inductive query_result : Type :=
| CsvFrame (text : string)            (* pd.read_csv(StringIO(text)) *)
| GeoFrame (records : list record)    (* gpd.GeoDataFrame(records, ...) *)
| RawJson (data : pyval)
| RawText (text : string)
| NoResult.                           (* None *)

(** ** Tag rendering: [_format_tags] *)

(** One turn of the loop over [self.tags.items()]. *)
Definition format_tag (tag_queries : list string) (k : string) (v : pyval)
  : list string :=
  match v with
  | PyBool true => tag_queries ++ ["[" ++ k ++ "]"]
  | PyBool false => tag_queries ++ ["[!" ++ k ++ "]"]
  | PyStr s =>
      if startswith "~" s then
        tag_queries ++ ["[" ++ k ++ "~" ++ dq ++ str_tail s ++ dq ++ "]"]
      else if str_in "|" s then
        tag_queries ++ ["[" ++ k ++ "~" ++ dq ++ "^" ++ s ++ "$" ++ dq ++ "]"]
      else
        tag_queries ++ ["[" ++ k ++ "=" ++ dq ++ s ++ dq ++ "]"]
  | _ => tag_queries
  end.

Definition format_tags_of (tags : dict pyval) : string :=
  str_join "" (fold_left (fun acc kv => format_tag acc (fst kv) (snd kv)) tags []).

Definition _format_tags (self : OverpassQuery) : string :=
  format_tags_of (tags self).

(** ** Query text *)

Definition area_name_given (self : OverpassQuery) : bool :=
  match area_name self with
  | Some s => negb (String.eqb s "")
  | None => false
  end.

Definition bbox_given (self : OverpassQuery) : bool :=
  match bbox self with
  | Some (_ :: _) => true
  | _ => false
  end.

Definition _build_area_query (self : OverpassQuery) : string :=
  match area_name self with
  | Some s =>
      if String.eqb s "" then ""
      else "area[name=" ++ dq ++ s ++ dq ++ "][admin_level];"
  | None => ""
  end.

Section Text.

(** [str(x)] for a [float] (the shortest decimal text that reads back as
    [x]) is a primitive of the language; the query text is built over it. *)
Variable str_float : spec_float -> string.

Definition _build_main_query (self : OverpassQuery) : result string :=
  let tag_filter := _format_tags self in
  let? location :=
    match bbox self with
    | Some (c :: cs) => Ok ("(" ++ str_join "," (map str_float (c :: cs)) ++ ")")
    | _ => if area_name_given self then Ok "(area)" else Raise ValueError
    end in
  Ok (str_join nl
        (map (fun et => et ++ tag_filter ++ location ++ ";") (element_types self))).

Definition pad12 : string := "            ".
Definition pad16 : string := "                ".

Definition csv_fields_given (self : OverpassQuery) : bool :=
  match csv_fields self with
  | Some (_ :: _) => true
  | _ => false
  end.

Definition _build_query (self : OverpassQuery) : result string :=
  let area_part := _build_area_query self in
  let? main_part := _build_main_query self in
  if String.eqb (output self) "csv" && csv_fields_given self then
    let csv_header :=
      str_join "," (match csv_fields self with Some l => l | None => [] end) in
    Ok (strip
      (nl ++ pad12 ++ "[out:csv(" ++ csv_header ++ ")][timeout:"
          ++ str_int (timeout self) ++ "];" ++
       nl ++ pad12 ++ area_part ++
       nl ++ pad12 ++ "(" ++
       nl ++ pad16 ++ main_part ++
       nl ++ pad12 ++ ");" ++
       nl ++ pad12 ++ "out center;" ++
       nl ++ pad12))
  else if String.eqb (output self) "json" && parse_geometry self then
    Ok (strip
      (nl ++ pad12 ++ "[out:json][timeout:" ++ str_int (timeout self) ++ "];" ++
       nl ++ pad12 ++ area_part ++
       nl ++ pad12 ++ "(" ++
       nl ++ pad16 ++ main_part ++
       nl ++ pad12 ++ ");" ++
       nl ++ pad12 ++ "out geom;" ++
       nl ++ pad12))
  else
    Ok (strip
      (nl ++ pad12 ++ "[out:" ++ output self ++ "][timeout:"
          ++ str_int (timeout self) ++ "];" ++
       nl ++ pad12 ++ area_part ++
       nl ++ pad12 ++ "(" ++
       nl ++ pad16 ++ main_part ++
       nl ++ pad12 ++ ");" ++
       nl ++ pad12 ++ "out body;" ++
       nl ++ pad12 ++ ">;" ++
       nl ++ pad12 ++ "out skel qt;" ++
       nl ++ pad12)).

End Text.

(** ** Slot polling *)

(** [old] replaced by [new] throughout [s] ([old] is not empty);
    [skip] counts the characters of a match still to be passed over. *)
Fixpoint replace_from (old new : string) (skip : nat) (s : string) : string :=
  match s with
  | EmptyString => EmptyString
  | String c s' =>
      match skip with
      | S n => replace_from old new n s'
      | O =>
          if String.prefix old s
          then new ++ replace_from old new (Nat.pred (String.length old)) s'
          else String c (replace_from old new O s')
      end
  end.

Definition str_replace (old new s : string) : string :=
  replace_from old new O s.

Definition status_url (self : OverpassQuery) : string :=
  str_replace "/interpreter" "/status" (server self).

(** What [_check_availability] makes of the reply to its status request:
    [True], [False], or [None] when the status code is not 200. *)
Definition availability (r : http_reply) : pyval :=
  match r with
  | Response code text _ =>
      if code =? 200 then
        if str_in "Slot available" text || str_in "available now" text
        then PyBool true
        else if str_in "slots available" text then PyBool true
        else PyBool false
      else PyNone
  | ConnectionFailure => PyBool false
  end.

Definition _check_availability (self : OverpassQuery) : prog pyval :=
  r <- trigger (StatusGet (status_url self)) ;;
  ret (availability r).

(** The [while waited < max_wait] loop of [_wait_for_slot]. *)
Equations? wait_loop (self : OverpassQuery) (max_wait waited : Z) : prog unit
  by wf (Z.to_nat (max_wait - waited)) lt :=
  wait_loop self max_wait waited with Z_lt_dec waited max_wait => {
    | left _ =>
        Vis (StatusGet (status_url self)) (fun r =>
          if truthy (availability r) then ret tt
          else Vis (Sleep 5) (fun _ => wait_loop self max_wait (waited + 5)));
    | right _ => raise TimeoutError }.
Proof. lia. Qed.

Definition _wait_for_slot (self : OverpassQuery) (max_wait : Z) : prog unit :=
  wait_loop self max_wait 0.

(** ** Geometry validation: [is_valid_geometry] *)

Definition pair_val (c : spec_float * spec_float) : pyval :=
  PyTuple [PyFloat (fst c); PyFloat (snd c)].

(** [mapping(geom)["coordinates"]]: a pair for a point, a tuple of pairs
    for a line, a tuple of rings (here the shell alone) for a polygon, the
    empty tuple for a polygon without a ring. *)
Definition coordinates (g : geometry) : pyval :=
  match g with
  | point x y => PyTuple [PyFloat x; PyFloat y]
  | linestring cs => PyTuple (map pair_val cs)
  | polygon [] => PyTuple []
  | polygon shell => PyTuple [PyTuple (map pair_val shell)]
  end.

(** The inner function [check_coords]; [all] stops at the first [False]
    and lets an exception of [math.isfinite] through. *)
Fixpoint check_coords (c : pyval) : result bool :=
  match c with
  | PyFloat _ | PyInt _ | PyBool _ => math_isfinite c
  | PyList l | PyTuple l =>
      (fix all (xs : list pyval) : result bool :=
         match xs with
         | [] => Ok true
         | x :: xs' =>
             let? b := check_coords x in
             if b then all xs' else Ok false
         end) l
  | _ => Ok false
  end.

Definition is_valid_geometry (geom : option geometry) : result bool :=
  match geom with
  | None => Ok false
  | Some g => check_coords (coordinates g)
  end.

(** ** The constructors of shapely, as the decoder calls them *)

Section Decoding.

Context {L : Libraries}.

(** [Point(x, y)]: two numbers are converted to doubles (an [int] beyond
    the doubles is an [OverflowError]); what becomes of other arguments is
    a parameter. *)
Definition Point (x y : pyval) : result geometry :=
  if is_number x && is_number y then
    let? fx := py_float x in
    let? fy := py_float y in
    Ok (point fx fy)
  else
    let? c := point_of_other x y in
    Ok (point (fst c) (snd c)).

(** [[float(c) for c in o]] for every pair [o] of a list of pairs. *)
Fixpoint float_pairs (coords : list (pyval * pyval))
  : result (list (spec_float * spec_float)) :=
  match coords with
  | [] => Ok []
  | o :: rest =>
      let? x := py_float (fst o) in
      let? y := py_float (snd o) in
      let? more := float_pairs rest in
      Ok ((x, y) :: more)
  end.

(** [LineString(coords)]: no coordinates give the empty line, one alone
    is refused by GEOS, two or more make a line. *)
Definition LineString (coords : list (pyval * pyval)) : result geometry :=
  let? cs := float_pairs coords in
  match cs with
  | [] => Ok (linestring [])
  | [_] => Raise GEOSException
  | _ => Ok (linestring cs)
  end.

(** Two coordinates as shapely compares them: double by double. *)
Definition coord_eq (a b : spec_float * spec_float) : bool :=
  SFeqb (fst a) (fst b) && SFeqb (snd a) (snd b).

(** [Polygon(coords)]: the coordinates are made a ring, closed by a copy
    of the first coordinate unless the last one equals it; a ring needs
    four coordinates ([ValueError] otherwise); no coordinates give the
    empty polygon. *)
Definition Polygon (coords : list (pyval * pyval)) : result geometry :=
  let? cs := float_pairs coords in
  match cs with
  | [] => Ok (polygon [])
  | c0 :: _ =>
      let ring := if coord_eq c0 (last cs c0) then cs else (cs ++ [c0])%list in
      if (List.length ring <? 4)%nat then Raise ValueError
      else Ok (polygon ring)
  end.

(** ** Decoding: [json_to_geodataframe] *)

(** The comprehension over the points of a way: the condition reads
    [pt["lon"]], then (only if that is finite) [pt["lat"]]; a point that
    passes is read once more for the pair itself. *)
Fixpoint way_coords (pts : list pyval) : result (list (pyval * pyval)) :=
  match pts with
  | [] => Ok []
  | pt :: rest =>
      let? lon := getitem pt "lon" in
      let? lon_ok := math_isfinite lon in
      let? keep :=
        (if lon_ok
         then let? lat := getitem pt "lat" in math_isfinite lat
         else Ok false) in
      if keep then
        let? x := getitem pt "lon" in
        let? y := getitem pt "lat" in
        let? more := way_coords rest in
        Ok ((x, y) :: more)
      else way_coords rest
  end.

(** Equality of two coordinate pairs, component by component. *)
Definition pair_eq (a b : pyval * pyval) : bool :=
  py_eq (fst a) (fst b) && py_eq (snd a) (snd b).

(** [coords[0] == coords[-1] and len(coords) >= 3] *)
Definition is_closed_ring (coords : list (pyval * pyval)) : bool :=
  match coords with
  | [] => false
  | c0 :: _ => pair_eq c0 (last coords c0) && (3 <=? Z.of_nat (List.length coords))
  end.

(** The geometry of one element: [None] stands for every way to the next
    element without a record ([continue], or [geom] left at [None]). *)
Definition element_geometry (el : pyval) : result (option geometry) :=
  let? ty := getitem el "type" in
  if py_eq ty (PyStr "node") then
    let? has_lat := contains "lat" el in
    let? has_both := (if has_lat then contains "lon" el else Ok false) in
    if has_both then
      let? lon := getitem el "lon" in
      let? lat := getitem el "lat" in
      let? geom := Point lon lat in
      Ok (Some geom)
    else Ok None
  else if py_eq ty (PyStr "way") then
    let? g := get el "geometry" (PyList []) in
    let? pts := iter g in
    let? coords := way_coords pts in
    match coords with
    | [] => Ok None
    | _ => if is_closed_ring coords
           then let? geom := Polygon coords in Ok (Some geom)
           else let? geom := LineString coords in Ok (Some geom)
    end
  else if py_eq ty (PyStr "relation") then Ok None
  else Ok None.

(** The items a [**tags] unpacking writes; only a mapping can be unpacked. *)
Definition mapping_items (tags : pyval) : result (dict rval) :=
  match tags with
  | PyDict d => Ok (map (fun kv => (fst kv, Val (snd kv))) d)
  | _ => Raise TypeError
  end.

(** The body of the [try] for one element: the record to append, or
    [None] when the element is passed over. *)
Definition decode_element (el : pyval) : result (option record) :=
  let? geom := element_geometry el in
  match geom with
  | None => Ok None
  | Some g =>
      let? valid := is_valid_geometry (Some g) in
      if negb valid then Ok None
      else
        let? tags := get el "tags" (PyDict []) in
        let? id := getitem el "id" in
        let? items := mapping_items tags in
        Ok (Some (dict_set "geometry" (Geom g)
                    (dict_update (dict_set "id" (Val id) []) items)))
  end.

(** The loop over the elements.  The handler of the [try] reads
    [el.get('id')] for its message, which itself fails when [el] is not a
    dict. *)
Fixpoint decode_loop (els : list pyval) (records : list record)
  : result (list record) :=
  match els with
  | [] => Ok records
  | el :: rest =>
      match decode_element el with
      | Ok (Some r) => decode_loop rest (records ++ [r])
      | Ok None => decode_loop rest records
      | Raise _ =>
          let? _ := get el "id" PyNone in
          decode_loop rest records
      end
  end.

(** [gpd.GeoDataFrame(records, geometry="geometry", ...)], by its rows:
    the frame of no records has no column, so none of the name
    [geometry], which is a [ValueError]; every record of the decoder has
    that key. *)
Definition GeoDataFrame (records : list record) : result (list record) :=
  match records with
  | [] => Raise ValueError
  | _ => Ok records
  end.

(** The rows of the returned frame.  Without elements the frame is made
    with its columns named, and is empty. *)
Definition json_to_geodataframe (osm_json : pyval) : result (list record) :=
  let? elements := get osm_json "elements" (PyList []) in
  if negb (truthy elements) then Ok []
  else
    let? els := iter elements in
    let? records := decode_loop els [] in
    GeoDataFrame records.

(** ** The synchronous executor: [run] *)

(** [pd.read_csv(StringIO(text))]: an empty text has no columns to read,
    which is an [EmptyDataError]; the errors on other texts are a
    parameter.  The frame is held by the text it was read from. *)
Definition read_csv (text : string) : result string :=
  if String.eqb text "" then Raise EmptyDataError
  else match csv_error text with
       | Some f => Raise (csv_exn f)
       | None => Ok text
       end.

(** The branch taken on a 200 reply (the same three-way choice is written
    out in [run] and in [AsyncOverpassClient._run_query]); [json] is what
    the call of the response's [json()] comes to, made in the second
    branch only. *)
Definition on_success (self : OverpassQuery) (text : string)
  (json : result pyval) : prog query_result :=
  if String.eqb (output self) "csv" then
    frame <- lift (read_csv text) ;; ret (CsvFrame frame)
  else if String.eqb (output self) "json" then
    data <- lift json ;;
    if parse_geometry self
    then rows <- lift (json_to_geodataframe data) ;; ret (GeoFrame rows)
    else ret (RawJson data)
  else ret (RawText text).

(** [status_code in (429, 500, 503)] *)
Definition retryable (code : Z) : bool :=
  (code =? 429) || (code =? 500) || (code =? 503).

(** [time.sleep(seconds)] with an [int]: the length is converted to a
    64-bit count of nanoseconds ([OverflowError] when it does not fit),
    and a negative length is a [ValueError]. *)
Definition time_sleep (seconds : Z) : prog unit :=
  if (seconds <? -9223372036) || (9223372036 <? seconds) then raise OverflowError
  else if seconds <? 0 then raise ValueError
  else trigger (Sleep seconds).

Definition is_RequestException (e : exn) : bool :=
  match e with
  | RequestException => true
  | _ => false
  end.

(** One turn of the loop of [run], the [try] with its handler: [Some r]
    stands for [return r], [None] for the way to the next turn. *)
Definition attempt (self : OverpassQuery) (query : string)
  : prog (option query_result) :=
  try_except
    (response <- trigger (HttpGet (server self) query) ;;
     match response with
     | ConnectionFailure => raise RequestException
     | Response code text b =>
         if code =? 200 then
           r <- on_success self text (requests_json b) ;; ret (Some r)
         else if retryable code then
           time_sleep (retry_delay self) ;;; ret None
         else ret (Some NoResult)
     end)
    is_RequestException
    (time_sleep (retry_delay self) ;;; ret None).

(** [for attempt in range(self.max_retries)], by the attempts left. *)
Fixpoint run_attempts (self : OverpassQuery) (query : string) (left : nat)
  : prog query_result :=
  match left with
  | O => ret NoResult
  | S left' =>
      r <- attempt self query ;;
      match r with
      | Some x => ret x
      | None => run_attempts self query left'
      end
  end.

End Decoding.

Section Run.

Context {L : Libraries}.
Variable str_float : spec_float -> string.

Definition run (self : OverpassQuery) : prog query_result :=
  _wait_for_slot self 60 ;;;
  query <- lift (_build_query str_float self) ;;
  run_attempts self query (Z.to_nat (max_retries self)).

End Run.

End OsmInput.

(* ===================================================================== *)
(** * data/service/osm_client.py                                          *)
(* ===================================================================== *)

Module OsmClient.

Import OsmInput.

(** [AsyncOverpassClient]: its semaphore starts with [max_concurrent]
    permits. *)
Record AsyncOverpassClient : Type := {
  max_concurrent : Z
}.

(** [await asyncio.sleep(seconds)]: a length that is zero or negative
    gives way to the event loop once and returns; no length is refused. *)
Definition asyncio_sleep (seconds : Z) : prog unit := trigger (Sleep seconds).

Definition is_ClientError (e : exn) : bool :=
  match e with
  | ClientError => true
  | _ => false
  end.

Section Client.

Context {L : Libraries}.
Variable str_float : spec_float -> string.

(** One turn of the loop of [_run_query], the [try] with its handler:
    [Some r] stands for [return r], [None] for the way to the next turn.
    Every reply other than a 200 is followed by a sleep. *)
Definition query_attempt (query_obj : OverpassQuery) (query : string)
  : prog (option query_result) :=
  try_except
    (resp <- trigger (HttpGet (server query_obj) query) ;;
     match resp with
     | ConnectionFailure => raise ClientError
     | Response status text b =>
         if status =? 200 then
           r <- on_success query_obj text (aiohttp_json b) ;; ret (Some r)
         else
           asyncio_sleep (retry_delay query_obj) ;;; ret None
     end)
    is_ClientError
    (asyncio_sleep (retry_delay query_obj) ;;; ret None).

(** [for _ in range(query_obj.max_retries)] of [_run_query]. *)
Fixpoint query_attempts (query_obj : OverpassQuery) (query : string)
  (left : nat) : prog query_result :=
  match left with
  | O => ret NoResult
  | S left' =>
      r <- query_attempt query_obj query ;;
      match r with
      | Some x => ret x
      | None => query_attempts query_obj query left'
      end
  end.

Definition _run_query (query_obj : OverpassQuery) : prog query_result :=
  Vis Acquire (fun _ =>
    try_finally
      (query <- lift (_build_query str_float query_obj) ;;
       query_attempts query_obj query (Z.to_nat (max_retries query_obj)))
      Release).

(** ** [run_all]: the coroutines of a batch under [asyncio.gather]

    Every coroutine has its own replies from the outside and its own
    record of what it did.  The event loop advances one coroutine at a
    time to its next point of interaction; which one is not fixed. *)
Record task : Type := {
  code : prog query_result;
  outside : env;
  seen : world
}.

Record system : Type := {
  permits : Z;
  tasks : list task
}.

(** One step of a coroutine, if it can take one: a finished coroutine
    cannot, and [acquire] needs a permit. *)
Definition step_task (p : Z) (t : task) : option (Z * task) :=
  match code t with
  | Ret _ => None
  | Vis e k =>
      let next (p' : Z) :=
        let (x, w') := handle (outside t) (seen t) e in
        Some (p', {| code := k x; outside := outside t; seen := w' |}) in
      match e with
      | Acquire => if 0 <? p then next (p - 1) else None
      | Release => next (p + 1)
      | _ => next p
      end
  end.

Definition enabled (p : Z) (t : task) : bool :=
  match step_task p t with Some _ => true | None => false end.

(** The indices, from [i] on, of the coroutines that can take a step. *)
Fixpoint enabled_from (p : Z) (i : nat) (ts : list task) : list nat :=
  match ts with
  | [] => []
  | t :: ts' =>
      if enabled p t then i :: enabled_from p (S i) ts'
      else enabled_from p (S i) ts'
  end.

Fixpoint replace_nth {A} (n : nat) (x : A) (l : list A) : list A :=
  match l, n with
  | [], _ => []
  | _ :: l', O => x :: l'
  | y :: l', S n' => y :: replace_nth n' x l'
  end.

Definition step_system (i : nat) (s : system) : system :=
  match nth_error (tasks s) i with
  | None => s
  | Some t =>
      match step_task (permits s) t with
      | None => s
      | Some (p', t') => {| permits := p'; tasks := replace_nth i t' (tasks s) |}
      end
  end.

(** The first exception among the coroutines, if one has raised. *)
Fixpoint first_raised (ts : list task) : option exn :=
  match ts with
  | [] => None
  | t :: ts' =>
      match code t with
      | Ret (Raise e) => Some e
      | _ => first_raised ts'
      end
  end.

(** The results in the order of the coroutines, once all have returned. *)
Fixpoint all_returned (ts : list task) : option (list query_result) :=
  match ts with
  | [] => Some []
  | t :: ts' =>
      match code t, all_returned ts' with
      | Ret (Ok r), Some rs => Some (r :: rs)
      | _, _ => None
      end
  end.

Inductive outcome : Type :=
| Returned (results : list query_result)
| Raised (e : exn)
| Blocked          (* nobody can step, yet not everybody is done *)
| Running.         (* the choices given ran out before the end *)

(** [await asyncio.gather(...)]: an exception of a coroutine is passed on
    at once; otherwise the list of results, in argument order, once every
    coroutine is done.  [choices] resolves, at each step, which of the
    coroutines that can step does. *)
Fixpoint gather (choices : list nat) (s : system) : outcome :=
  match first_raised (tasks s) with
  | Some e => Raised e
  | None =>
      match all_returned (tasks s) with
      | Some rs => Returned rs
      | None =>
          match enabled_from (permits s) O (tasks s) with
          | [] => Blocked
          | i0 :: en =>
              match choices with
              | [] => Running
              | c :: choices' =>
                  let i := nth (Nat.modulo c (List.length (i0 :: en))) (i0 :: en) i0 in
                  gather choices' (step_system i s)
              end
          end
      end
  end.

(** The coroutines [run_all] hands to [gather], one per query and in the
    order of the queries; the [i]-th one talks to [Es i]. *)
Fixpoint spawn (Es : nat -> env) (i : nat) (queries : list OverpassQuery)
  : list task :=
  match queries with
  | [] => []
  | q :: queries' =>
      {| code := _run_query q; outside := Es i; seen := world0 |}
      :: spawn Es (S i) queries'
  end.

Definition run_all (self : AsyncOverpassClient) (Es : nat -> env)
  (choices : list nat) (queries : list OverpassQuery) : outcome :=
  gather choices
    {| permits := max_concurrent self; tasks := spawn Es O queries |}.

End Client.

End OsmClient.


(* ===================================================================== *)
(** * src/osint_assistant/tools/utils.py                                  *)
(* ===================================================================== *)

Module Utils.

(** [sanitize_obj] on the values a JSON document or a [model_dump()] is
    made of.  A list and a tuple go through the same comprehension, which
    builds a list from either; [bool] is a subclass of [int], so the number
    branch takes it.  The branches for Shapely geometries and NumPy scalars
    are not reached by these values. *)
Fixpoint sanitize_obj (obj : pyval) : result pyval :=
  match obj with
  | PyNone => Ok PyNone
  | PyFloat f =>
      let? finite := math_isfinite obj in
      if negb finite then Ok PyNone else Ok (PyFloat f)
  | PyInt z =>
      let? finite := math_isfinite obj in
      if negb finite then Ok PyNone
      else let? f := float_of_int z in Ok (PyFloat f)
  | PyBool b =>
      let? finite := math_isfinite obj in
      if negb finite then Ok PyNone
      else let? f := float_of_int (bool_int b) in Ok (PyFloat f)
  | PyDict d =>
      let? d' :=
        (fix items (kvs : dict pyval) : result (dict pyval) :=
           match kvs with
           | [] => Ok []
           | (k, v) :: rest =>
               let? v' := sanitize_obj v in
               let? rest' := items rest in
               Ok ((k, v') :: rest')
           end) d in
      Ok (PyDict d')
  | PyList l | PyTuple l =>
      let? l' :=
        (fix each (xs : list pyval) : result (list pyval) :=
           match xs with
           | [] => Ok []
           | x :: rest =>
               let? x' := sanitize_obj x in
               let? rest' := each rest in
               Ok (x' :: rest')
           end) l in
      Ok (PyList l')
  | PyStr _ => Ok obj
  end.

End Utils.
(* ===================================================================== *)
(** * Reference quantities and sample inputs                              *)
(* ===================================================================== *)

Module Reference.

Import OsmInput OsmClient.

(** The number of polls a wait of [max_wait] seconds is good for: one per
    5 seconds begun, none when [max_wait] is not positive. *)
Definition polls_needed (max_wait : Z) : nat := Z.to_nat ((max_wait + 4) / 5).

(** [n] rounds of "ask the status endpoint, sleep 5 seconds". *)
Fixpoint poll_rounds (url : string) (n : nat) : list event :=
  match n with
  | O => []
  | S n' => StatusGet url :: Sleep 5 :: poll_rounds url n'
  end.

(** The status endpoint never reports a free slot. *)
Definition never_available (E : env) : Prop :=
  forall n, truthy (availability (status_reply E n)) = false.

(** The status endpoint reports a free slot at poll [i] for the first time. *)
Definition first_available_at (E : env) (i : nat) : Prop :=
  (forall j, (j < i)%nat -> truthy (availability (status_reply E j)) = false) /\
  truthy (availability (status_reply E i)) = true.

(** The world after [n] more status requests and the events [evs]. *)
Definition after_polls (w : world) (n : nat) (evs : list event) : world :=
  {| status_calls := status_calls w + n;
     query_calls := query_calls w;
     trace := trace w ++ evs |}.

(** A status endpoint that is busy for ever, and one with a free slot. *)
Definition busy_env : env :=
  {| status_reply := fun _ => Response 200 "Rate limit: 2" (Opaque false);
     query_reply := fun _ => ConnectionFailure |}.

Definition free_env (replies : nat -> http_reply) : env :=
  {| status_reply := fun _ => Response 200 "2 slots available now." (Opaque false);
     query_reply := replies |}.

Definition hospitals : OverpassQuery :=
  {| area_name := Some "Berlin";
     tags := [("amenity", PyStr "hospital|clinic")];
     bbox := None; element_types := ["node"; "way"]; timeout := 25;
     output := "json"; csv_fields := None; parse_geometry := true;
     server := "https://overpass-api.de/api/interpreter";
     max_retries := 3; retry_delay := 10 |}.

Definition with_level : OverpassQuery :=
  {| area_name := Some "Berlin";
     tags := [("amenity", PyStr "cafe"); ("level", PyInt 3); ("name", PyBool true)];
     bbox := None; element_types := ["node"]; timeout := 25;
     output := "json"; csv_fields := None; parse_geometry := false;
     server := "https://overpass-api.de/api/interpreter";
     max_retries := 3; retry_delay := 10 |}.

Definition without_level : OverpassQuery :=
  {| area_name := Some "Berlin";
     tags := [("amenity", PyStr "cafe"); ("name", PyBool true)];
     bbox := None; element_types := ["node"]; timeout := 25;
     output := "json"; csv_fields := None; parse_geometry := false;
     server := "https://overpass-api.de/api/interpreter";
     max_retries := 3; retry_delay := 10 |}.

(** A query with neither a bounding box nor an area name. *)
Definition nowhere : OverpassQuery :=
  {| area_name := None;
     tags := [("amenity", PyStr "restaurant")];
     bbox := None; element_types := ["node"; "way"]; timeout := 25;
     output := "json"; csv_fields := None; parse_geometry := true;
     server := "https://overpass-api.de/api/interpreter";
     max_retries := 3; retry_delay := 10 |}.

(** A stand-in for [str] on floats where the text of a float plays no part. *)
Definition no_float_text (f : spec_float) : string := "".

(** A stand-in for the library parameters where they play no part: no
    text is read as a number, [Point] refuses what is not two numbers, and
    a text that is not empty is read as a table. *)
Definition plain : Libraries :=
  {| float_of_text := fun _ => None;
     point_of_other := fun _ _ => Raise TypeError;
     csv_error := fun _ => None |}.

(** A length [time.sleep] takes, and what it raises on any other. *)
Definition sleepable (seconds : Z) : Prop := 0 <= seconds <= 9223372036.

Definition sleep_error (seconds : Z) : option exn :=
  if (seconds <? -9223372036) || (9223372036 <? seconds) then Some OverflowError
  else if seconds <? 0 then Some ValueError
  else None.

(** A reply after which [run] sleeps and tries again. *)
Definition transient (r : http_reply) : bool :=
  match r with
  | Response code _ _ => retryable code
  | ConnectionFailure => true
  end.

(** The query asks for the body as JSON: the second branch of the choice
    on a 200 reply. *)
Definition asks_json (self : OverpassQuery) : bool :=
  negb (String.eqb (output self) "csv") && String.eqb (output self) "json".

Definition is_opaque (b : body) : bool :=
  match b with
  | Opaque _ => true
  | _ => false
  end.

(** Every reply after which [run] sleeps and tries again: a transient
    one, or a 200 whose body is asked for as JSON and is no document. *)
Definition retried (self : OverpassQuery) (r : http_reply) : bool :=
  match r with
  | Response code _ b =>
      retryable code || ((code =? 200) && asks_json self && is_opaque b)
  | ConnectionFailure => true
  end.

(** [n] rounds of "send the query, sleep [delay] seconds". *)
Fixpoint retry_rounds (server query : string) (delay : Z) (n : nat)
  : list event :=
  match n with
  | O => []
  | S n' => HttpGet server query :: Sleep delay :: retry_rounds server query delay n'
  end.

(** The world after [n] more query requests and the events [evs]. *)
Definition after_queries (w : world) (n : nat) (evs : list event) : world :=
  {| status_calls := status_calls w;
     query_calls := query_calls w + n;
     trace := trace w ++ evs |}.

(** A transport that answers with the given replies in turn. *)
Definition replies (l : list http_reply) : nat -> http_reply :=
  fun n => nth n l ConnectionFailure.

Definition not_found : http_reply := Response 404 "not found" (Opaque false).
Definition unavailable : http_reply := Response 503 "busy" (Opaque false).
Definition empty_payload : http_reply :=
  Response 200 "{}" (Json (PyDict [("elements", PyList [])])).

(** The text [hospitals] sends. *)
Definition hospitals_text : string :=
  "[out:json][timeout:25];" ++ nl ++ pad12 ++
  "area[name=" ++ dq ++ "Berlin" ++ dq ++ "][admin_level];" ++ nl ++ pad12 ++
  "(" ++ nl ++ pad16 ++
  "node[amenity~" ++ dq ++ "^hospital|clinic$" ++ dq ++ "](area);" ++ nl ++
  "way[amenity~" ++ dq ++ "^hospital|clinic$" ++ dq ++ "](area);" ++ nl ++ pad12 ++
  ");" ++ nl ++ pad12 ++ "out geom;".

(** ** Geometry *)

(** A number that is neither NaN nor an infinity. *)
Definition finite_number (v : pyval) : Prop :=
  match v with
  | PyInt _ | PyBool _ => True
  | PyFloat f => f <> S754_nan /\ forall s, f <> S754_infinity s
  | _ => False
  end.

(** Coordinates, however nested, all of whose components are finite
    numbers. *)
Inductive finite_coords : pyval -> Prop :=
| finite_leaf (v : pyval) : finite_number v -> finite_coords v
| finite_seq (l : list pyval) :
    (forall x, In x l -> finite_coords x) -> finite_coords (PyList l)
| finite_tuple (l : list pyval) :
    (forall x, In x l -> finite_coords x) -> finite_coords (PyTuple l).

(** A number as a JSON document can hold it and [math.isfinite] can take
    it: a float, or an integer within the range of floats. *)
Definition json_number (v : pyval) : Prop :=
  match v with
  | PyFloat _ | PyBool _ => True
  | PyInt z => int_fits_float z = true
  | _ => False
  end.

(** The "finite" test on such a number. *)
Definition finite_b (v : pyval) : bool :=
  match v with
  | PyFloat f => float_is_finite f
  | _ => true
  end.

(** The double nearest to an integer, and the double a number is
    converted to. *)
Definition double (z : Z) : spec_float := binary_normalize 53 1024 z 0 false.

Definition to_double (v : pyval) : spec_float :=
  match v with
  | PyFloat f => f
  | PyInt z => double z
  | PyBool b => double (bool_int b)
  | _ => S754_nan
  end.




(** A row with a geometry all of whose coordinates are finite. *)
Definition good_row (row : record) : Prop :=
  exists g, dict_get "geometry" row = Some (Geom g) /\
            finite_coords (coordinates g).




(** ** Sample elements *)

Definition pt (lon lat : Z) : pyval :=
  PyDict [("lat", PyInt lat); ("lon", PyInt lon)].

Definition way_of (id : Z) (pts : list pyval) : pyval :=
  PyDict [("type", PyStr "way"); ("id", PyInt id); ("geometry", PyList pts)].

Definition square : pyval := way_of 7 [pt 0 0; pt 1 0; pt 1 1; pt 0 0].


(** A node whose tags use the names [id] and [geometry]. *)
Definition colliding_node : pyval :=
  PyDict [("type", PyStr "node"); ("id", PyInt 1);
          ("lat", PyInt 52); ("lon", PyInt 13);
          ("tags", PyDict [("id", PyStr "x"); ("geometry", PyStr "g");
                           ("name", PyStr "n")])].

(** A way with a point that has a NaN longitude and no latitude. *)
Definition nan_lon_way : pyval :=
  way_of 9 [PyDict [("lon", PyFloat S754_nan)]; pt 1 0; pt 1 1].

(** A way with a point that has no longitude. *)
Definition no_lon_way : pyval :=
  way_of 10 [pt 0 0; PyDict [("lat", PyInt 1)]; pt 1 1].

(** ** Batches *)

(** What a coroutine will end with, run from where it stands. *)
Definition task_outcome (t : task) : result query_result :=
  fst (exec (outside t) (code t) (seen t)).

(** What each query of a batch ends with when run on its own, in the
    order of the queries. *)
Fixpoint own_outcomes {L : Libraries} (str_float : spec_float -> string)
  (Es : nat -> env) (i : nat) (queries : list OverpassQuery)
  : list (result query_result) :=
  match queries with
  | [] => []
  | q :: queries' =>
      fst (exec (Es i) (_run_query str_float q) world0)
      :: own_outcomes str_float Es (S i) queries'
  end.

(** Steps that are enough for a whole batch: per query the acquire, the
    release, and a request and a sleep for each attempt. *)
Fixpoint steps_bound (queries : list OverpassQuery) : nat :=
  match queries with
  | [] => O
  | q :: queries' => (2 * Z.to_nat (max_retries q) + 2) + steps_bound queries'
  end.

(** A program that does not touch the semaphore. *)
Fixpoint sem_free {A : Type} (p : prog A) : Prop :=
  match p with
  | Ret _ => True
  | Vis e k => e <> Acquire /\ e <> Release /\ forall x, sem_free (k x)
  end.

(** A program that holds a permit: whatever happens, it comes to a
    release and ends there. *)
Fixpoint holds {A : Type} (p : prog A) : Prop :=
  match p with
  | Ret _ => False
  | Vis e k =>
      e <> Acquire /\
      ((e = Release /\ exists r, forall x, k x = Ret r) \/
       (e <> Release /\ forall x, holds (k x)))
  end.

(** A program that ends within [n] events. *)
Fixpoint depth_le {A : Type} (n : nat) (p : prog A) {struct p} : Prop :=
  match p, n with
  | Ret _, _ => True
  | Vis _ _, O => False
  | Vis e k, S n' => forall x, depth_le n' (k x)
  end.

(** Whether a coroutine holds a permit, read off its next event. *)
Definition holding (t : task) : bool :=
  match code t with
  | Ret _ => false
  | Vis Acquire _ => false
  | Vis _ _ => true
  end.

Definition held (t : task) : Z := if holding t then 1 else 0.

(** The three stages of [_run_query]: before the acquire, with the
    permit, done. *)
Definition well_shaped (t : task) : Prop :=
  match code t with
  | Ret _ => True
  | Vis e k => (e = Acquire /\ forall x, holds (k x)) \/ holds (Vis e k)
  end.

(** A batch of coroutines, with a bound on the steps they still take and
    the number of permits they hold. *)
Inductive batch_inv : list task -> nat -> Z -> Prop :=
| batch_nil : batch_inv [] O 0
| batch_cons (t : task) (ts : list task) (n N : nat) (H : Z) :
    well_shaped t -> depth_le n (code t) -> batch_inv ts N H ->
    batch_inv (t :: ts) (n + N) (held t + H).

Definition is_ok (o : result query_result) : Prop := exists r, o = Ok r.

(** A client with room for two queries at a time, an outside where slots
    are free and every query is answered with an empty payload, and an
    order of steps. *)
Definition two_at_a_time : AsyncOverpassClient := {| max_concurrent := 2 |}.

Definition calm (i : nat) : env := free_env (fun _ => empty_payload).

Definition some_order : list nat :=
  [3; 1; 4; 1; 5; 9; 2; 6; 5; 3; 5; 8; 9; 7; 9; 3; 2; 3; 8; 4; 6; 2; 6; 4]%nat.

End Reference.

(* ===================================================================== *)
(** * Further reference quantities and sample inputs                      *)
(* ===================================================================== *)

Module MoreReference.

Import OsmInput OsmClient Reference.

(** The lines every template shares: the area statement and the
    parenthesised main part, each on its own indented line. *)
Definition body_lines (area main : string) : string :=
  nl ++ pad12 ++ area ++ nl ++ pad12 ++ "(" ++ nl ++ pad16 ++ main ++
  nl ++ pad12 ++ ");".

(** Four floats and their texts, for a bounding box around Berlin. *)
Definition f52_5 : spec_float := S754_finite false 7388718138654720 (-47).
Definition f13_0 : spec_float := S754_finite false 7318349394477056 (-49).
Definition f53_0 : spec_float := S754_finite false 7459086882832384 (-47).
Definition f14_0 : spec_float := S754_finite false 7881299347898368 (-49).

Definition berlin_float_text (f : spec_float) : string :=
  if SFeqb f f52_5 then "52.5"
  else if SFeqb f f13_0 then "13.0"
  else if SFeqb f f53_0 then "53.0"
  else if SFeqb f f14_0 then "14.0"
  else "0.0".

(** A query with a bounding box and an area name, asking for raw JSON. *)
Definition boxed : OverpassQuery :=
  {| area_name := Some "Berlin";
     tags := [("highway", PyBool true)];
     bbox := Some [f52_5; f13_0; f53_0; f14_0];
     element_types := ["way"]; timeout := 25;
     output := "json"; csv_fields := None; parse_geometry := false;
     server := "https://overpass-api.de/api/interpreter";
     max_retries := 3; retry_delay := 10 |}.

(** A query for a table of names. *)
Definition table : OverpassQuery :=
  {| area_name := Some "Berlin";
     tags := [("amenity", PyStr "cafe")];
     bbox := None;
     element_types := ["node"]; timeout := 40;
     output := "csv"; csv_fields := Some ["::id"; "name"]; parse_geometry := false;
     server := "https://overpass-api.de/api/interpreter";
     max_retries := 3; retry_delay := 10 |}.

(** [marker] occurs somewhere in [text]. *)
Definition occurs (marker text : string) : Prop :=
  exists a b, text = a ++ marker ++ b.

(** A status endpoint with a free slot at the third poll only. *)
Definition third_time_lucky : env :=
  {| status_reply := fun n =>
       match n with
       | 2%nat => Response 200 "1 slots available now." (Opaque false)
       | _ => Response 200 "Rate limit: 2" (Opaque false)
       end;
     query_reply := fun _ => ConnectionFailure |}.

(** A query sent to a server whose address has no [/interpreter] in it. *)
Definition elsewhere : OverpassQuery :=
  {| area_name := Some "Berlin";
     tags := [("amenity", PyStr "cafe")];
     bbox := None;
     element_types := ["node"]; timeout := 25;
     output := "json"; csv_fields := None; parse_geometry := true;
     server := "https://example.org/overpass";
     max_retries := 3; retry_delay := 10 |}.

(** A payload whose [elements] is the list [els]. *)
Definition has_elements (osm_json : pyval) (els : list pyval) : Prop :=
  exists d, osm_json = PyDict d /\ dict_get "elements" d = Some (PyList els).

Definition is_dict (v : pyval) : Prop := exists d, v = PyDict d.

(** The frame made of the rows of a list of elements: no elements give
    the empty frame; elements that leave no row give no frame, as
    geopandas finds no geometry column in an empty list of records. *)
Definition frame_of (els : list pyval) (rows : list record)
  : result (list record) :=
  match els, rows with
  | _ :: _, [] => Raise ValueError
  | _, _ => Ok rows
  end.

(** Coordinates, however nested, all of whose components are numbers
    (finite or not). *)
Inductive number_tree : pyval -> Prop :=
| number_leaf (v : pyval) : json_number v -> number_tree v
| number_seq (l : list pyval) :
    (forall x, In x l -> number_tree x) -> number_tree (PyList l)
| number_tuple (l : list pyval) :
    (forall x, In x l -> number_tree x) -> number_tree (PyTuple l).

Definition node_of (id : Z) (lon lat : pyval) (tags : dict pyval) : pyval :=
  PyDict [("type", PyStr "node"); ("id", PyInt id);
          ("lat", lat); ("lon", lon); ("tags", PyDict tags)].

Definition cafe : pyval :=
  node_of 21 (PyFloat f13_0) (PyFloat f52_5)
    [("amenity", PyStr "cafe"); ("name", PyStr "Anna")].

Definition lost_node : pyval :=
  node_of 22 (PyFloat S754_nan) (PyFloat f52_5) [("amenity", PyStr "cafe")].

Definition a_relation : pyval :=
  PyDict [("type", PyStr "relation"); ("id", PyInt 5);
          ("members", PyList [])].

(** A payload as the service sends it, around the given elements. *)
Definition payload (els : list pyval) : pyval :=
  PyDict [("version", PyStr "0.6"); ("generator", PyStr "Overpass API");
          ("elements", PyList els)].

(** A program all of whose events pass the test [P]. *)
Fixpoint only_events {A : Type} (P : event -> bool) (p : prog A) : Prop :=
  match p with
  | Ret _ => True
  | Vis e k => P e = true /\ forall x, only_events P (k x)
  end.

Definition query_or_sleep (e : event) : bool := is_query e || is_sleep e.

(** A reply other than a response with status 200. *)
Definition not_ok (r : http_reply) : Prop :=
  match r with
  | Response status _ _ => status <> 200
  | ConnectionFailure => True
  end.

(** Every reply after which [_run_query] sleeps and tries again: one
    other than a response with status 200, or a 200 whose body is asked
    for as JSON and refused by aiohttp for its content type. *)
Definition passed_over (q : OverpassQuery) (r : http_reply) : Prop :=
  match r with
  | Response status _ b =>
      status <> 200 \/ (asks_json q = true /\ aiohttp_json b = Raise ClientError)
  | ConnectionFailure => True
  end.

(** [hospitals] with a negative [retry_delay]. *)
Definition hurried : OverpassQuery :=
  {| area_name := Some "Berlin";
     tags := [("amenity", PyStr "hospital|clinic")];
     bbox := None; element_types := ["node"; "way"]; timeout := 25;
     output := "json"; csv_fields := None; parse_geometry := true;
     server := "https://overpass-api.de/api/interpreter";
     max_retries := 3; retry_delay := -1 |}.

(** The world with one more event on record. *)
Definition and_then (w : world) (e : event) : world :=
  {| status_calls := status_calls w; query_calls := query_calls w;
     trace := trace w ++ [e] |}.

(** The permits held by the coroutines of a batch. *)
Fixpoint holders (ts : list task) : Z :=
  match ts with
  | [] => 0
  | t :: ts' => held t + holders ts'
  end.

(** The batch as [run_all] starts it, and the states it can come to by
    steps of its coroutines, in any order. *)
Definition start {L : Libraries} (str_float : spec_float -> string)
  (self : AsyncOverpassClient) (Es : nat -> env) (queries : list OverpassQuery)
  : system :=
  {| permits := max_concurrent self; tasks := spawn str_float Es O queries |}.

Inductive reachable (s0 : system) : system -> Prop :=
| reach_start : reachable s0 s0
| reach_step (s : system) (i : nat) :
    reachable s0 s -> reachable s0 (step_system i s).

Definition all_done (s : system) : Prop :=
  forall t, In t (tasks s) -> exists r, code t = Ret r.

Definition no_room : AsyncOverpassClient := {| max_concurrent := 0 |}.

(** The part of [_run_query] between the acquire and the release. *)
Definition inner {L : Libraries} (str_float : spec_float -> string)
  (q : OverpassQuery) : prog query_result :=
  pbind (lift (_build_query str_float q))
        (fun query => query_attempts q query (Z.to_nat (max_retries q))).

End MoreReference.


(* ===================================================================== *)
(** * Reference predicates for sanitised values                           *)
(* ===================================================================== *)

Module SanitizeReference.

Import Utils.

(** The two comprehensions of [sanitize_obj], item by item. *)
Fixpoint sanitize_each (xs : list pyval) : result (list pyval) :=
  match xs with
  | [] => Ok []
  | x :: rest =>
      let? x' := sanitize_obj x in
      let? rest' := sanitize_each rest in
      Ok (x' :: rest')
  end.

Fixpoint sanitize_items (kvs : dict pyval) : result (dict pyval) :=
  match kvs with
  | [] => Ok []
  | (k, v) :: rest =>
      let? v' := sanitize_obj v in
      let? rest' := sanitize_items rest in
      Ok ((k, v') :: rest')
  end.

(** A value in which every number is a finite float and every sequence a
    list: no [int], no [bool], no NaN, no infinity and no tuple, at any
    depth. *)
Fixpoint is_sanitized (v : pyval) : bool :=
  match v with
  | PyNone | PyStr _ => true
  | PyBool _ | PyInt _ | PyTuple _ => false
  | PyFloat f => float_is_finite f
  | PyList l =>
      (fix all (xs : list pyval) : bool :=
         match xs with
         | [] => true
         | x :: rest => is_sanitized x && all rest
         end) l
  | PyDict d =>
      (fix all (kvs : dict pyval) : bool :=
         match kvs with
         | [] => true
         | (_, x) :: rest => is_sanitized x && all rest
         end) d
  end.

(** Every [int] in the value, at any depth, converts to a double. *)
Fixpoint ints_fit (v : pyval) : bool :=
  match v with
  | PyInt z => int_fits_float z
  | PyList l | PyTuple l =>
      (fix all (xs : list pyval) : bool :=
         match xs with
         | [] => true
         | x :: rest => ints_fit x && all rest
         end) l
  | PyDict d =>
      (fix all (kvs : dict pyval) : bool :=
         match kvs with
         | [] => true
         | (_, x) :: rest => ints_fit x && all rest
         end) d
  | _ => true
  end.

(** A feature as the REST endpoint dumps it: an integer id, a type, tags
    and a GeoJSON geometry, its coordinates a tuple. *)
Definition feature (id : Z) (tags : dict pyval) (lon lat : spec_float) : pyval :=
  PyDict [("id", PyInt id); ("type", PyStr "node"); ("tags", PyDict tags);
          ("geometry", PyDict [("type", PyStr "Point");
                               ("coordinates", PyTuple [PyFloat lon; PyFloat lat])])].

(** A dump with an integer id, a NaN among the tags and a flag. *)
Definition dumped : pyval :=
  feature 21 [("name", PyStr "Anna"); ("ele", PyFloat S754_nan);
              ("fee", PyBool true)]
          (S754_finite false 7318349394477056 (-49))
          (S754_finite false 7388718138654720 (-47)).

(** The same with an integer beyond the doubles among the tags. *)
Definition oversized : pyval :=
  feature 21 [("population", PyInt (2 ^ 1024))]
          (S754_finite false 7318349394477056 (-49))
          (S754_finite false 7388718138654720 (-47)).

(** A pair of finite floats as a tuple, and as a list. *)
Definition a_pair : pyval :=
  PyTuple [PyFloat (S754_finite false 7318349394477056 (-49));
           PyFloat (S754_finite false 7388718138654720 (-47))].

Definition a_pair_list : pyval :=
  PyList [PyFloat (S754_finite false 7318349394477056 (-49));
          PyFloat (S754_finite false 7388718138654720 (-47))].

End SanitizeReference.


(* ===================================================================== *)
(** * Integers as doubles                                                 *)
(* ===================================================================== *)

Module Doubles.

Lemma digits2_bounds (m : positive) :
  2 ^ (Z.pos (digits2_pos m) - 1) <= Z.pos m < 2 ^ Z.pos (digits2_pos m).
Proof.
  induction m as [p IH | p IH |]; cbn [digits2_pos].
  - rewrite Pos2Z.inj_succ.
    replace (Z.succ (Z.pos (digits2_pos p)) - 1) with (Z.succ (Z.pos (digits2_pos p) - 1)) by lia.
    rewrite !Z.pow_succ_r by lia. lia.
  - rewrite Pos2Z.inj_succ.
    replace (Z.succ (Z.pos (digits2_pos p)) - 1) with (Z.succ (Z.pos (digits2_pos p) - 1)) by lia.
    rewrite !Z.pow_succ_r by lia. lia.
  - cbn. lia.
Qed.

Lemma digits2_unique (m : positive) (d : Z) :
  2 ^ (d - 1) <= Z.pos m < 2 ^ d -> Z.pos (digits2_pos m) = d.
Proof.
  intros [Hlo Hhi]. pose proof (digits2_bounds m) as [Blo Bhi].
  assert (0 < d).
  { destruct (Z_lt_le_dec 0 d) as [|Hd]; [assumption|].
    destruct (Z.eq_dec d 0) as [->|]; [cbn in Hhi; lia|].
    rewrite Z.pow_neg_r in Hhi by lia. lia. }
  destruct (Z.lt_trichotomy (Z.pos (digits2_pos m)) d) as [Hlt | [Heq | Hgt]]; [|assumption|].
  - assert (2 ^ Z.pos (digits2_pos m) <= 2 ^ (d - 1)) by (apply Z.pow_le_mono_r; lia). lia.
  - assert (2 ^ d <= 2 ^ (Z.pos (digits2_pos m) - 1)) by (apply Z.pow_le_mono_r; lia). lia.
Qed.

Lemma iter_xO_val (m k : positive) :
  Z.pos (Pos.iter xO m k) = Z.pos m * 2 ^ Z.pos k.
Proof.
  induction k as [|k IH] using Pos.peano_ind.
  - cbn. lia.
  - rewrite Pos.iter_succ, Pos2Z.inj_succ, Z.pow_succ_r by lia.
    rewrite Pos2Z.inj_xO, IH. lia.
Qed.

Lemma iter_pos_nat {A} (f : A -> A) (p : positive) (x : A) :
  iter_pos f p x = Nat.iter (Pos.to_nat p) f x.
Proof.
  revert x. induction p as [p IH | p IH |]; intro x; cbn [iter_pos].
  - rewrite !IH, Pos2Nat.inj_xI.
    replace (S (2 * Pos.to_nat p)) with (Pos.to_nat p + Pos.to_nat p + 1)%nat by lia.
    rewrite !Nat.iter_add. reflexivity.
  - rewrite !IH, Pos2Nat.inj_xO.
    replace (2 * Pos.to_nat p)%nat with (Pos.to_nat p + Pos.to_nat p)%nat by lia.
    rewrite Nat.iter_add. reflexivity.
  - reflexivity.
Qed.

Lemma shr_1_nonneg (m : Z) (r s : bool) :
  0 <= m ->
  shr_1 (Build_shr_record m r s) = Build_shr_record (m / 2) (Z.odd m) (r || s).
Proof.
  intro Hm. destruct m as [|[p|p|]|p]; try lia; cbn [shr_1].
  - reflexivity.
  - f_equal. rewrite Pos2Z.inj_xI.
    apply Z.div_unique with (r := 1); lia.
  - f_equal. rewrite Pos2Z.inj_xO.
    apply Z.div_unique with (r := 0); lia.
  - reflexivity.
Qed.

(** [k + 1] halvings of a mantissa: the quotient and the round bit. *)
Lemma shr_1_iter (M : Z) (k : nat) (r s : bool) :
  0 <= M ->
  let x := Nat.iter (S k) shr_1 (Build_shr_record M r s) in
  shr_m x = M / 2 ^ Z.of_nat (S k) /\
  shr_r x = Z.odd (M / 2 ^ Z.of_nat k).
Proof.
  intro HM. induction k as [|k IH].
  - cbn [Nat.iter]. rewrite shr_1_nonneg by assumption. cbn [shr_m shr_r].
    change (2 ^ Z.of_nat 1) with 2. change (2 ^ Z.of_nat 0) with 1.
    rewrite Z.div_1_r. split; reflexivity.
  - cbn zeta in *. remember (Nat.iter (S k) shr_1 (Build_shr_record M r s)) as y eqn:Hy.
    change (Nat.iter (S (S k)) shr_1 (Build_shr_record M r s))
      with (shr_1 (Nat.iter (S k) shr_1 (Build_shr_record M r s))).
    rewrite <- Hy. destruct IH as [Hm Hr]. destruct y as [m r' s']. cbn [shr_m shr_r] in *.
    assert (0 <= m) by (subst m; apply Z.div_pos; [assumption | apply Z.pow_pos_nonneg; lia]).
    rewrite shr_1_nonneg by assumption. cbn [shr_m shr_r]. split.
    + subst m. rewrite Z.div_div by (try apply Z.pow_pos_nonneg; lia).
      f_equal. rewrite (Nat2Z.inj_succ (S k)), Z.pow_succ_r by lia. lia.
    + subst m. reflexivity.
Qed.

Lemma fexp_val (e : Z) : fexp 53 1024 e = Z.max (e - 53) (-1074).
Proof. reflexivity. Qed.

(** A mantissa of exactly 53 bits is not shifted. *)
Lemma shr_fexp_53 (m : positive) (e : Z) :
  Z.pos (digits2_pos m) = 53 -> -1074 <= e ->
  shr_fexp 53 1024 (Z.pos m) e loc_Exact =
  (Build_shr_record (Z.pos m) false false, e).
Proof.
  intros Hd He. unfold shr_fexp. rewrite fexp_val. cbn [Zdigits2 shr_record_of_loc].
  rewrite Hd. replace (Z.max (53 + e - 53) (-1074) - e) with 0 by lia.
  reflexivity.
Qed.

Lemma round_aux_53 (sx : bool) (m : positive) (e : Z) :
  Z.pos (digits2_pos m) = 53 -> -1074 <= e ->
  binary_round_aux 53 1024 sx (Z.pos m) e loc_Exact =
  if e <=? 971 then S754_finite sx m e else S754_infinity sx.
Proof.
  intros Hd He. unfold binary_round_aux.
  rewrite (shr_fexp_53 m e Hd He). cbn [shr_m loc_of_shr_record round_nearest_even].
  rewrite (shr_fexp_53 m e Hd He). cbn [shr_m].
  reflexivity.
Qed.

(** Fewer than 53 bits: the mantissa is shifted up, nothing is lost. *)
Lemma binary_round_small (sx : bool) (mx : positive) :
  Z.pos (digits2_pos mx) < 53 ->
  exists k : positive,
    Z.pos k = 53 - Z.pos (digits2_pos mx) /\
    binary_round 53 1024 sx mx 0 = S754_finite sx (Pos.iter xO mx k) (- Z.pos k).
Proof.
  intro Hd. unfold binary_round, shl_align. rewrite fexp_val.
  replace (Z.max (Z.pos (digits2_pos mx) + 0 - 53) (-1074)) with (Z.pos (digits2_pos mx) - 53) by lia.
  destruct (Z.pos (digits2_pos mx) - 53 - 0) as [|p|k] eqn:Hk; try lia.
  exists k. split; [lia|].
  assert (Hd' : Z.pos (digits2_pos (Pos.iter xO mx k)) = 53).
  { apply digits2_unique. rewrite iter_xO_val.
    pose proof (digits2_bounds mx) as [Blo Bhi].
    assert (E1 : 2 ^ (53 - 1) = 2 ^ (Z.pos (digits2_pos mx) - 1) * 2 ^ Z.pos k)
      by (rewrite <- Z.pow_add_r by lia; f_equal; lia).
    assert (E2 : 2 ^ 53 = 2 ^ Z.pos (digits2_pos mx) * 2 ^ Z.pos k)
      by (rewrite <- Z.pow_add_r by lia; f_equal; lia).
    rewrite E1, E2.
    assert (0 < 2 ^ Z.pos k) by (apply Z.pow_pos_nonneg; lia).
    split; [apply Z.mul_le_mono_nonneg_r | apply Z.mul_lt_mono_pos_r]; lia. }
  rewrite round_aux_53 by (try assumption; lia).
  replace (Z.pos (digits2_pos mx) - 53) with (- Z.pos k) by lia.
  destruct (- Z.pos k <=? 971) eqn:E; [reflexivity | apply Z.leb_gt in E; lia].
Qed.

Lemma binary_round_53 (sx : bool) (mx : positive) :
  Z.pos (digits2_pos mx) = 53 ->
  binary_round 53 1024 sx mx 0 = S754_finite sx mx 0.
Proof.
  intro Hd. unfold binary_round, shl_align. rewrite fexp_val, Hd.
  change (Z.max (53 + 0 - 53) (-1074) - 0) with 0.
  cbv iota beta.
  rewrite round_aux_53 by (try assumption; lia). reflexivity.
Qed.

Lemma rne_cases (m : Z) (r s : bool) :
  let m' := round_nearest_even m (loc_of_shr_record (Build_shr_record m r s)) in
  (m' = m \/ (m' = m + 1 /\ r = true)) /\
  (r = true -> Z.odd m = true -> m' = m + 1).
Proof.
  destruct r, s; cbn [loc_of_shr_record round_nearest_even]; cbv zeta.
  - split; [right; split; reflexivity | reflexivity].
  - rewrite <- Z.negb_odd. split.
    + destruct (Z.odd m); cbn [negb]; [right; split; reflexivity | left; reflexivity].
    + intros _ ->. reflexivity.
  - split; [left; reflexivity | discriminate].
  - split; [left; reflexivity | discriminate].
Qed.

Lemma shr_fexp_carry (e : Z) :
  -1074 <= e ->
  shr_fexp 53 1024 (2 ^ 53) e loc_Exact =
  (Build_shr_record (2 ^ 52) false false, e + 1).
Proof.
  intro He. unfold shr_fexp. rewrite fexp_val.
  change (Zdigits2 (2 ^ 53)) with 54.
  replace (Z.max (54 + e - 53) (-1074) - e) with 1 by lia.
  reflexivity.
Qed.

(** More than 53 bits: the mantissa is cut to 53 bits and rounded; the
    one case in which rounding carries into a 54th bit is a mantissa whose
    first 54 bits are all ones. *)
Lemma binary_round_large (sx : bool) (mx : positive) :
  let d := Z.pos (digits2_pos mx) in
  53 < d ->
  float_is_finite (binary_round 53 1024 sx mx 0) =
  if Z.pos mx / 2 ^ (d - 54) =? 2 ^ 54 - 1 then d - 52 <=? 971 else d - 53 <=? 971.
Proof.
  intros d Hd. pose proof (digits2_bounds mx) as [Blo Bhi]. fold d in Blo, Bhi.
  unfold binary_round, shl_align. rewrite fexp_val. fold d.
  replace (Z.max (d + 0 - 53) (-1074)) with (d - 53) by lia.
  destruct (d - 53 - 0) as [|p|p] eqn:Hp; try lia.
  unfold binary_round_aux. unfold shr_fexp at 1. rewrite fexp_val.
  cbn [Zdigits2 shr_record_of_loc]. fold d.
  replace (Z.max (d + 0 - 53) (-1074) - 0) with (Z.pos p) by lia.
  unfold shr. rewrite iter_pos_nat.
  destruct (Pos2Nat.is_succ p) as [k Hk]. rewrite Hk.
  pose proof (shr_1_iter (Z.pos mx) k false false ltac:(lia)) as Hit. cbv zeta in Hit.
  destruct (Nat.iter (S k) shr_1 (Build_shr_record (Z.pos mx) false false)) as [m' r' s'].
  cbn [shr_m shr_r] in *. destruct Hit as [Hm Hr].
  assert (Hn : Z.of_nat (S k) = d - 53) by lia.
  assert (Hn' : Z.of_nat k = d - 54) by lia.
  rewrite Hn in Hm. rewrite Hn' in Hr.
  set (q := Z.pos mx / 2 ^ (d - 54)) in *.
  assert (Hq : 2 ^ 53 <= q < 2 ^ 54).
  { assert (0 < 2 ^ (d - 54)) by (apply Z.pow_pos_nonneg; lia).
    assert (E1 : 2 ^ (d - 1) = 2 ^ 53 * 2 ^ (d - 54))
      by (rewrite <- Z.pow_add_r by lia; f_equal; lia).
    assert (E2 : 2 ^ d = 2 ^ 54 * 2 ^ (d - 54))
      by (rewrite <- Z.pow_add_r by lia; f_equal; lia).
    split.
    - apply Z.div_le_lower_bound; [assumption|]. rewrite Z.mul_comm. lia.
    - apply Z.div_lt_upper_bound; [assumption|]. rewrite Z.mul_comm. lia. }
  assert (Hm' : m' = q / 2).
  { rewrite Hm. unfold q. rewrite Z.div_div by (try apply Z.pow_pos_nonneg; lia).
    f_equal. replace (d - 53) with (Z.succ (d - 54)) by lia.
    rewrite Z.pow_succ_r by lia. lia. }
  pose proof (rne_cases m' r' s') as [Hcase Hup]. cbv zeta in Hcase, Hup.
  set (m2 := round_nearest_even m' (loc_of_shr_record (Build_shr_record m' r' s'))) in *.
  assert (Hqr : q = 2 * m' + (if r' then 1 else 0)).
  { rewrite Hr, Hm'. pose proof (Z.div_mod q 2 ltac:(lia)) as Hdm.
    rewrite Zmod_odd in Hdm. destruct (Z.odd q); lia. }
  replace (0 + Z.pos p) with (d - 53) by lia.
  destruct (q =? 2 ^ 54 - 1) eqn:Eq.
  - apply Z.eqb_eq in Eq.
    assert (r' = true) by (destruct r'; [reflexivity | lia]).
    clear Hr. subst r'. cbv iota in Hqr.
    assert (Hm1 : m' = 2 ^ 53 - 1) by lia.
    assert (Hodd : Z.odd m' = true) by (rewrite Hm1; reflexivity).
    rewrite (Hup eq_refl Hodd).
    replace (m' + 1) with (2 ^ 53) by lia.
    rewrite shr_fexp_carry by lia. cbn [shr_m].
    change (2 ^ 52) with (Z.pos (Z.to_pos (2 ^ 52))). cbv iota beta.
    replace (d - 53 + 1) with (d - 52) by lia.
    change (1024 - 53) with 971.
    destruct (d - 52 <=? 971); reflexivity.
  - apply Z.eqb_neq in Eq.
    assert (Hm2 : 2 ^ 52 <= m2 < 2 ^ 53).
    { destruct Hcase as [-> | [-> ->]]; [destruct r' |]; lia. }
    destruct m2 as [|m2|m2]; try lia.
    rewrite shr_fexp_53 by (try apply digits2_unique; lia). cbn [shr_m].
    change (1024 - 53) with 971.
    destruct (d - 53 <=? 971); reflexivity.
Qed.

Lemma pow_le_const (a b : Z) : 0 <= a <= b -> 2 ^ a <= 2 ^ b.
Proof. intro H. apply Z.pow_le_mono_r; lia. Qed.

(** Rounding an integer mantissa to a double stays finite exactly below
    [2^1024 - 2^970], the midpoint between the largest double and
    [2^1024]. *)
Lemma binary_round_finite (sx : bool) (mx : positive) :
  float_is_finite (binary_round 53 1024 sx mx 0) = (Z.pos mx <? 2 ^ 1024 - 2 ^ 970).
Proof.
  pose proof (digits2_bounds mx) as [Blo Bhi].
  set (d := Z.pos (digits2_pos mx)) in *.
  assert (Hd0 : 0 < d) by (unfold d; lia).
  assert (C1 : 2 ^ 1023 < 2 ^ 1024 - 2 ^ 970) by (vm_compute; reflexivity).
  destruct (Z.lt_trichotomy d 53) as [Hlt | [Heq | Hgt]].
  - destruct (binary_round_small sx mx Hlt) as [k [_ ->]]. cbn [float_is_finite].
    symmetry. apply Z.ltb_lt.
    pose proof (pow_le_const d 1023 ltac:(lia)). lia.
  - rewrite (binary_round_53 sx mx Heq). cbn [float_is_finite].
    symmetry. apply Z.ltb_lt.
    pose proof (pow_le_const d 1023 ltac:(lia)). lia.
  - rewrite (binary_round_large sx mx Hgt). fold d.
    destruct (Z.lt_trichotomy d 1024) as [Hd | [Hd | Hd]].
    + replace (d - 52 <=? 971) with true by (symmetry; apply Z.leb_le; lia).
      replace (d - 53 <=? 971) with true by (symmetry; apply Z.leb_le; lia).
      pose proof (pow_le_const d 1023 ltac:(lia)).
      replace (Z.pos mx <? 2 ^ 1024 - 2 ^ 970) with true by (symmetry; apply Z.ltb_lt; lia).
      destruct (_ =? _); reflexivity.
    + rewrite Hd in *.
      change (1024 - 52 <=? 971) with false. change (1024 - 53 <=? 971) with true.
      change (1024 - 54) with 970.
      assert (HP : 0 < 2 ^ 970) by (apply Z.pow_pos_nonneg; lia).
      assert (E : 2 ^ 1024 - 2 ^ 970 = (2 ^ 54 - 1) * 2 ^ 970) by (vm_compute; reflexivity).
      rewrite E.
      destruct (Z.pos mx / 2 ^ 970 =? 2 ^ 54 - 1) eqn:Eq.
      * apply Z.eqb_eq in Eq. symmetry. apply Z.ltb_ge.
        rewrite <- Eq, Z.mul_comm. apply Z.mul_div_le. assumption.
      * apply Z.eqb_neq in Eq. symmetry. apply Z.ltb_lt.
        assert (Z.pos mx / 2 ^ 970 < 2 ^ 54).
        { apply Z.div_lt_upper_bound; [assumption|].
          replace (2 ^ 970 * 2 ^ 54) with (2 ^ 1024) by (vm_compute; reflexivity).
          lia. }
        assert (Hq : Z.pos mx / 2 ^ 970 + 1 <= 2 ^ 54 - 1) by lia.
        pose proof (Z.mul_succ_div_gt (Z.pos mx) (2 ^ 970) HP) as Hgt'.
        apply Z.lt_le_trans with (2 ^ 970 * Z.succ (Z.pos mx / 2 ^ 970)); [assumption|].
        rewrite Z.mul_comm. apply Z.mul_le_mono_nonneg_r; lia.
    + pose proof (pow_le_const 1024 (d - 1) ltac:(lia)).
      replace (d - 52 <=? 971) with false by (symmetry; apply Z.leb_gt; lia).
      replace (d - 53 <=? 971) with false by (symmetry; apply Z.leb_gt; lia).
      assert (0 < 2 ^ 970) by (apply Z.pow_pos_nonneg; lia).
      replace (Z.pos mx <? 2 ^ 1024 - 2 ^ 970) with false by (symmetry; apply Z.ltb_ge; lia).
      destruct (_ =? _); reflexivity.
Qed.

(** The nearest double of an integer is finite exactly when the integer
    passes [int_fits_float]. *)
Lemma nearest_double_finite (z : Z) :
  float_is_finite (binary_normalize 53 1024 z 0 false) = int_fits_float z.
Proof.
  unfold int_fits_float. destruct z as [|m|m]; cbn [binary_normalize Z.abs].
  - reflexivity.
  - apply binary_round_finite.
  - apply binary_round_finite.
Qed.

(** Below [2^53] in magnitude the nearest double is the integer itself. *)
Lemma nearest_double_exact (z : Z) :
  Z.abs z < 2 ^ 53 ->
  float_eq_int (binary_normalize 53 1024 z 0 false) z = true.
Proof.
  intro Hz. destruct z as [|m|m]; cbn [binary_normalize Z.abs] in *.
  - reflexivity.
  - pose proof (digits2_bounds m) as [Blo Bhi].
    assert (Hd : Z.pos (digits2_pos m) <= 53).
    { destruct (Z_le_gt_dec (Z.pos (digits2_pos m)) 53) as [|Hgt]; [assumption|].
      pose proof (pow_le_const 53 (Z.pos (digits2_pos m) - 1) ltac:(lia)). lia. }
    destruct (Z.eq_dec (Z.pos (digits2_pos m)) 53) as [E | NE].
    + rewrite (binary_round_53 false m E). cbn [float_eq_int].
      change (0 <=? 0) with true. cbv iota. apply Z.eqb_eq. change (2 ^ 0) with 1. lia.
    + destruct (binary_round_small false m ltac:(lia)) as [k [Hk ->]].
      cbn [float_eq_int].
      replace (0 <=? - Z.pos k) with false by (symmetry; apply Z.leb_gt; lia).
      apply Z.eqb_eq. rewrite Z.opp_involutive. apply iter_xO_val.
  - pose proof (digits2_bounds m) as [Blo Bhi].
    assert (Hd : Z.pos (digits2_pos m) <= 53).
    { destruct (Z_le_gt_dec (Z.pos (digits2_pos m)) 53) as [|Hgt]; [assumption|].
      pose proof (pow_le_const 53 (Z.pos (digits2_pos m) - 1) ltac:(lia)). lia. }
    destruct (Z.eq_dec (Z.pos (digits2_pos m)) 53) as [E | NE].
    + rewrite (binary_round_53 true m E). cbn [float_eq_int].
      change (0 <=? 0) with true. cbv iota. apply Z.eqb_eq. change (2 ^ 0) with 1. lia.
    + destruct (binary_round_small true m ltac:(lia)) as [k [Hk ->]].
      cbn [float_eq_int].
      replace (0 <=? - Z.pos k) with false by (symmetry; apply Z.leb_gt; lia).
      apply Z.eqb_eq. rewrite Z.opp_involutive.
      pose proof (iter_xO_val m k). lia.
Qed.






End Doubles.
(* ===================================================================== *)
(** * Properties                                                          *)
(* ===================================================================== *)

(** ** Strings and dictionaries *)

Module PyFacts.

Lemma append_nil_r (s : string) : s ++ "" = s.
Proof. induction s as [|c s IH]; simpl; [reflexivity | now rewrite IH]. Qed.

Lemma append_assoc (a b c : string) : (a ++ b) ++ c = a ++ (b ++ c).
Proof. induction a as [|x a IH]; simpl; [reflexivity | now rewrite IH]. Qed.

(** [startswith] is "has this prefix". *)
Lemma startswith_iff (p s : string) :
  startswith p s = true <-> exists rest, s = p ++ rest.
Proof.
  unfold startswith. revert s.
  induction p as [|c p IH]; intros s; simpl.
  - split; [intros _; now exists s | destruct s; reflexivity].
  - destruct s as [|d s]; simpl.
    + split; [discriminate | intros [r Hr]; discriminate].
    + destruct (Ascii.ascii_dec c d) as [->|Hne].
      * rewrite IH. split; intros [r Hr]; exists r; [now rewrite Hr | now inversion Hr].
      * split; [discriminate | intros [r Hr]; simpl in Hr; congruence].
Qed.

Lemma str_in_unfold (sub s : string) :
  str_in sub s =
  if String.prefix sub s then true
  else match s with
       | EmptyString => false
       | String _ s' => str_in sub s'
       end.
Proof. destruct s; reflexivity. Qed.

(** [sub in s] is "occurs somewhere in [s]". *)
Lemma str_in_iff (sub s : string) :
  str_in sub s = true <-> exists a b, s = a ++ sub ++ b.
Proof.
  induction s as [|c s IH]; rewrite str_in_unfold.
  - destruct (String.prefix sub "") eqn:Hp.
    + split; [intros _ | reflexivity].
      apply (proj1 (startswith_iff sub "")) in Hp. destruct Hp as [r Hr].
      now exists "", r.
    + split; [discriminate |]. intros (a & b & Hab).
      destruct a; [| discriminate]. simpl in Hab.
      assert (startswith sub "" = true) by (apply startswith_iff; now exists b).
      unfold startswith in *. congruence.
  - destruct (String.prefix sub (String c s)) eqn:Hp.
    + split; [intros _ | reflexivity].
      apply (proj1 (startswith_iff sub (String c s))) in Hp. destruct Hp as [r Hr].
      now exists "", r.
    + rewrite IH. split.
      * intros (a & b & ->). now exists (String c a), b.
      * intros (a & b & Hab). destruct a as [|x a]; simpl in Hab.
        -- assert (startswith sub (String c s) = true)
             by (apply startswith_iff; now exists b).
           unfold startswith in *. congruence.
        -- inversion Hab; subst. now exists a, b.
Qed.

Lemma join_empty_app (l1 l2 : list string) :
  str_join "" (l1 ++ l2) = str_join "" l1 ++ str_join "" l2.
Proof.
  unfold str_join. induction l1 as [|x l1 IH]; simpl; [reflexivity |].
  destruct l1 as [|y l1]; simpl in *.
  - destruct l2; simpl; [now rewrite append_nil_r | reflexivity].
  - rewrite IH. now rewrite append_assoc.
Qed.

Lemma dict_get_set_same {V} (k : string) (v : V) (d : dict V) :
  dict_get k (dict_set k v d) = Some v.
Proof.
  induction d as [|[k' v'] d IH]; simpl.
  - now rewrite String.eqb_refl.
  - destruct (String.eqb k k') eqn:E; simpl; rewrite E; [reflexivity | exact IH].
Qed.

Lemma dict_get_set_other {V} (k k' : string) (v : V) (d : dict V) :
  k <> k' -> dict_get k (dict_set k' v d) = dict_get k d.
Proof.
  intros Hne. induction d as [|[k0 v0] d IH]; simpl.
  - destruct (String.eqb_spec k k'); [contradiction | reflexivity].
  - destruct (String.eqb_spec k' k0) as [->|Hk]; simpl.
    + destruct (String.eqb_spec k k0); [contradiction | reflexivity].
    + destruct (String.eqb_spec k k0); [reflexivity | exact IH].
Qed.

(** After [d.update(other)] a key of [other] holds the value [other]
    gives it, any other key is as it was in [d]. *)
Lemma dict_get_update {V} (k : string) (other d : dict V) :
  dict_get k (dict_update d other) =
  match dict_get k (rev other) with
  | Some v => Some v
  | None => dict_get k d
  end.
Proof.
  unfold dict_update. revert d.
  induction other as [|[k' v'] other IH]; intros d; simpl; [reflexivity |].
  rewrite IH. clear IH.
  assert (Hrev : forall (l : dict V) k0 v0,
             dict_get k (l ++ [(k0, v0)])%list =
             match dict_get k l with
             | Some v => Some v
             | None => if String.eqb k k0 then Some v0 else None
             end).
  { induction l as [|[a b] l IHl]; intros k0 v0; simpl; [reflexivity |].
    destruct (String.eqb k a); [reflexivity | apply IHl]. }
  rewrite Hrev. destruct (dict_get k (rev other)); [reflexivity |].
  destruct (String.eqb_spec k k') as [->|Hne].
  - apply dict_get_set_same.
  - now apply dict_get_set_other.
Qed.

End PyFacts.

(** ** Tag rendering *)

Module TagRendering.

Import OsmInput PyFacts Reference.

Lemma fold_format_acc (t : dict pyval) (acc : list string) :
  fold_left (fun a kv => format_tag a (fst kv) (snd kv)) t acc =
  (acc ++ fold_left (fun a kv => format_tag a (fst kv) (snd kv)) t [])%list.
Proof.
  revert acc. induction t as [|[k v] t IH]; intros acc; simpl.
  - now rewrite app_nil_r.
  - rewrite IH. rewrite (IH (format_tag [] k v)).
    rewrite app_assoc. f_equal.
    destruct v as [| [|] | | | s | | |]; simpl;
      try reflexivity; try (now rewrite app_nil_r).
    destruct (startswith "~" s); [reflexivity |].
    destruct (str_in "|" s); reflexivity.
Qed.

Lemma format_tags_cons (k : string) (v : pyval) (t : dict pyval) :
  format_tags_of ((k, v) :: t) = str_join "" (format_tag [] k v) ++ format_tags_of t.
Proof.
  unfold format_tags_of. simpl. rewrite fold_format_acc. apply join_empty_app.
Qed.

Lemma format_tags_app (t1 t2 : dict pyval) :
  format_tags_of (t1 ++ t2)%list = format_tags_of t1 ++ format_tags_of t2.
Proof.
  induction t1 as [|[k v] t1 IH]; simpl; [reflexivity |].
  rewrite !format_tags_cons, IH. now rewrite append_assoc.
Qed.

Lemma format_tags_single (k : string) (v : pyval) :
  format_tags_of [(k, v)] = str_join "" (format_tag [] k v).
Proof. rewrite format_tags_cons. apply append_nil_r. Qed.

(** C4.  Tag rendering, entry by entry and with the cases taken in the
    order given: [True] gives [[k]]; [False] gives [[!k]]; a string that
    begins with a tilde gives [[k~"p"]], [p] being what follows the tilde,
    as it is; a string (not of that kind) in which a bar occurs gives
    [[k~"^v$"]]; any other string gives [[k="v"]].  The rendering of a
    mapping is the renderings of its entries one after the other, in the
    stored order, with nothing in between. *)
Theorem format_tags_per_entry :
  (forall self s1 s2 : OverpassQuery,
      tags self = (tags s1 ++ tags s2)%list ->
      _format_tags self = _format_tags s1 ++ _format_tags s2) /\
  (forall self, tags self = [] -> _format_tags self = "") /\
  (forall self k, tags self = [(k, PyBool true)] ->
      _format_tags self = "[" ++ k ++ "]") /\
  (forall self k, tags self = [(k, PyBool false)] ->
      _format_tags self = "[!" ++ k ++ "]") /\
  (forall self k p, tags self = [(k, PyStr ("~" ++ p))] ->
      _format_tags self = "[" ++ k ++ "~" ++ dq ++ p ++ dq ++ "]") /\
  (forall self k v, tags self = [(k, PyStr v)] ->
      (forall p, v <> "~" ++ p) -> (exists a b, v = a ++ "|" ++ b) ->
      _format_tags self = "[" ++ k ++ "~" ++ dq ++ "^" ++ v ++ "$" ++ dq ++ "]") /\
  (forall self k v, tags self = [(k, PyStr v)] ->
      (forall p, v <> "~" ++ p) -> (forall a b, v <> a ++ "|" ++ b) ->
      _format_tags self = "[" ++ k ++ "=" ++ dq ++ v ++ dq ++ "]").
Proof.
  unfold _format_tags. repeat split.
  - intros self s1 s2 ->. apply format_tags_app.
  - intros self ->. reflexivity.
  - intros self k ->. reflexivity.
  - intros self k ->. reflexivity.
  - intros self k p ->. rewrite format_tags_single.
    assert (Ht : startswith "~" ("~" ++ p) = true)
      by (apply startswith_iff; now exists p).
    unfold format_tag. now rewrite Ht.
  - intros self k v -> Hno Hbar. rewrite format_tags_single. simpl.
    destruct (startswith "~" v) eqn:Ht.
    + apply startswith_iff in Ht. destruct Ht as [r ->]. now elim (Hno r).
    + apply str_in_iff in Hbar. now rewrite Hbar.
  - intros self k v -> Hno Hnobar. rewrite format_tags_single. simpl.
    destruct (startswith "~" v) eqn:Ht.
    + apply startswith_iff in Ht. destruct Ht as [r ->]. now elim (Hno r).
    + destruct (str_in "|" v) eqn:Hb; [| reflexivity].
      apply str_in_iff in Hb. destruct Hb as (a & b & ->). now elim (Hnobar a b).
Qed.

Lemma format_tags_per_entry_witness :
  _format_tags hospitals = "[amenity~" ++ dq ++ "^hospital|clinic$" ++ dq ++ "]".
Proof.
  destruct format_tags_per_entry as (_ & _ & _ & _ & _ & Hbar & _).
  apply (Hbar hospitals "amenity" "hospital|clinic").
  - reflexivity.
  - intros p Hp. discriminate Hp.
  - exists "hospital", "clinic". reflexivity.
Defined.

(** C10.  An entry whose value is neither a boolean nor a string (an
    integer, [None], ...) adds nothing to the rendered text: the mapping
    renders as it does without that entry. *)
Theorem format_tags_skips_other_values
  (self without : OverpassQuery) (k : string) (v : pyval)
  (t1 t2 : dict pyval) :
  (forall b, v <> PyBool b) ->
  (forall s, v <> PyStr s) ->
  tags self = (t1 ++ (k, v) :: t2)%list ->
  tags without = (t1 ++ t2)%list ->
  _format_tags self = _format_tags without.
Proof.
  intros Hb Hs Hself Hwithout. unfold _format_tags.
  rewrite Hself, Hwithout, !format_tags_app, format_tags_cons.
  destruct v as [| b | | | s | | |]; try reflexivity.
  - now elim (Hb b).
  - now elim (Hs s).
Qed.

Lemma format_tags_skips_other_values_witness :
  _format_tags with_level = _format_tags without_level /\
  _format_tags with_level = "[amenity=" ++ dq ++ "cafe" ++ dq ++ "][name]".
Proof.
  split; [| reflexivity].
  apply (format_tags_skips_other_values with_level without_level
           "level" (PyInt 3) [("amenity", PyStr "cafe")] [("name", PyBool true)]).
  - intros b H. discriminate H.
  - intros s H. discriminate H.
  - reflexivity.
  - reflexivity.
Defined.

End TagRendering.

(** ** Running programs *)

Module ExecFacts.

Lemma exec_bind {A B} (E : env) (m : prog A) (f : A -> prog B) (w : world) :
  exec E (pbind m f) w =
  match exec E m w with
  | (Ok a, w') => exec E (f a) w'
  | (Raise e, w') => (Raise e, w')
  end.
Proof.
  revert w. induction m as [[a|e]|e k IH]; intros w; simpl; try reflexivity.
  destruct (handle E w e) as [x w']. apply IH.
Qed.

(** Running a program only ever adds to the trace and to the counters. *)
Lemma exec_extends {A} (E : env) (p : prog A) (w : world) :
  exists evs, trace (snd (exec E p w)) = (trace w ++ evs)%list.
Proof.
  revert w. induction p as [r|e k IH]; intros w; simpl.
  - exists []. now rewrite app_nil_r.
  - destruct (handle E w e) as [x w'] eqn:Hh.
    destruct (IH x w') as [evs Hevs]. rewrite Hevs.
    assert (Hw : trace w' = (trace w ++ [e])%list)
      by (destruct e; simpl in Hh; inversion Hh; reflexivity).
    exists (e :: evs). rewrite Hw, <- app_assoc. reflexivity.
Qed.

End ExecFacts.

(** ** Waiting for a slot *)

Module SlotGate.

Import OsmInput Reference ExecFacts.

Lemma wait_loop_unfold (self : OverpassQuery) (max_wait waited : Z) :
  wait_loop self max_wait waited =
  if Z_lt_dec waited max_wait then
    Vis (StatusGet (status_url self)) (fun r =>
      if truthy (availability r) then ret tt
      else Vis (Sleep 5) (fun _ => wait_loop self max_wait (waited + 5)))
  else raise TimeoutError.
Proof.
  rewrite wait_loop_equation_1.
  destruct (Z_lt_dec waited max_wait); reflexivity.
Qed.

(** One turn of the loop, run. *)
Lemma exec_wait_loop (E : env) (self : OverpassQuery) (max_wait waited : Z)
  (w : world) :
  exec E (wait_loop self max_wait waited) w =
  if Z_lt_dec waited max_wait then
    if truthy (availability (status_reply E (status_calls w)))
    then (Ok tt, after_polls w 1 [StatusGet (status_url self)])
    else exec E (wait_loop self max_wait (waited + 5))
           (after_polls w 1 [StatusGet (status_url self); Sleep 5])
  else (Raise TimeoutError, w).
Proof.
  rewrite wait_loop_unfold at 1.
  destruct (Z_lt_dec waited max_wait); [| reflexivity].
  cbn [exec handle].
  destruct (truthy (availability (status_reply E (status_calls w)))).
  - unfold after_polls. cbn. now rewrite Nat.add_1_r.
  - cbn [exec handle]. unfold after_polls. cbn.
    now rewrite Nat.add_1_r, <- app_assoc.
Qed.

Lemma polls_needed_zero (d : Z) : polls_needed d = O <-> d <= 0.
Proof.
  unfold polls_needed. split; intros H.
  - assert ((d + 4) / 5 <= 0) by lia.
    Z.to_euclidean_division_equations. lia.
  - assert ((d + 4) / 5 <= 0) by (Z.to_euclidean_division_equations; lia).
    lia.
Qed.

Lemma polls_needed_succ (d : Z) (n : nat) :
  polls_needed d = S n -> 0 < d /\ polls_needed (d - 5) = n.
Proof.
  unfold polls_needed. intros H.
  assert (H1 : (d + 4) / 5 = Z.of_nat (S n)) by lia.
  assert (H2 : (d - 5 + 4) / 5 = Z.of_nat n)
    by (Z.to_euclidean_division_equations; lia).
  split; [Z.to_euclidean_division_equations; lia | lia].
Qed.

Lemma after_polls_twice (w : world) (a b : nat) (e1 e2 : list event) :
  after_polls (after_polls w a e1) b e2 = after_polls w (a + b) (e1 ++ e2).
Proof.
  unfold after_polls. cbn. now rewrite Nat.add_assoc, app_assoc.
Qed.

(** With no slot ever free the loop polls [polls_needed] times, sleeping
    after each poll, and then times out. *)
Lemma wait_loop_times_out (E : env) (self : OverpassQuery) (max_wait : Z) :
  never_available E ->
  forall (n : nat) (waited : Z) (w : world),
    polls_needed (max_wait - waited) = n ->
    exec E (wait_loop self max_wait waited) w =
    (Raise TimeoutError, after_polls w n (poll_rounds (status_url self) n)).
Proof.
  intros Hbusy. induction n as [|n IH]; intros waited w Hn.
  - rewrite exec_wait_loop. apply polls_needed_zero in Hn.
    destruct (Z_lt_dec waited max_wait); [lia |].
    unfold after_polls. cbn. rewrite Nat.add_0_r, app_nil_r. now destruct w.
  - rewrite exec_wait_loop. apply polls_needed_succ in Hn. destruct Hn as [Hpos Hn].
    destruct (Z_lt_dec waited max_wait); [| lia].
    rewrite Hbusy.
    rewrite (IH (waited + 5)) by (rewrite <- Hn; f_equal; lia).
    now rewrite after_polls_twice.
Qed.

(** With a slot first free at poll [i], and [i] polls fitting into the
    wait, the loop returns right after that poll. *)
Lemma wait_loop_returns (E : env) (self : OverpassQuery) (max_wait : Z) :
  forall (i : nat) (waited : Z) (w : world),
    (forall j, (j < i)%nat ->
               truthy (availability (status_reply E (status_calls w + j))) = false) ->
    truthy (availability (status_reply E (status_calls w + i))) = true ->
    waited + 5 * Z.of_nat i < max_wait ->
    exec E (wait_loop self max_wait waited) w =
    (Ok tt, after_polls w (S i)
              (poll_rounds (status_url self) i ++ [StatusGet (status_url self)])).
Proof.
  induction i as [|i IH]; intros waited w Hbusy Hfree Hfits.
  - rewrite exec_wait_loop. destruct (Z_lt_dec waited max_wait); [| lia].
    rewrite Nat.add_0_r in Hfree. now rewrite Hfree.
  - rewrite exec_wait_loop. destruct (Z_lt_dec waited max_wait); [| lia].
    specialize (Hbusy O (Nat.lt_0_succ i)) as H0. rewrite Nat.add_0_r in H0.
    rewrite H0. rewrite (IH (waited + 5)).
    + now rewrite after_polls_twice.
    + intros j Hj. cbn. rewrite <- Nat.add_assoc. apply Hbusy. cbn. lia.
    + cbn. rewrite <- Nat.add_assoc. exact Hfree.
    + lia.
Qed.

Lemma slept_poll_rounds (url : string) (n : nat) :
  slept (poll_rounds url n) = 5 * Z.of_nat n.
Proof. induction n as [|n IH]; [reflexivity |]. cbn [poll_rounds slept]. lia. Qed.

(** The loop makes no query request, whatever the status endpoint says. *)
Lemma wait_loop_no_query (E : env) (self : OverpassQuery) (max_wait : Z) :
  forall (n : nat) (waited : Z) (w : world),
    polls_needed (max_wait - waited) = n ->
    query_calls (snd (exec E (wait_loop self max_wait waited) w)) = query_calls w.
Proof.
  induction n as [|n IH]; intros waited w Hn; rewrite exec_wait_loop.
  - apply polls_needed_zero in Hn.
    destruct (Z_lt_dec waited max_wait); [lia | reflexivity].
  - apply polls_needed_succ in Hn. destruct Hn as [Hpos Hn].
    destruct (Z_lt_dec waited max_wait); [| reflexivity].
    destruct (truthy _); [reflexivity |].
    rewrite (IH (waited + 5)) by (rewrite <- Hn; f_equal; lia).
    reflexivity.
Qed.

(** A wait with a positive [max_wait] starts with a status request. *)
Lemma wait_for_slot_polls_first (E : env) (self : OverpassQuery) (max_wait : Z) :
  0 < max_wait ->
  exists rest,
    trace (snd (exec E (_wait_for_slot self max_wait) world0)) =
    StatusGet (status_url self) :: rest.
Proof.
  intros Hpos. unfold _wait_for_slot. rewrite exec_wait_loop.
  destruct (Z_lt_dec 0 max_wait); [| lia].
  destruct (truthy _).
  - now exists [].
  - destruct (exec_extends E (wait_loop self max_wait (0 + 5))
                (after_polls world0 1 [StatusGet (status_url self); Sleep 5]))
      as [evs Hevs].
    rewrite Hevs. cbn. now exists (Sleep 5 :: evs).
Qed.

(** C5, as the code has it.  With a status endpoint that never reports a
    free slot, the wait makes one poll per 5 seconds of [max_wait] begun,
    sleeps 5 seconds after each, and then fails with [TimeoutError].  With
    a [max_wait] that is zero or negative that is at once: no poll, no
    sleep.  With a positive [max_wait] it is never before [max_wait]
    seconds have been slept and less than 5 seconds after, exactly at
    [max_wait] when that is a multiple of 5.  With a free slot first seen
    at poll [i], [i] polls fitting into the wait, it returns right after
    that poll, without a further sleep. *)
Theorem wait_for_slot_outcomes (E : env) (self : OverpassQuery) (max_wait : Z) :
  (never_available E ->
   let out := exec E (_wait_for_slot self max_wait) world0 in
   fst out = Raise TimeoutError /\
   trace (snd out) = poll_rounds (status_url self) (polls_needed max_wait) /\
   slept (trace (snd out)) = 5 * Z.of_nat (polls_needed max_wait) /\
   max_wait <= slept (trace (snd out)) /\
   (0 < max_wait -> slept (trace (snd out)) < max_wait + 5) /\
   (0 <= max_wait -> max_wait mod 5 = 0 -> slept (trace (snd out)) = max_wait) /\
   (max_wait <= 0 ->
    snd out = world0 /\ slept (trace (snd out)) = 0)) /\
  (forall i : nat,
      first_available_at E i ->
      5 * Z.of_nat i < max_wait ->
      exec E (_wait_for_slot self max_wait) world0 =
      (Ok tt, after_polls world0 (S i)
                (poll_rounds (status_url self) i ++ [StatusGet (status_url self)]))).
Proof.
  split.
  - intros Hbusy. cbv zeta. unfold _wait_for_slot.
    rewrite (wait_loop_times_out E self max_wait Hbusy (polls_needed max_wait) 0 world0)
      by (f_equal; lia).
    cbn [fst snd after_polls trace world0 app].
    rewrite slept_poll_rounds.
    repeat split; try reflexivity.
    + unfold polls_needed. Z.to_euclidean_division_equations. lia.
    + intros Hpos. unfold polls_needed. Z.to_euclidean_division_equations. lia.
    + intros Hnn Hmod. unfold polls_needed.
      assert (H5 : 5 * ((max_wait + 4) / 5) = max_wait)
        by (Z.to_euclidean_division_equations; lia).
      lia.
    + apply polls_needed_zero in H. rewrite H. reflexivity.
    + apply polls_needed_zero in H. rewrite H. reflexivity.
  - intros i [Hbusy Hfree] Hfits. unfold _wait_for_slot.
    apply wait_loop_returns; [exact Hbusy | exact Hfree | lia].
Qed.

Lemma busy_env_never_available : never_available busy_env.
Proof. intros n. reflexivity. Qed.

Lemma wait_for_slot_outcomes_witness :
  slept (trace (snd (exec busy_env (_wait_for_slot hospitals 60) world0))) = 60 /\
  exec (free_env (fun _ => ConnectionFailure)) (_wait_for_slot hospitals 60) world0 =
  (Ok tt, after_polls world0 1 [StatusGet (status_url hospitals)]).
Proof.
  destruct (wait_for_slot_outcomes busy_env hospitals 60) as [Hbusy _].
  destruct (wait_for_slot_outcomes (free_env (fun _ => ConnectionFailure)) hospitals 60)
    as [_ Hfree].
  split.
  - apply (Hbusy busy_env_never_available); [lia | reflexivity].
  - apply (Hfree O).
    + split; [intros j Hj; inversion Hj | reflexivity].
    + reflexivity.
Defined.

(** C5 as stated fails: with [max_wait = 7] and no slot ever free the
    wait ends after 10 seconds of sleep, not at 7. *)
Lemma wait_for_slot_overshoots :
  never_available busy_env /\
  fst (exec busy_env (_wait_for_slot hospitals 7) world0) = Raise TimeoutError /\
  slept (trace (snd (exec busy_env (_wait_for_slot hospitals 7) world0))) = 10 /\
  slept (trace (snd (exec busy_env (_wait_for_slot hospitals 7) world0))) <> 7.
Proof.
  split; [exact busy_env_never_available |].
  split; [vm_compute; reflexivity |].
  split; [vm_compute; reflexivity |].
  vm_compute. discriminate.
Qed.

End SlotGate.

(** ** Query text *)

Module QueryText.

Import OsmInput OsmClient Reference PyFacts ExecFacts SlotGate.

Lemma rstrip_app_space (a ws : string) :
  rstrip ws = "" -> rstrip (a ++ ws) = rstrip a.
Proof.
  intros Hws. induction a as [|c a IH]; simpl; [exact Hws | now rewrite IH].
Qed.

Lemma rstrip_app_keep (a b : string) :
  rstrip b <> "" -> rstrip (a ++ b) = a ++ rstrip b.
Proof.
  intros Hb. induction a as [|c a IH]; simpl; [reflexivity |].
  rewrite IH. destruct (a ++ rstrip b) eqn:Hab; [| reflexivity].
  destruct a; simpl in Hab; [contradiction | discriminate].
Qed.

(** What [strip] leaves of a template: the text between the leading line
    break and indentation and the trailing ones. *)
Lemma strip_template (c : ascii) (body last : string) :
  is_space c = false ->
  rstrip last = last -> last <> "" ->
  strip (nl ++ pad12 ++ String c (body ++ last ++ nl ++ pad12)) =
  String c (body ++ last).
Proof.
  intros Hc Hlast Hne. unfold strip.
  assert (Hl : lstrip (nl ++ pad12 ++ String c (body ++ last ++ nl ++ pad12)) =
               String c (body ++ last ++ nl ++ pad12))
    by (cbn; now rewrite Hc).
  rewrite Hl.
  change (String c (body ++ last ++ nl ++ pad12))
    with (String c EmptyString ++ (body ++ last ++ nl ++ pad12)).
  rewrite <- !append_assoc.
  rewrite !rstrip_app_space by reflexivity.
  rewrite rstrip_app_keep by (now rewrite Hlast).
  now rewrite Hlast, append_assoc.
Qed.

Lemma strip_template_of (c : ascii) (body last text : string) :
  is_space c = false ->
  rstrip last = last -> last <> "" ->
  text = nl ++ pad12 ++ String c (body ++ last ++ nl ++ pad12) ->
  strip text = String c (body ++ last).
Proof. intros Hc Hl Hne ->. now apply strip_template. Qed.

Section WithFloatText.

Context {L : Libraries}.
Variable str_float : spec_float -> string.

Lemma build_main_query_no_location (self : OverpassQuery) :
  bbox_given self = false -> area_name_given self = false ->
  _build_main_query str_float self = Raise ValueError.
Proof.
  unfold bbox_given, _build_main_query. intros Hb Ha.
  destruct (bbox self) as [[|c cs]|]; try discriminate; now rewrite Ha.
Qed.

Lemma build_query_no_location (self : OverpassQuery) :
  bbox_given self = false -> area_name_given self = false ->
  _build_query str_float self = Raise ValueError.
Proof.
  intros Hb Ha. unfold _build_query.
  now rewrite build_main_query_no_location.
Qed.

(** The statement that selects the named administrative area. *)
Lemma build_area_query_named (self : OverpassQuery) (a : string) :
  area_name self = Some a -> a <> "" ->
  _build_area_query self = "area[name=" ++ dq ++ a ++ dq ++ "][admin_level];".
Proof.
  intros Ha Hne. unfold _build_area_query. rewrite Ha.
  destruct (String.eqb_spec a ""); [contradiction | reflexivity].
Qed.

(** In each of the three templates the area statement stands on the line
    before the parenthesised main part. *)
Lemma build_query_layout (self : OverpassQuery) (main : string) :
  _build_main_query str_float self = Ok main ->
  exists head tail,
    _build_query str_float self =
    Ok (head ++ nl ++ pad12 ++ _build_area_query self ++
        nl ++ pad12 ++ "(" ++ nl ++ pad16 ++ main ++ nl ++ pad12 ++ ");" ++ tail).
Proof.
  intros Hmain. unfold _build_query. rewrite Hmain. cbn [bind].
  set (area := _build_area_query self).
  destruct (String.eqb (output self) "csv" && csv_fields_given self).
  - set (hdr := str_join "," _).
    exists ("[out:csv(" ++ hdr ++ ")][timeout:" ++ str_int (timeout self) ++ "];"),
           (nl ++ pad12 ++ "out center;").
    f_equal.
    rewrite (strip_template_of "["%char
      ("out:csv(" ++ hdr ++ ")][timeout:" ++ str_int (timeout self) ++ "];" ++
       nl ++ pad12 ++ area ++ nl ++ pad12 ++ "(" ++ nl ++ pad16 ++ main ++
       nl ++ pad12 ++ ");" ++ nl ++ pad12) "out center;");
      [ | reflexivity | reflexivity | discriminate | ];
      rewrite !append_assoc; reflexivity.
  - destruct (String.eqb (output self) "json" && parse_geometry self).
    + exists ("[out:json][timeout:" ++ str_int (timeout self) ++ "];"),
             (nl ++ pad12 ++ "out geom;").
      f_equal.
      rewrite (strip_template_of "["%char
        ("out:json][timeout:" ++ str_int (timeout self) ++ "];" ++
         nl ++ pad12 ++ area ++ nl ++ pad12 ++ "(" ++ nl ++ pad16 ++ main ++
         nl ++ pad12 ++ ");" ++ nl ++ pad12) "out geom;");
      [ | reflexivity | reflexivity | discriminate | ];
      rewrite !append_assoc; reflexivity.
    + exists ("[out:" ++ output self ++ "][timeout:" ++ str_int (timeout self) ++ "];"),
             (nl ++ pad12 ++ "out body;" ++ nl ++ pad12 ++ ">;" ++
              nl ++ pad12 ++ "out skel qt;").
      f_equal.
      rewrite (strip_template_of "["%char
        ("out:" ++ output self ++ "][timeout:" ++ str_int (timeout self) ++ "];" ++
         nl ++ pad12 ++ area ++ nl ++ pad12 ++ "(" ++ nl ++ pad16 ++ main ++
         nl ++ pad12 ++ ");" ++ nl ++ pad12 ++ "out body;" ++ nl ++ pad12 ++ ">;" ++
         nl ++ pad12) "out skel qt;");
      [ | reflexivity | reflexivity | discriminate | ];
      rewrite !append_assoc; reflexivity.
Qed.

(** [run] with a query text that cannot be built: the slot wait runs
    first, and its way out decides. *)
Lemma run_no_location (E : env) (self : OverpassQuery) :
  bbox_given self = false -> area_name_given self = false ->
  exec E (run str_float self) world0 =
  match exec E (_wait_for_slot self 60) world0 with
  | (Ok _, w) => (Raise ValueError, w)
  | (Raise e, w) => (Raise e, w)
  end.
Proof.
  intros Hb Ha. unfold run. rewrite exec_bind.
  destruct (exec E (_wait_for_slot self 60) world0) as [[u|e] w]; [| reflexivity].
  now rewrite build_query_no_location.
Qed.

Lemma run_query_no_location (E : env) (self : OverpassQuery) :
  bbox_given self = false -> area_name_given self = false ->
  exec E (_run_query str_float self) world0 =
  (Raise ValueError,
   {| status_calls := 0; query_calls := 0; trace := [Acquire; Release] |}).
Proof.
  intros Hb Ha. unfold _run_query.
  now rewrite build_query_no_location.
Qed.

(** C8, as the code has it.  Without a bounding box and without an area
    name, building the query text fails with [ValueError].  In
    [AsyncOverpassClient._run_query] that is before any request is made; in
    [OverpassQuery.run] the query text is built after the slot wait, so a
    status request has been made by then (and no query request).  A
    bounding box of four components renders as [(s,w,n,e)]; without one, a
    given area name renders as [(area)], and the statement selecting the
    named administrative area stands before the main part. *)
Theorem build_query_location (self : OverpassQuery) :
  (bbox_given self = false -> area_name_given self = false ->
   _build_main_query str_float self = Raise ValueError /\
   _build_query str_float self = Raise ValueError /\
   (forall E,
       fst (exec E (_run_query str_float self) world0) = Raise ValueError /\
       existsb is_network
         (trace (snd (exec E (_run_query str_float self) world0))) = false) /\
   (forall E,
       exec E (run str_float self) world0 =
       match exec E (_wait_for_slot self 60) world0 with
       | (Ok _, w) => (Raise ValueError, w)
       | (Raise e, w) => (Raise e, w)
       end /\
       query_calls (snd (exec E (run str_float self) world0)) = O /\
       exists rest,
         trace (snd (exec E (run str_float self) world0)) =
         StatusGet (status_url self) :: rest)) /\
  (forall s w n e,
      bbox self = Some [s; w; n; e] ->
      _build_main_query str_float self =
      Ok (str_join nl
            (map (fun et =>
                    et ++ _format_tags self ++
                    ("(" ++ (str_float s ++ "," ++ str_float w ++ "," ++
                             str_float n ++ "," ++ str_float e) ++ ")") ++ ";")
                 (element_types self)))) /\
  (forall a,
      bbox_given self = false -> area_name self = Some a -> a <> "" ->
      let main :=
        str_join nl
          (map (fun et => et ++ _format_tags self ++ "(area)" ++ ";")
               (element_types self)) in
      _build_main_query str_float self = Ok main /\
      exists head tail,
        _build_query str_float self =
        Ok (head ++ nl ++ pad12 ++
            ("area[name=" ++ dq ++ a ++ dq ++ "][admin_level];") ++
            nl ++ pad12 ++ "(" ++ nl ++ pad16 ++ main ++
            nl ++ pad12 ++ ");" ++ tail)).
Proof.
  split; [| split].
  - intros Hb Ha.
    split; [now apply build_main_query_no_location |].
    split; [now apply build_query_no_location |].
    split.
    + intros E. now rewrite run_query_no_location.
    + intros E. rewrite (run_no_location E self Hb Ha).
      split; [reflexivity |].
      pose proof (wait_loop_no_query E self 60 (polls_needed (60 - 0)) 0 world0
                    eq_refl) as Hq.
      destruct (wait_for_slot_polls_first E self 60 eq_refl) as [rest Hrest].
      unfold _wait_for_slot in *.
      destruct (exec E (wait_loop self 60 0) world0) as [[u|e] w];
        cbn [snd] in *; (split; [exact Hq | now exists rest]).
  - intros s w n e Hbox. unfold _build_main_query. now rewrite Hbox.
  - intros a Hb Ha Hne main.
    assert (Hmain : _build_main_query str_float self = Ok main).
    { unfold _build_main_query, bbox_given, area_name_given in *. rewrite Ha.
      destruct (bbox self) as [[|c cs]|]; try discriminate;
        destruct (String.eqb_spec a ""); try contradiction; reflexivity. }
    split; [exact Hmain |].
    destruct (build_query_layout self main Hmain) as (head & tail & Hq).
    exists head, tail. rewrite Hq.
    now rewrite (build_area_query_named self a Ha Hne).
Qed.

End WithFloatText.

Lemma build_query_location_witness :
  _build_query no_float_text nowhere = Raise ValueError /\
  _build_main_query no_float_text hospitals =
  Ok ("node[amenity~" ++ dq ++ "^hospital|clinic$" ++ dq ++ "](area);" ++ nl ++
      "way[amenity~" ++ dq ++ "^hospital|clinic$" ++ dq ++ "](area);").
Proof.
  split.
  - apply (build_query_location (L := plain) no_float_text nowhere); reflexivity.
  - apply (build_query_location (L := plain) no_float_text hospitals) with (a := "Berlin");
      [reflexivity | reflexivity | discriminate].
Defined.

(** C8 as stated fails for [run]: with a free slot at the first poll, the
    query without a location fails only after a status request has gone
    out. *)
Lemma run_fails_after_status_request :
  bbox_given nowhere = false /\
  area_name_given nowhere = false /\
  exec (free_env (fun _ => ConnectionFailure))
       (run (L := plain) no_float_text nowhere) world0 =
  (Raise ValueError,
   {| status_calls := 1; query_calls := 0;
      trace := [StatusGet "https://overpass-api.de/api/status"] |}) /\
  existsb is_network
    (trace (snd (exec (free_env (fun _ => ConnectionFailure))
                   (run (L := plain) no_float_text nowhere) world0))) = true.
Proof.
  repeat split; vm_compute; reflexivity.
Qed.

End QueryText.

(** ** The retry loops *)

Module Executor.

Import OsmInput OsmClient Reference MoreReference PyFacts ExecFacts.

Lemma after_queries_twice (w : world) (a b : nat) (e1 e2 : list event) :
  after_queries (after_queries w a e1) b e2 = after_queries w (a + b) (e1 ++ e2).
Proof.
  unfold after_queries. cbn. now rewrite Nat.add_assoc, app_assoc.
Qed.

Lemma after_queries_none (w : world) : after_queries w 0 [] = w.
Proof.
  unfold after_queries. rewrite Nat.add_0_r, app_nil_r. now destruct w.
Qed.

Lemma sleep_error_sleepable (d : Z) : sleep_error d = None <-> sleepable d.
Proof.
  unfold sleep_error, sleepable.
  destruct (d <? -9223372036) eqn:E1; destruct (9223372036 <? d) eqn:E2;
    destruct (d <? 0) eqn:E3; cbn [orb]; split; intros H;
    try discriminate; try reflexivity; lia.
Qed.

Lemma sleep_error_negative (d : Z) :
  -9223372036 <= d < 0 -> sleep_error d = Some ValueError.
Proof.
  intros H. unfold sleep_error.
  replace (d <? -9223372036) with false by lia.
  replace (9223372036 <? d) with false by lia.
  replace (d <? 0) with true by lia. reflexivity.
Qed.

Lemma sleep_error_kind (d : Z) (e : exn) :
  sleep_error d = Some e -> e = OverflowError \/ e = ValueError.
Proof.
  unfold sleep_error.
  destruct ((d <? -9223372036) || (9223372036 <? d)); [intros H; inversion H; auto |].
  destruct (d <? 0); intros H; inversion H; auto.
Qed.

(** [time.sleep], run. *)
Lemma exec_time_sleep {A} (E : env) (d : Z) (k : prog A) (w : world) :
  exec E (time_sleep d ;;; k) w =
  match sleep_error d with
  | Some e => (Raise e, w)
  | None =>
      exec E k {| status_calls := status_calls w; query_calls := query_calls w;
                  trace := trace w ++ [Sleep d] |}
  end.
Proof.
  unfold time_sleep, sleep_error.
  destruct ((d <? -9223372036) || (9223372036 <? d)); [reflexivity |].
  destruct (d <? 0); reflexivity.
Qed.

(** A [try] with its handler, run. *)
Lemma exec_try_except {A} (E : env) (body : prog A) (caught : exn -> bool)
  (handler : prog A) :
  forall w,
    exec E (try_except body caught handler) w =
    match exec E body w with
    | (Ok a, w') => (Ok a, w')
    | (Raise e, w') => if caught e then exec E handler w' else (Raise e, w')
    end.
Proof.
  induction body as [[a|e]|e k IH]; intros w; cbn [try_except exec].
  - reflexivity.
  - destruct (caught e); reflexivity.
  - destruct (handle E w e) as [x w']. apply IH.
Qed.

Section WithLibraries.

Context {L : Libraries}.

(** *** What the success branch can come to *)

Lemma decode_loop_raises (els : list pyval) :
  forall acc e, decode_loop els acc = Raise e -> e = AttributeError.
Proof.
  induction els as [|el els IH]; intros acc e H; cbn [decode_loop] in H;
    [discriminate |].
  destruct (decode_element el) as [[r|]|e'].
  - now apply IH in H.
  - now apply IH in H.
  - destruct el; cbn [get bind] in H; try (inversion H; reflexivity).
    destruct (dict_get "id" d); cbn [bind] in H; now apply IH in H.
Qed.

(** The decoder raises no exception of requests or of aiohttp. *)
Lemma json_to_geodataframe_raises (osm_json : pyval) (e : exn) :
  json_to_geodataframe osm_json = Raise e ->
  e = AttributeError \/ e = TypeError \/ e = ValueError.
Proof.
  unfold json_to_geodataframe. intros H.
  destruct (get osm_json "elements" (PyList [])) as [elements|e0] eqn:Hget;
    cbn [bind] in H.
  - destruct (negb (truthy elements)); [discriminate |].
    destruct (iter elements) as [els|e1] eqn:Hit; cbn [bind] in H.
    + destruct (decode_loop els []) as [[|r rs]|e2] eqn:Hloop; cbn [bind GeoDataFrame] in H.
      * inversion H. auto.
      * discriminate.
      * inversion H; subst. left. now apply (decode_loop_raises els [] e).
    + destruct elements; cbn [iter] in Hit; try discriminate;
        inversion Hit; subst; inversion H; auto.
  - destruct osm_json; cbn [get] in Hget; try (inversion Hget; subst; inversion H; auto).
    destruct (dict_get "elements" d); discriminate.
Qed.

Lemma read_csv_raises (text : string) (e : exn) :
  read_csv text = Raise e -> e = EmptyDataError \/ e = ParserError.
Proof.
  unfold read_csv. destruct (String.eqb text ""); [intros H; inversion H; auto |].
  destruct (csv_error text) as [[|]|]; intros H; inversion H; auto.
Qed.

(** The success branch talks to nobody: it ends at once. *)
Lemma on_success_ends (self : OverpassQuery) (text : string) (json : result pyval) :
  exists r, on_success self text json = Ret r.
Proof.
  unfold on_success.
  destruct (String.eqb (output self) "csv").
  - destruct (read_csv text); eexists; reflexivity.
  - destruct (String.eqb (output self) "json"); [| eexists; reflexivity].
    destruct json as [data|e]; [| eexists; reflexivity].
    cbn [pbind lift].
    destruct (parse_geometry self); [| eexists; reflexivity].
    destruct (json_to_geodataframe data); eexists; reflexivity.
Qed.

Lemma exec_on_success (E : env) (self : OverpassQuery) (text : string)
  (json : result pyval) (w : world) :
  exec E (on_success self text json) w =
  (fst (exec E (on_success self text json) world0), w).
Proof.
  destruct (on_success_ends self text json) as [r ->]. reflexivity.
Qed.

(** The success branch ends in an exception of the transport only when
    the body is asked for as JSON and the call for it raised it. *)
Lemma on_success_transport_error (E : env) (self : OverpassQuery) (text : string)
  (json : result pyval) (e : exn) :
  e = RequestException \/ e = ClientError ->
  fst (exec E (on_success self text json) world0) = Raise e <->
  asks_json self = true /\ json = Raise e.
Proof.
  intros He. unfold on_success, asks_json.
  destruct (String.eqb (output self) "csv"); cbn [negb andb].
  - split; [| intros [H _]; discriminate].
    destruct (read_csv text) as [frame|e'] eqn:Hcsv; cbn; intros H; [discriminate |].
    inversion H; subst. apply read_csv_raises in Hcsv.
    destruct He as [-> | ->], Hcsv; discriminate.
  - destruct (String.eqb (output self) "json"); cbn [andb].
    + destruct json as [data|e']; cbn.
      * split; [| intros [_ H]; discriminate].
        destruct (parse_geometry self); cbn; [| discriminate].
        destruct (json_to_geodataframe data) as [rows|e'] eqn:Hj; cbn;
          intros H; [discriminate |].
        inversion H; subst. apply json_to_geodataframe_raises in Hj.
        destruct He as [-> | ->], Hj as [? | [? | ?]]; discriminate.
      * split; [intros H; inversion H; auto | intros [_ H]; inversion H; reflexivity].
    + split; [discriminate | intros [H _]; discriminate].
Qed.

(** *** The loop of [run] *)

(** One turn of [run]'s loop, run.  [again] is the sleep and the turns
    that follow, or the exception of the sleep. *)
Lemma exec_run_attempts_succ (E : env) (self : OverpassQuery) (query : string)
  (n : nat) (w : world) :
  exec E (run_attempts self query (S n)) w =
  let w1 := after_queries w 1 [HttpGet (server self) query] in
  let w2 := after_queries w 1 [HttpGet (server self) query; Sleep (retry_delay self)] in
  let again :=
    match sleep_error (retry_delay self) with
    | Some e => (Raise e, w1)
    | None => exec E (run_attempts self query n) w2
    end in
  match query_reply E (query_calls w) with
  | Response code text b =>
      if code =? 200 then
        match fst (exec E (on_success self text (requests_json b)) world0) with
        | Raise RequestException => again
        | r => (r, w1)
        end
      else if retryable code then again
      else (Ok NoResult, w1)
  | ConnectionFailure => again
  end.
Proof.
  cbv zeta. cbn [run_attempts]. rewrite exec_bind. unfold attempt.
  rewrite exec_try_except. unfold trigger. cbn [pbind exec handle ret].
  assert (Hw1 : {| status_calls := status_calls w; query_calls := S (query_calls w);
                   trace := trace w ++ [HttpGet (server self) query] |} =
                after_queries w 1 [HttpGet (server self) query])
    by (unfold after_queries; now rewrite Nat.add_1_r).
  rewrite Hw1. set (w1 := after_queries w 1 [HttpGet (server self) query]).
  assert (Hagain : forall (k : unit -> prog query_result),
             exec E (time_sleep (retry_delay self) ;;; k tt) w1 =
             match sleep_error (retry_delay self) with
             | Some e => (Raise e, w1)
             | None => exec E (k tt)
                         (after_queries w 1
                            [HttpGet (server self) query; Sleep (retry_delay self)])
             end).
  { intros k. rewrite exec_time_sleep.
    destruct (sleep_error (retry_delay self)); [reflexivity |].
    f_equal. unfold w1, after_queries. cbn. now rewrite <- app_assoc. }
  assert (Hsleep : exec E (time_sleep (retry_delay self) ;;; ret (@None query_result)) w1 =
                   match sleep_error (retry_delay self) with
                   | Some e => (Raise e, w1)
                   | None => (Ok None,
                              after_queries w 1
                                [HttpGet (server self) query; Sleep (retry_delay self)])
                   end).
  { rewrite exec_time_sleep.
    destruct (sleep_error (retry_delay self)); [reflexivity |].
    cbn [ret exec]. f_equal. unfold w1, after_queries. cbn. now rewrite <- app_assoc. }
  assert (Hkind : forall e, sleep_error (retry_delay self) = Some e ->
                            is_RequestException e = false)
    by (intros e He; apply sleep_error_kind in He; destruct He as [-> | ->]; reflexivity).
  destruct (query_reply E (query_calls w)) as [code text b|].
  - destruct (code =? 200).
    + rewrite exec_bind, exec_on_success.
      destruct (fst (exec E (on_success self text (requests_json b)) world0))
        as [r|e]; [reflexivity |].
      destruct e; cbn [is_RequestException]; try reflexivity.
      rewrite Hsleep. destruct (sleep_error (retry_delay self)); reflexivity.
    + destruct (retryable code); [| reflexivity].
      rewrite Hsleep.
      destruct (sleep_error (retry_delay self)) as [e|] eqn:He; [| reflexivity].
      rewrite (Hkind e eq_refl). reflexivity.
  - cbn [raise exec is_RequestException].
    rewrite Hsleep. destruct (sleep_error (retry_delay self)); reflexivity.
Qed.

Lemma transient_retried (self : OverpassQuery) (r : http_reply) :
  transient r = true -> retried self r = true.
Proof.
  destruct r as [code text b|]; cbn; [| reflexivity].
  intros ->. reflexivity.
Qed.

(** After a reply of the kind [retried] the loop sleeps and goes on. *)
Lemma exec_run_attempts_retried (E : env) (self : OverpassQuery) (query : string)
  (n : nat) (w : world) :
  retried self (query_reply E (query_calls w)) = true ->
  exec E (run_attempts self query (S n)) w =
  match sleep_error (retry_delay self) with
  | Some e => (Raise e, after_queries w 1 [HttpGet (server self) query])
  | None =>
      exec E (run_attempts self query n)
        (after_queries w 1 [HttpGet (server self) query; Sleep (retry_delay self)])
  end.
Proof.
  intros Hr. rewrite exec_run_attempts_succ. cbv zeta.
  destruct (query_reply E (query_calls w)) as [code text b|]; [| reflexivity].
  cbn [retried] in Hr. destruct (Z.eqb_spec code 200) as [-> | Hne].
  - cbn in Hr. apply andb_true_iff in Hr as [Hj Hb].
    destruct b; try discriminate. cbn [requests_json].
    assert (H : fst (exec E (on_success self text (Raise RequestException)) world0) =
                Raise RequestException)
      by (apply on_success_transport_error; auto).
    rewrite H. reflexivity.
  - rewrite orb_false_r in Hr. rewrite Hr. reflexivity.
Qed.

(** [run]: as long as the replies are of the kind [retried] the loop goes
    on, a sleep after each; [left] attempts of that kind use up the budget
    and give the "no result" value. *)
Lemma run_attempts_exhausted (E : env) (self : OverpassQuery) (query : string) :
  sleepable (retry_delay self) ->
  forall (left : nat) (w : world),
    (forall j, (j < left)%nat ->
               retried self (query_reply E (query_calls w + j)) = true) ->
    exec E (run_attempts self query left) w =
    (Ok NoResult,
     after_queries w left (retry_rounds (server self) query (retry_delay self) left)).
Proof.
  intros Hd. apply sleep_error_sleepable in Hd.
  induction left as [|n IH]; intros w Htr.
  - cbn. now rewrite after_queries_none.
  - pose proof (Htr O (Nat.lt_0_succ n)) as H0. rewrite Nat.add_0_r in H0.
    rewrite (exec_run_attempts_retried E self query n w H0), Hd.
    rewrite IH.
    + now rewrite after_queries_twice.
    + intros j Hj. cbn. rewrite <- Nat.add_assoc. apply Htr. cbn. lia.
Qed.

(** [run]: after [i] replies of the kind [retried], with budget left, a
    reply of another kind ends the loop at once, without a sleep: a 200
    goes to the success branch, any other status gives "no result".  With
    [i] zero no sleep was asked for, so its length does not matter. *)
Lemma run_attempts_decided (E : env) (self : OverpassQuery) (query : string) :
  forall (i left : nat) (w : world) (code : Z) (text : string) (b : body),
    i = O \/ sleepable (retry_delay self) ->
    (i < left)%nat ->
    (forall j, (j < i)%nat ->
               retried self (query_reply E (query_calls w + j)) = true) ->
    query_reply E (query_calls w + i) = Response code text b ->
    retried self (Response code text b) = false ->
    exec E (run_attempts self query left) w =
    let w' := after_queries w (S i)
                (retry_rounds (server self) query (retry_delay self) i ++
                 [HttpGet (server self) query]) in
    if code =? 200 then exec E (on_success self text (requests_json b)) w'
    else (Ok NoResult, w').
Proof.
  induction i as [|i IH]; intros left w code text b Hor Hlt Htr Hrep Hnr;
    destruct left as [|n]; try lia.
  - rewrite exec_run_attempts_succ. cbv zeta.
    rewrite Nat.add_0_r in Hrep. rewrite Hrep.
    cbn [retried] in Hnr. apply orb_false_iff in Hnr as [Hnr H200].
    rewrite Hnr. destruct (Z.eqb_spec code 200) as [-> | Hne]; [| reflexivity].
    rewrite (exec_on_success E self text (requests_json b) (after_queries _ _ _)).
    cbn [retry_rounds app].
    destruct (fst (exec E (on_success self text (requests_json b)) world0))
      as [r|e] eqn:Hout; [reflexivity |].
    destruct e; try reflexivity.
    apply on_success_transport_error in Hout; [| auto].
    destruct Hout as [Hj Hb]. rewrite Hj in H200. cbn in H200.
    destruct b; cbn in Hb, H200; discriminate.
  - destruct Hor as [H0 | Hd]; [discriminate H0 |].
    pose proof (proj2 (sleep_error_sleepable _) Hd) as Hd'.
    pose proof (Htr O (Nat.lt_0_succ i)) as H0. rewrite Nat.add_0_r in H0.
    rewrite (exec_run_attempts_retried E self query n w H0), Hd'.
    rewrite (IH n _ code text b); try assumption; try lia.
    + cbv zeta. now rewrite after_queries_twice.
    + now right.
    + intros j Hj. cbn. rewrite <- Nat.add_assoc. apply Htr. cbn. lia.
    + cbn. rewrite <- Nat.add_assoc. exact Hrep.
Qed.

(** [run]: with a [retry_delay] that [time.sleep] refuses, the first reply
    of the kind [retried] ends the loop with the exception of the sleep:
    it is raised in the handler, or is none that the handler catches. *)
Lemma run_attempts_sleep_refused (E : env) (self : OverpassQuery) (query : string)
  (n : nat) (w : world) (e : exn) :
  sleep_error (retry_delay self) = Some e ->
  retried self (query_reply E (query_calls w)) = true ->
  exec E (run_attempts self query (S n)) w =
  (Raise e, after_queries w 1 [HttpGet (server self) query]).
Proof.
  intros He Hr. now rewrite (exec_run_attempts_retried E self query n w Hr), He.
Qed.

(** [run] never makes more than [left] requests. *)
Lemma run_attempts_at_most (E : env) (self : OverpassQuery) (query : string) :
  forall (left : nat) (w : world),
    (query_calls (snd (exec E (run_attempts self query left) w))
     <= query_calls w + left)%nat.
Proof.
  induction left as [|n IH]; intros w; [cbn; lia |].
  rewrite exec_run_attempts_succ. cbv zeta.
  assert (Hagain :
            (query_calls
               (snd match sleep_error (retry_delay self) with
                    | Some e => (Raise e, after_queries w 1 [HttpGet (server self) query])
                    | None =>
                        exec E (run_attempts self query n)
                          (after_queries w 1
                             [HttpGet (server self) query; Sleep (retry_delay self)])
                    end) <= query_calls w + S n)%nat).
  { destruct (sleep_error (retry_delay self)); [cbn; lia |].
    eapply Nat.le_trans; [apply IH |]. cbn. lia. }
  destruct (query_reply E (query_calls w)) as [code text b|]; [| exact Hagain].
  destruct (code =? 200).
  - destruct (fst (exec E (on_success self text (requests_json b)) world0)) as [r|e];
      [cbn; lia |].
    destruct e; try (cbn; lia); exact Hagain.
  - destruct (retryable code); [exact Hagain | cbn; lia].
Qed.

(** *** The loop of [_run_query] *)

(** One turn of [_run_query]'s loop, run. *)
Lemma exec_query_attempts_succ (E : env) (q : OverpassQuery) (query : string)
  (n : nat) (w : world) :
  exec E (query_attempts q query (S n)) w =
  let w1 := after_queries w 1 [HttpGet (server q) query] in
  let w2 := after_queries w 1 [HttpGet (server q) query; Sleep (retry_delay q)] in
  match query_reply E (query_calls w) with
  | Response status text b =>
      if status =? 200 then
        match fst (exec E (on_success q text (aiohttp_json b)) world0) with
        | Raise ClientError => exec E (query_attempts q query n) w2
        | r => (r, w1)
        end
      else exec E (query_attempts q query n) w2
  | ConnectionFailure => exec E (query_attempts q query n) w2
  end.
Proof.
  cbv zeta. cbn [query_attempts]. rewrite exec_bind. unfold query_attempt.
  rewrite exec_try_except. unfold trigger. cbn [pbind exec handle ret].
  assert (Hw1 : {| status_calls := status_calls w; query_calls := S (query_calls w);
                   trace := trace w ++ [HttpGet (server q) query] |} =
                after_queries w 1 [HttpGet (server q) query])
    by (unfold after_queries; now rewrite Nat.add_1_r).
  rewrite Hw1. set (w1 := after_queries w 1 [HttpGet (server q) query]).
  assert (Hsleep : exec E (asyncio_sleep (retry_delay q) ;;; ret (@None query_result)) w1 =
                   (Ok None,
                    after_queries w 1 [HttpGet (server q) query; Sleep (retry_delay q)])).
  { unfold asyncio_sleep, trigger. cbn [pbind exec handle ret]. f_equal.
    unfold w1, after_queries. cbn. now rewrite <- app_assoc. }
  destruct (query_reply E (query_calls w)) as [status text b|].
  - destruct (status =? 200).
    + rewrite exec_bind, exec_on_success.
      destruct (fst (exec E (on_success q text (aiohttp_json b)) world0))
        as [r|e]; [reflexivity |].
      destruct e; cbn [is_ClientError]; try reflexivity.
      rewrite Hsleep. reflexivity.
    + rewrite Hsleep. reflexivity.
  - cbn [raise exec is_ClientError]. rewrite Hsleep. reflexivity.
Qed.

(** After a reply of the kind [passed_over] the loop sleeps and goes on. *)
Lemma exec_query_attempts_passed (E : env) (q : OverpassQuery) (query : string)
  (n : nat) (w : world) :
  passed_over q (query_reply E (query_calls w)) ->
  exec E (query_attempts q query (S n)) w =
  exec E (query_attempts q query n)
    (after_queries w 1 [HttpGet (server q) query; Sleep (retry_delay q)]).
Proof.
  intros Hp. rewrite exec_query_attempts_succ. cbv zeta.
  destruct (query_reply E (query_calls w)) as [status text b|]; [| reflexivity].
  cbn [passed_over] in Hp.
  destruct (Z.eqb_spec status 200) as [-> | Hne]; [| reflexivity].
  destruct Hp as [Hp | [Hj Hb]]; [contradiction |].
  assert (H : fst (exec E (on_success q text (aiohttp_json b)) world0) =
              Raise ClientError)
    by (apply on_success_transport_error; auto).
  rewrite H. reflexivity.
Qed.

(** [_run_query]'s loop: [left] replies of the kind [passed_over] use up
    the budget. *)
Lemma query_attempts_exhausted (E : env) (q : OverpassQuery) (query : string) :
  forall (left : nat) (w : world),
    (forall j, (j < left)%nat -> passed_over q (query_reply E (query_calls w + j))) ->
    exec E (query_attempts q query left) w =
    (Ok NoResult,
     after_queries w left (retry_rounds (server q) query (retry_delay q) left)).
Proof.
  induction left as [|n IH]; intros w Hno.
  - cbn. now rewrite after_queries_none.
  - pose proof (Hno O (Nat.lt_0_succ n)) as H0. rewrite Nat.add_0_r in H0.
    rewrite (exec_query_attempts_passed E q query n w H0), IH.
    + now rewrite after_queries_twice.
    + intros j Hj. cbn. rewrite <- Nat.add_assoc. apply Hno. cbn. lia.
Qed.

End WithLibraries.

(** The synchronous path on the two transports of the specification:
    [{503, 503, 200}] succeeds at the third attempt after two sleeps, and
    [{404}] gives "no result" after one attempt and no sleep. *)
Lemma run_on_sample_transports :
  exec (free_env (replies [unavailable; unavailable; empty_payload]))
       (run (L := plain) no_float_text hospitals) world0 =
  (Ok (GeoFrame []),
   {| status_calls := 1; query_calls := 3;
      trace := [StatusGet "https://overpass-api.de/api/status";
                HttpGet (server hospitals) hospitals_text; Sleep 10;
                HttpGet (server hospitals) hospitals_text; Sleep 10;
                HttpGet (server hospitals) hospitals_text] |}) /\
  exec (free_env (fun _ => not_found)) (run (L := plain) no_float_text hospitals) world0 =
  (Ok NoResult,
   {| status_calls := 1; query_calls := 1;
      trace := [StatusGet "https://overpass-api.de/api/status";
                HttpGet (server hospitals) hospitals_text] |}).
Proof. split; vm_compute; reflexivity. Qed.

Section TerminalStatus.

Context {L : Libraries}.

(** C2, on [AsyncOverpassClient._run_query].  A transport that answers 404
    every time does not end the query at the first attempt: each of the
    [max_retries = 3] attempts is made, each followed by a sleep of
    [retry_delay = 10] seconds, before "no result" comes back. *)
Theorem run_query_retries_terminal_status :
  exec (free_env (fun _ => not_found)) (_run_query no_float_text hospitals) world0 =
  (Ok NoResult,
   {| status_calls := 0; query_calls := 3;
      trace := [Acquire;
                HttpGet (server hospitals) hospitals_text; Sleep 10;
                HttpGet (server hospitals) hospitals_text; Sleep 10;
                HttpGet (server hospitals) hospitals_text; Sleep 10;
                Release] |}).
Proof. vm_compute. reflexivity. Qed.

End TerminalStatus.

End Executor.

(** ** Decoding *)

Module Decoder.

Import OsmInput Reference PyFacts Doubles.

(** Induction over values that goes through the items of a list and of a
    tuple. *)
Lemma pyval_list_ind (P : pyval -> Prop) :
  (forall v, (forall l, v <> PyList l) -> (forall l, v <> PyTuple l) -> P v) ->
  (forall l, (forall x, In x l -> P x) -> P (PyList l)) ->
  (forall l, (forall x, In x l -> P x) -> P (PyTuple l)) ->
  forall v, P v.
Proof.
  intros Hleaf Hseq Htup. fix IH 1. intros v.
  destruct v as [| b | z | f | s | l | d | l];
    try (apply Hleaf; intros l0 H0; discriminate H0).
  - apply Hseq. induction l as [|x l IHl]; intros y Hy.
    + destruct Hy.
    + destruct Hy as [<- | Hy]; [apply IH | now apply IHl].
  - apply Htup. induction l as [|x l IHl]; intros y Hy.
    + destruct Hy.
    + destruct Hy as [<- | Hy]; [apply IH | now apply IHl].
Qed.

Lemma float_is_finite_sound (f : spec_float) :
  float_is_finite f = true -> f <> S754_nan /\ forall s, f <> S754_infinity s.
Proof. destruct f; simpl; intros H; try discriminate; split; intros; discriminate. Qed.

(** A tuple is checked as the list of its items is. *)
Lemma check_coords_tuple (l : list pyval) :
  check_coords (PyTuple l) = check_coords (PyList l).
Proof. reflexivity. Qed.

Lemma check_coords_list (l : list pyval) :
  check_coords (PyList l) = Ok true ->
  forall x, In x l -> check_coords x = Ok true.
Proof.
  induction l as [|y l IH]; intros H x Hx; [destruct Hx |].
  simpl in H. destruct (check_coords y) as [[|]|e] eqn:Hy; simpl in H;
    try discriminate.
  destruct Hx as [<- | Hx]; [exact Hy | now apply IH].
Qed.

(** What [check_coords] accepts has finite components only. *)
Lemma check_coords_sound (c : pyval) :
  check_coords c = Ok true -> finite_coords c.
Proof.
  induction c as [v Hv Hv' | l IH | l IH] using pyval_list_ind.
  - intros H. apply finite_leaf.
    destruct v as [| b | z | f | s | l | d | l]; simpl in *; try discriminate;
      try exact I.
    + inversion H. now apply float_is_finite_sound.
    + now elim (Hv l).
    + now elim (Hv' l).
  - intros H. apply finite_seq. intros x Hx.
    apply IH; [exact Hx |]. now apply (check_coords_list l).
  - intros H. apply finite_tuple. intros x Hx.
    apply IH; [exact Hx |]. rewrite check_coords_tuple in H.
    now apply (check_coords_list l).
Qed.

(** *** Numbers as doubles *)

(** [float(v)] on a number that [math.isfinite] takes. *)
Lemma py_float_number {L : Libraries} (v : pyval) :
  json_number v ->
  py_float v = Ok (to_double v) /\
  float_is_finite (to_double v) = finite_b v.
Proof.
  destruct v as [| b | z | f | s | l | d | l]; cbn [json_number];
    intros H; try contradiction.
  - destruct b; split; vm_compute; reflexivity.
  - cbn [py_float to_double finite_b]. unfold float_of_int, double.
    rewrite nearest_double_finite, H. split; reflexivity.
  - split; reflexivity.
Qed.






Section WithLibraries.

Context {L : Libraries}.

(** A record that came out of [decode_element] holds, under [geometry],
    the geometry built for the element, and that one passed the check. *)
Lemma decode_element_geometry (el : pyval) (row : record) :
  decode_element el = Ok (Some row) ->
  exists g, element_geometry el = Ok (Some g) /\
            check_coords (coordinates g) = Ok true /\
            dict_get "geometry" row = Some (Geom g).
Proof.
  unfold decode_element. intros H.
  destruct (element_geometry el) as [[g|]|e]; simpl in H; try discriminate.
  destruct (check_coords (coordinates g)) as [[|]|e] eqn:Hc; simpl in H;
    try discriminate.
  destruct (get el "tags" (PyDict [])) as [tags|e]; simpl in H; try discriminate.
  destruct (getitem el "id") as [id|e]; simpl in H; try discriminate.
  destruct (mapping_items tags) as [items|e]; simpl in H; try discriminate.
  inversion H; subst. exists g.
  split; [reflexivity | split; [exact Hc | apply dict_get_set_same]].
Qed.

Lemma decode_loop_good (els : list pyval) :
  forall (acc rows : list record),
    Forall good_row acc ->
    decode_loop els acc = Ok rows ->
    Forall good_row rows.
Proof.
  induction els as [|el els IH]; intros acc rows Hacc H; simpl in H.
  - inversion H; subst. exact Hacc.
  - destruct (decode_element el) as [[row|]|e] eqn:Hel.
    + apply (IH (acc ++ [row])%list rows); [| exact H].
      apply Forall_app. split; [exact Hacc |]. constructor; [| constructor].
      destruct (decode_element_geometry el row Hel) as (g & _ & Hc & Hg).
      exists g. split; [exact Hg | now apply check_coords_sound].
    + now apply (IH acc rows).
    + destruct (get el "id" PyNone); simpl in H; [| discriminate].
      now apply (IH acc rows).
Qed.

(** The loop over elements that are dicts ends without an exception. *)
Lemma decode_loop_total (els : list pyval) :
  Forall (fun el => exists d, el = PyDict d) els ->
  forall acc, exists rows, decode_loop els acc = Ok rows.
Proof.
  induction 1 as [|el els [d ->] _ IH]; intros acc; simpl.
  - now exists acc.
  - destruct (decode_element (PyDict d)) as [[row|]|e]; try apply IH.
    simpl. destruct (dict_get "id" d); apply IH.
Qed.

(** C1.  Every row of the frame [json_to_geodataframe] returns holds a
    geometry all of whose coordinate components, nested ones included, are
    finite numbers: none is a NaN or an infinity.  A batch whose elements
    are dicts is gone through without an exception, and gives the frame
    of the rows made; only when there are elements and none of them makes
    a row is there no frame at all, but a [ValueError]. *)
Theorem decoded_geometries_finite (osm_json : pyval) :
  (forall rows,
      json_to_geodataframe osm_json = Ok rows ->
      forall row, In row rows ->
        exists g, dict_get "geometry" row = Some (Geom g) /\
                  finite_coords (coordinates g)) /\
  (forall d els,
      osm_json = PyDict d ->
      dict_get "elements" d = Some (PyList els) ->
      Forall (fun el => exists e, el = PyDict e) els ->
      exists rows,
        decode_loop els [] = Ok rows /\
        json_to_geodataframe osm_json =
        match els, rows with
        | _ :: _, [] => Raise ValueError
        | _, _ => Ok rows
        end).
Proof.
  split.
  - intros rows H row Hin. unfold json_to_geodataframe in H.
    destruct (get osm_json "elements" (PyList [])) as [elements|e]; simpl in H;
      try discriminate.
    destruct (negb (truthy elements)).
    + inversion H; subst. destruct Hin.
    + destruct (iter elements) as [els|e]; simpl in H; try discriminate.
      destruct (decode_loop els []) as [records|e] eqn:Hloop; simpl in H;
        try discriminate.
      destruct records as [|r records]; simpl in H; try discriminate.
      inversion H; subst.
      pose proof (decode_loop_good els [] _ (Forall_nil _) Hloop) as Hgood.
      rewrite Forall_forall in Hgood. now apply Hgood.
  - intros d els -> Hd Hels.
    destruct (decode_loop_total els Hels []) as [rows Hrows].
    exists rows. split; [exact Hrows |].
    unfold json_to_geodataframe. cbn [get]. rewrite Hd. cbn [bind].
    destruct els as [|el els].
    + inversion Hrows. reflexivity.
    + change (truthy (PyList (el :: els))) with true.
      cbn [negb iter bind]. rewrite Hrows. destruct rows; reflexivity.
Qed.

End WithLibraries.

Lemma decoded_geometries_finite_witness :
  json_to_geodataframe (L := plain)
    (PyDict [("elements", PyList [nan_lon_way; square])]) =
  Ok [[("id", Val (PyInt 9));
       ("geometry", Geom (linestring [(double 1, double 0); (double 1, double 1)]))];
      [("id", Val (PyInt 7));
       ("geometry", Geom (polygon [(double 0, double 0); (double 1, double 0);
                                   (double 1, double 1); (double 0, double 0)]))]] /\
  exists g,
    dict_get "geometry"
      [("id", Val (PyInt 9));
       ("geometry", Geom (linestring [(double 1, double 0); (double 1, double 1)]))] =
    Some (Geom g) /\
    finite_coords (coordinates g).
Proof.
  split; [vm_compute; reflexivity |].
  destruct (decoded_geometries_finite (L := plain)
              (PyDict [("elements", PyList [nan_lon_way; square])])) as [Hrows _].
  apply (Hrows
           [[("id", Val (PyInt 9));
             ("geometry", Geom (linestring [(double 1, double 0); (double 1, double 1)]))];
            [("id", Val (PyInt 7));
             ("geometry", Geom (polygon [(double 0, double 0); (double 1, double 0);
                                         (double 1, double 1); (double 0, double 0)]))]]).
  - vm_compute. reflexivity.
  - left. reflexivity.
Defined.

Section Rows.

Context {L : Libraries}.

(** *** The reserved keys of a row *)

Lemma dict_get_map_val (k : string) (l : dict pyval) :
  dict_get k (map (fun kv => (fst kv, Val (snd kv))) l) =
  option_map Val (dict_get k l).
Proof.
  induction l as [|[k' v] l IH]; simpl; [reflexivity |].
  destruct (String.eqb k k'); [reflexivity | exact IH].
Qed.

(** Under [id] a row holds the tag of that name if the element has one
    (the tags are written after the element id), else the element id. *)
Lemma decode_element_id (d tags : dict pyval) (id : pyval) (row : record) :
  decode_element (PyDict d) = Ok (Some row) ->
  dict_get "tags" d = Some (PyDict tags) ->
  dict_get "id" d = Some id ->
  dict_get "id" row =
  match dict_get "id" (rev tags) with
  | Some t => Some (Val t)
  | None => Some (Val id)
  end.
Proof.
  unfold decode_element. intros H Htags Hid.
  destruct (element_geometry (PyDict d)) as [[g|]|e]; simpl in H; try discriminate.
  destruct (check_coords (coordinates g)) as [[|]|e]; simpl in H; try discriminate.
  rewrite Htags, Hid in H. simpl in H. inversion H; subst.
  rewrite dict_get_set_other by discriminate.
  rewrite dict_get_update, <- map_rev, dict_get_map_val.
  destruct (dict_get "id" (rev tags)); reflexivity.
Qed.

(** C3, on the code.  For a node with the tags [id = "x"] and
    [geometry = "g"], the row holds the geometry built for the node under
    [geometry], but the tag value ["x"] under [id], not the element id 1. *)
Theorem tag_named_id_replaces_element_id :
  decode_element colliding_node =
  Ok (Some [("id", Val (PyStr "x"));
            ("geometry", Geom (point (double 13) (double 52)));
            ("name", Val (PyStr "n"))]).
Proof. vm_compute. reflexivity. Qed.

(** *** Ways *)





(** An element with a valid geometry, an id and tags that are a mapping
    (or no tags) gives a row with that geometry. *)
Lemma decode_element_row (d : dict pyval) (g : geometry) (id : pyval) :
  element_geometry (PyDict d) = Ok (Some g) ->
  check_coords (coordinates g) = Ok true ->
  dict_get "id" d = Some id ->
  (dict_get "tags" d = None \/ exists t, dict_get "tags" d = Some (PyDict t)) ->
  exists row, decode_element (PyDict d) = Ok (Some row) /\
              dict_get "geometry" row = Some (Geom g).
Proof.
  intros Hg Hc Hid Htags. unfold decode_element. rewrite Hg. cbn [bind].
  unfold is_valid_geometry. rewrite Hc. cbn [bind negb getitem get].
  rewrite Hid.
  destruct Htags as [-> | [t ->]]; cbn [bind mapping_items];
    eexists; (split; [reflexivity | apply dict_get_set_same]).
Qed.









End Rows.



Section MissingKey.

Context {L : Libraries}.

(** *** Points with a missing key *)

(** An exception in the rest of the comprehension is an exception of the
    comprehension. *)
Lemma way_coords_raise_later (p : pyval) (rest : list pyval) :
  (exists e, way_coords rest = Raise e) ->
  exists e, way_coords (p :: rest) = Raise e.
Proof.
  intros [e He]. cbn [way_coords]. rewrite He.
  destruct (getitem p "lon") as [lon|e1]; cbn [bind]; [| now eexists].
  destruct (math_isfinite lon) as [[|]|e2]; cbn [bind]; try (now eexists).
  destruct (getitem p "lat") as [lat|e3]; cbn [bind]; [| now eexists].
  destruct (math_isfinite lat) as [[|]|e4]; cbn [bind]; now eexists.
Qed.

Lemma way_coords_cons_congr (p : pyval) (xs ys : list pyval) :
  way_coords xs = way_coords ys -> way_coords (p :: xs) = way_coords (p :: ys).
Proof. intros H. cbn [way_coords]. now rewrite H. Qed.

(** A point without [lon], or with a finite [lon] and without [lat], makes
    the comprehension raise, wherever it stands. *)
Lemma way_coords_missing_key (before after : list pyval) (pd : dict pyval) :
  (dict_get "lon" pd = None \/
   exists lon, dict_get "lon" pd = Some lon /\ math_isfinite lon = Ok true /\
               dict_get "lat" pd = None) ->
  exists e, way_coords (before ++ PyDict pd :: after) = Raise e.
Proof.
  intros Hmiss. induction before as [|p before IH].
  - cbn [app way_coords getitem].
    destruct Hmiss as [-> | (lon & -> & Hfin & ->)]; cbn [bind].
    + now exists KeyError.
    + rewrite Hfin. cbn [bind]. now exists KeyError.
  - cbn [app]. now apply way_coords_raise_later.
Qed.

(** A point without [lat] whose [lon] is not finite is passed over: the
    condition does not get as far as reading [lat]. *)
Lemma way_coords_skips_point (before after : list pyval) (pd : dict pyval)
  (lon : pyval) :
  dict_get "lon" pd = Some lon -> math_isfinite lon = Ok false ->
  way_coords (before ++ PyDict pd :: after) = way_coords (before ++ after).
Proof.
  intros Hlon Hinf. induction before as [|p before IH].
  - cbn [app way_coords getitem]. rewrite Hlon. cbn [bind].
    rewrite Hinf. reflexivity.
  - cbn [app]. now apply way_coords_cons_congr.
Qed.

(** C9, as the code has it.  A way one of whose points is a dict without
    [lon], or with a finite [lon] and without [lat], is an exception of the
    comprehension: the whole element goes to the handler, no row is made of
    it, and the loop goes on with the elements that follow.  A point
    without [lat] whose [lon] is not finite raises nothing: it alone is
    filtered out. *)
Theorem way_point_missing_key (d : dict pyval) (before after : list pyval)
  (pd : dict pyval) :
  dict_get "type" d = Some (PyStr "way") ->
  dict_get "geometry" d = Some (PyList (before ++ PyDict pd :: after)) ->
  ((dict_get "lon" pd = None \/
    exists lon, dict_get "lon" pd = Some lon /\ math_isfinite lon = Ok true /\
                dict_get "lat" pd = None) ->
   (exists e, decode_element (PyDict d) = Raise e) /\
   forall rest acc, decode_loop (PyDict d :: rest) acc = decode_loop rest acc) /\
  (forall lon,
      dict_get "lon" pd = Some lon -> math_isfinite lon = Ok false ->
      way_coords (before ++ PyDict pd :: after) = way_coords (before ++ after)).
Proof.
  intros Hty Hgeom. split.
  - intros Hmiss.
    destruct (way_coords_missing_key before after pd Hmiss) as [e He].
    assert (Hel : decode_element (PyDict d) = Raise e).
    { unfold decode_element, element_geometry. cbn [getitem get].
      rewrite Hty, Hgeom. cbn [bind iter py_eq].
      change (String.eqb "way" "node") with false.
      change (String.eqb "way" "way") with true.
      cbn iota. rewrite He. reflexivity. }
    split; [now exists e |].
    intros rest acc. cbn [decode_loop]. rewrite Hel. cbn [get].
    destruct (dict_get "id" d); reflexivity.
  - intros lon Hlon Hinf. now apply (way_coords_skips_point before after pd lon).
Qed.

End MissingKey.

Lemma way_point_missing_key_witness :
  (exists e, decode_element (L := plain) no_lon_way = Raise e) /\
  decode_loop (L := plain) [no_lon_way; square] [] =
  decode_loop (L := plain) [square] [].
Proof.
  destruct (way_point_missing_key (L := plain)
              [("type", PyStr "way"); ("id", PyInt 10);
               ("geometry", PyList [pt 0 0; PyDict [("lat", PyInt 1)]; pt 1 1])]
              [pt 0 0] [pt 1 1] [("lat", PyInt 1)] eq_refl eq_refl) as [Hdrop _].
  destruct (Hdrop (or_introl eq_refl)) as [Hraise Hloop].
  split; [exact Hraise | apply Hloop].
Defined.

(** C9 as stated fails: a way with a point that has a NaN [lon] and no
    [lat] is not dropped; it is decoded from its other points. *)
Lemma nan_lon_point_is_filtered :
  decode_element (L := plain) nan_lon_way =
  Ok (Some [("id", Val (PyInt 9));
            ("geometry",
             Geom (linestring [(double 1, double 0); (double 1, double 1)]))]) /\
  json_to_geodataframe (L := plain) (PyDict [("elements", PyList [nan_lon_way])]) =
  Ok [[("id", Val (PyInt 9));
       ("geometry",
        Geom (linestring [(double 1, double 0); (double 1, double 1)]))]].
Proof. split; vm_compute; reflexivity. Qed.

End Decoder.

(** ** Batches under [gather] *)

Module Gather.

Import OsmInput OsmClient Reference ExecFacts Executor.

(** *** What a coroutine ends with does not depend on when it runs *)

Lemma step_task_outcome (p p' : Z) (t t' : task) :
  step_task p t = Some (p', t') -> task_outcome t' = task_outcome t.
Proof.
  unfold step_task, task_outcome. destruct t as [c E w]. cbn [code outside seen].
  destruct c as [r|e k]; [discriminate |]. cbn [exec].
  destruct (handle E w e) as [x w'] eqn:Hh.
  destruct e; try destruct (0 <? p); intros H; inversion H; subst; reflexivity.
Qed.

Lemma replace_nth_outcomes (ts : list task) (i : nat) (t t' : task) :
  nth_error ts i = Some t -> task_outcome t' = task_outcome t ->
  map task_outcome (replace_nth i t' ts) = map task_outcome ts.
Proof.
  revert i. induction ts as [|a ts IH]; intros [|i] Hn Ho; simpl in *;
    try discriminate.
  - inversion Hn; subst. now rewrite Ho.
  - now rewrite (IH i).
Qed.

Lemma step_system_outcomes (i : nat) (s : system) :
  map task_outcome (tasks (step_system i s)) = map task_outcome (tasks s).
Proof.
  unfold step_system. destruct (nth_error (tasks s) i) as [t|] eqn:Hn; [| reflexivity].
  destruct (step_task (permits s) t) as [[p' t']|] eqn:Hs; [| reflexivity].
  cbn [tasks]. apply (replace_nth_outcomes _ _ t); [exact Hn |].
  now apply (step_task_outcome (permits s) p').
Qed.

Lemma all_returned_outcomes (ts : list task) (rs : list query_result) :
  all_returned ts = Some rs -> map Ok rs = map task_outcome ts.
Proof.
  revert rs. induction ts as [|t ts IH]; intros rs H; simpl in H.
  - inversion H. reflexivity.
  - destruct (code t) as [[r|e]|e k] eqn:Hc; try discriminate.
    destruct (all_returned ts) as [rs'|]; [| discriminate].
    inversion H; subst. simpl. rewrite (IH rs' eq_refl).
    unfold task_outcome at 2. now rewrite Hc.
Qed.

Lemma gather_unfold (choices : list nat) (s : system) :
  gather choices s =
  match first_raised (tasks s) with
  | Some e => Raised e
  | None =>
      match all_returned (tasks s) with
      | Some rs => Returned rs
      | None =>
          match enabled_from (permits s) O (tasks s) with
          | [] => Blocked
          | i0 :: en =>
              match choices with
              | [] => Running
              | c :: choices' =>
                  gather choices'
                    (step_system
                       (nth (Nat.modulo c (List.length (i0 :: en))) (i0 :: en) i0) s)
              end
          end
      end
  end.
Proof. destruct choices; reflexivity. Qed.

(** Whatever the order of the steps, a list of results that [gather]
    returns is the list of what the coroutines end with on their own, in
    their order. *)
Lemma gather_sound (choices : list nat) :
  forall (s : system) (rs : list query_result),
    gather choices s = Returned rs ->
    map Ok rs = map task_outcome (tasks s).
Proof.
  induction choices as [|c choices IH]; intros s rs; rewrite gather_unfold;
    destruct (first_raised (tasks s)); try discriminate;
    destruct (all_returned (tasks s)) as [rs'|] eqn:Hall;
    try (intros H; inversion H; subst; now apply all_returned_outcomes);
    destruct (enabled_from (permits s) 0 (tasks s)); try discriminate.
  intros H. rewrite (IH _ rs H). apply step_system_outcomes.
Qed.

Lemma spawn_outcomes {L : Libraries} (str_float : spec_float -> string)
  (Es : nat -> env) (queries : list OverpassQuery) :
  forall i,
    map task_outcome (spawn str_float Es i queries) =
    own_outcomes str_float Es i queries.
Proof.
  induction queries as [|q qs IH]; intros i; simpl; [reflexivity |].
  now rewrite IH.
Qed.

(** *** Every order of the steps comes to the end *)

Lemma depth_le_mono {A} (p : prog A) :
  forall n m, depth_le n p -> (n <= m)%nat -> depth_le m p.
Proof.
  induction p as [r|e k IH]; intros n m H Hle; [exact I |].
  destruct n as [|n]; [contradiction |].
  destruct m as [|m]; [lia |].
  cbn in *. intros x. apply (IH x n m); [apply H | lia].
Qed.

Lemma holds_holding (t : task) : holds (code t) -> holding t = true.
Proof.
  unfold holding. destruct (code t) as [r|e k]; cbn; [contradiction |].
  intros [Hna _]. destruct e; try reflexivity. now elim Hna.
Qed.

Lemma holding_enabled (p : Z) (t : task) : holding t = true -> enabled p t = true.
Proof.
  unfold holding, enabled, step_task. destruct (code t) as [r|e k]; [discriminate |].
  destruct (handle (outside t) (seen t) e) as [x w'].
  destruct e; try discriminate; reflexivity.
Qed.

(** One step of a coroutine: it stays in shape, has one step less to go,
    and the permits it holds and the free ones add up as before. *)
Lemma step_task_inv (p p' : Z) (t t' : task) (n : nat) :
  well_shaped t -> depth_le n (code t) -> 0 <= p ->
  step_task p t = Some (p', t') ->
  well_shaped t' /\ (exists n', n = S n' /\ depth_le n' (code t')) /\
  p' + held t' = p + held t /\ 0 <= p'.
Proof.
  intros Hshape Hdepth Hp Hstep.
  destruct t as [c E w]. unfold step_task in Hstep.
  unfold well_shaped in Hshape. cbn [code outside seen] in *.
  destruct c as [r|e k]; [discriminate |].
  destruct n as [|n']; [contradiction |]. cbn [depth_le] in Hdepth.
  destruct (handle E w e) as [x w'] eqn:Hh.
  assert (Hstay : holds (k x) ->
            well_shaped {| code := k x; outside := E; seen := w' |} /\
            (exists m, S n' = S m /\
                       depth_le m (code {| code := k x; outside := E; seen := w' |})) /\
            held {| code := k x; outside := E; seen := w' |} = 1).
  { intros Hgo. split; [| split].
    - unfold well_shaped. cbn [code]. destruct (k x) as [r|e' k'] eqn:Hkx;
        [exact I | right; exact Hgo].
    - exists n'. split; [reflexivity | apply Hdepth].
    - unfold held. now rewrite holds_holding. }
  destruct Hshape as [[-> Hnext] | Hholds].
  - (* before the acquire *)
    destruct (Z.ltb_spec 0 p) as [Hpos|]; [| discriminate].
    inversion Hstep; subst.
    destruct (Hstay (Hnext x)) as (Hs & Hd & Hh1).
    split; [exact Hs |]. split; [exact Hd |].
    rewrite Hh1. unfold held, holding. cbn [code]. lia.
  - (* with the permit *)
    assert (Hheld : held {| code := Vis e k; outside := E; seen := w |} = 1)
      by (unfold held; now rewrite holds_holding).
    rewrite Hheld. cbn [holds] in Hholds.
    destruct Hholds as [Hna [[-> [r Hret]] | [Hnr Hgo]]].
    + (* the release *)
      inversion Hstep; subst.
      split; [unfold well_shaped; cbn [code]; now rewrite Hret |].
      split; [exists n'; split; [reflexivity | apply Hdepth] |].
      unfold held, holding. cbn [code]. rewrite Hret. lia.
    + (* any other event *)
      assert (Hsame : Some (p, {| code := k x; outside := E; seen := w' |}) =
                      Some (p', t'))
        by (destruct e; try exact Hstep; contradiction).
      inversion Hsame; subst.
      destruct (Hstay (Hgo x)) as (Hs & Hd & Hh1).
      split; [exact Hs |]. split; [exact Hd |]. rewrite Hh1. lia.
Qed.

Lemma batch_held_nonneg (ts : list task) (N : nat) (H : Z) :
  batch_inv ts N H -> 0 <= H.
Proof.
  induction 1 as [|t ts n N H _ _ _ IH]; [lia |].
  unfold held. destruct (holding t); lia.
Qed.

(** A step of one coroutine of a batch. *)
Lemma batch_step (ts : list task) (N : nat) (H : Z) :
  batch_inv ts N H ->
  forall (i : nat) (t t' : task) (p p' : Z),
    nth_error ts i = Some t -> 0 <= p ->
    step_task p t = Some (p', t') ->
    exists N' H', batch_inv (replace_nth i t' ts) N' H' /\
                  (N' < N)%nat /\ p' + H' = p + H /\ 0 <= p'.
Proof.
  induction 1 as [|a ts n N H Hshape Hdepth Hrest IH];
    intros i t t' p p' Hn Hp Hstep; [destruct i; discriminate |].
  destruct i as [|i]; cbn [nth_error replace_nth] in *.
  - inversion Hn; subst a.
    destruct (step_task_inv p p' t t' n Hshape Hdepth Hp Hstep)
      as (Hs & (n' & -> & Hd) & Hperm & Hp').
    exists (n' + N)%nat, (held t' + H).
    split; [now constructor |]. split; [lia |]. split; [lia | exact Hp'].
  - destruct (IH i t t' p p' Hn Hp Hstep) as (N' & H' & Hinv & Hlt & Hperm & Hp').
    exists (n + N')%nat, (held a + H').
    split; [now constructor |]. split; [lia |]. split; [lia | exact Hp'].
Qed.

(** A coroutine that holds a permit can step. *)
Lemma batch_holder_enabled (ts : list task) (N : nat) (H : Z) :
  batch_inv ts N H -> 0 < H ->
  forall p i, enabled_from p i ts <> [].
Proof.
  induction 1 as [|t ts n N H _ _ Hrest IH]; intros Hpos p i; [lia |].
  cbn [enabled_from]. unfold held in Hpos.
  destruct (holding t) eqn:Hh.
  - rewrite (holding_enabled p t Hh). discriminate.
  - destruct (enabled p t); [discriminate |]. apply IH. lia.
Qed.

(** With a free permit, a coroutine that is not done can step. *)
Lemma free_permit_enabled (p : Z) (ts : list task) :
  0 < p -> first_raised ts = None -> all_returned ts = None ->
  forall i, enabled_from p i ts <> [].
Proof.
  intros Hp. induction ts as [|t ts IH]; intros Hraised Hall i;
    cbn [first_raised all_returned enabled_from] in *; [discriminate |].
  destruct (code t) as [[r|e]|e k] eqn:Hc; try discriminate.
  - destruct (all_returned ts); [discriminate |].
    assert (Hen : enabled p t = false) by (unfold enabled, step_task; now rewrite Hc).
    rewrite Hen. now apply IH.
  - assert (Hen : enabled p t = true).
    { unfold enabled, step_task. rewrite Hc.
      destruct (handle (outside t) (seen t) e) as [x w'].
      destruct e; try reflexivity.
      destruct (Z.ltb_spec 0 p); [reflexivity | lia]. }
    rewrite Hen. discriminate.
Qed.

Lemma enabled_from_In (p : Z) (ts : list task) :
  forall i j, In j (enabled_from p i ts) ->
    exists t, nth_error ts (j - i) = Some t /\ enabled p t = true /\ (i <= j)%nat.
Proof.
  induction ts as [|t ts IH]; intros i j Hin; cbn [enabled_from] in Hin;
    [destruct Hin |].
  assert (Hlater : In j (enabled_from p (S i) ts) ->
            exists t0, nth_error (t :: ts) (j - i) = Some t0 /\
                       enabled p t0 = true /\ (i <= j)%nat).
  { intros H. destruct (IH (S i) j H) as (t0 & Hn & He & Hle).
    exists t0. replace (j - i)%nat with (S (j - S i)) by lia.
    split; [exact Hn |]. split; [exact He | lia]. }
  destruct (enabled p t) eqn:Hen; [| now apply Hlater].
  destruct Hin as [<- | Hin]; [| now apply Hlater].
  exists t. rewrite Nat.sub_diag. split; [reflexivity |]. split; [exact Hen | lia].
Qed.

(** Where no coroutine has raised, one that is not done has a step to go. *)
Lemma batch_not_done (ts : list task) (N : nat) (H : Z) :
  batch_inv ts N H -> first_raised ts = None -> all_returned ts = None ->
  (1 <= N)%nat.
Proof.
  induction 1 as [|t ts n N H _ Hdepth _ IH]; intros Hraised Hall;
    cbn [first_raised all_returned] in *; [discriminate |].
  destruct (code t) as [[r|e]|e k]; try discriminate.
  - destruct (all_returned ts); [discriminate |].
    specialize (IH Hraised eq_refl). lia.
  - destruct n as [|n]; [contradiction | lia].
Qed.

Lemma ok_not_raised (ts : list task) :
  Forall is_ok (map task_outcome ts) -> first_raised ts = None.
Proof.
  induction ts as [|t ts IH]; intros H; cbn [first_raised map] in *; [reflexivity |].
  inversion H as [|o os [r Hr] Hos]; subst.
  unfold task_outcome in Hr.
  destruct (code t) as [[r0|e]|e k]; try (now apply IH).
  cbn in Hr. discriminate.
Qed.

(** Whatever the choices, a batch in which every coroutine ends well on
    its own is brought to its end within the bound on its steps. *)
Lemma gather_total (choices : list nat) :
  forall (s : system) (N : nat) (H : Z),
    batch_inv (tasks s) N H ->
    0 <= permits s -> 1 <= permits s + H ->
    Forall is_ok (map task_outcome (tasks s)) ->
    (N <= List.length choices)%nat ->
    exists rs, gather choices s = Returned rs.
Proof.
  induction choices as [|c choices IH]; intros s N H Hinv Hp Hperm Hok Hlen;
    rewrite gather_unfold; rewrite (ok_not_raised _ Hok);
    destruct (all_returned (tasks s)) as [rs|] eqn:Hall;
    try (now exists rs);
    pose proof (batch_not_done _ _ _ Hinv (ok_not_raised _ Hok) Hall) as HN;
    cbn [List.length] in Hlen; [lia |].
  destruct (enabled_from (permits s) 0 (tasks s)) as [|i0 en] eqn:Hen.
  - exfalso. pose proof (batch_held_nonneg _ _ _ Hinv) as HH.
    destruct (Z.ltb_spec 0 (permits s)) as [Hfree|Hnone].
    + now apply (free_permit_enabled (permits s) (tasks s) Hfree
                   (ok_not_raised _ Hok) Hall O).
    + apply (batch_holder_enabled _ _ _ Hinv) with (p := permits s) (i := O);
        [lia | exact Hen].
  - set (i := nth (Nat.modulo c (List.length (i0 :: en))) (i0 :: en) i0).
    assert (Hin : In i (enabled_from (permits s) 0 (tasks s))).
    { rewrite Hen. apply nth_In. apply Nat.mod_upper_bound. discriminate. }
    destruct (enabled_from_In _ _ _ _ Hin) as (t & Hn & Het & _).
    rewrite Nat.sub_0_r in Hn.
    unfold enabled in Het.
    destruct (step_task (permits s) t) as [[p' t']|] eqn:Hstep; [| discriminate].
    destruct (batch_step _ _ _ Hinv i t t' (permits s) p' Hn Hp Hstep)
      as (N' & H' & Hinv' & Hlt & Hperm' & Hp').
    assert (Hsys : step_system i s =
                   {| permits := p'; tasks := replace_nth i t' (tasks s) |})
      by (unfold step_system; now rewrite Hn, Hstep).
    apply (IH (step_system i s) N' H').
    + now rewrite Hsys.
    + now rewrite Hsys.
    + rewrite Hsys. cbn [permits]. lia.
    + now rewrite step_system_outcomes.
    + lia.
Qed.

(** *** The coroutines of [run_all] at the start *)

Lemma pbind_sem_free {A B} (m : prog A) (f : A -> prog B) :
  sem_free m -> (forall a, sem_free (f a)) -> sem_free (pbind m f).
Proof.
  intros Hm Hf. induction m as [[a|e]|e k IH]; cbn [pbind sem_free] in *;
    [apply Hf | exact I |].
  destruct Hm as (Hna & Hnr & Hk). repeat split; try assumption.
  intros x. now apply IH.
Qed.

Lemma pbind_depth {A B} (m : prog A) (f : A -> prog B) (j : nat) :
  forall n, depth_le n m -> (forall a, depth_le j (f a)) ->
            depth_le (n + j) (pbind m f).
Proof.
  induction m as [[a|e]|e k IH]; intros n Hm Hf; cbn [pbind].
  - apply (depth_le_mono _ j); [apply Hf | lia].
  - exact I.
  - destruct n as [|n]; [contradiction |]. cbn [Nat.add depth_le] in *.
    intros x. now apply IH.
Qed.

Section Shapes.

Context {L : Libraries}.

(** One turn of the loop: a request, and a sleep where the reply makes
    for another turn. *)
Lemma query_attempt_shape (q : OverpassQuery) (query : string) :
  sem_free (query_attempt q query) /\ depth_le 2 (query_attempt q query).
Proof.
  assert (Hturn : forall resp,
             let p := try_except
                        (match resp with
                         | ConnectionFailure => raise ClientError
                         | Response status text b =>
                             if status =? 200
                             then r <- on_success q text (aiohttp_json b) ;;
                                  ret (Some r)
                             else asyncio_sleep (retry_delay q) ;;; ret None
                         end)
                        is_ClientError
                        (asyncio_sleep (retry_delay q) ;;; ret None) in
             sem_free p /\ depth_le 1 p).
  { intros [status text b|]; cbv zeta.
    - destruct (status =? 200).
      + destruct (on_success_ends q text (aiohttp_json b)) as [[r|e] ->];
          cbn [pbind try_except ret]; [split; exact I |].
        destruct (is_ClientError e); cbn;
          repeat split; try discriminate; intros; exact I.
      + cbn. repeat split; try discriminate; intros; exact I.
    - cbn. repeat split; try discriminate; intros; exact I. }
  unfold query_attempt. cbn [trigger pbind try_except sem_free depth_le ret].
  split.
  - split; [discriminate |]. split; [discriminate |].
    intros resp. apply (Hturn resp).
  - intros resp. apply (Hturn resp).
Qed.

Lemma query_attempts_shape (q : OverpassQuery) (query : string) (left : nat) :
  sem_free (query_attempts q query left) /\
  depth_le (2 * left) (query_attempts q query left).
Proof.
  induction left as [|n [IHs IHd]]; [split; exact I |].
  destruct (query_attempt_shape q query) as [Hs Hd].
  cbn [query_attempts]. split.
  - apply pbind_sem_free; [exact Hs |]. intros [x|]; [exact I | exact IHs].
  - replace (2 * S n)%nat with (2 + 2 * n)%nat by lia.
    apply pbind_depth; [exact Hd |]. intros [x|]; [exact I | exact IHd].
Qed.

End Shapes.

Lemma try_finally_shape {A} (body : prog A) :
  forall n, sem_free body -> depth_le n body ->
    holds (try_finally body Release) /\
    depth_le (S n) (try_finally body Release).
Proof.
  induction body as [r|e k IH]; intros n Hfree Hdepth.
  - cbn. split; [| intros _; exact I].
    split; [discriminate |]. left. split; [reflexivity |]. now exists r.
  - destruct n as [|n]; [contradiction |].
    cbn in Hfree, Hdepth. destruct Hfree as (Hna & Hnr & Hk).
    cbn [try_finally holds depth_le]. split.
    + split; [exact Hna |]. right. split; [exact Hnr |].
      intros x. apply (IH x n); [apply Hk | apply Hdepth].
    + intros x. apply (IH x n); [apply Hk | apply Hdepth].
Qed.

Section Batch.

Context {L : Libraries}.
Variable str_float : spec_float -> string.

Lemma run_query_shape (q : OverpassQuery) (E : env) :
  let t := {| code := _run_query str_float q; outside := E; seen := world0 |} in
  well_shaped t /\ depth_le (2 * Z.to_nat (max_retries q) + 2) (code t) /\
  held t = 0.
Proof.
  cbv zeta. unfold well_shaped, held, holding, _run_query. cbn [code].
  set (body := pbind (lift (_build_query str_float q)) _).
  assert (Hbody : sem_free body /\ depth_le (2 * Z.to_nat (max_retries q)) body).
  { unfold body, lift. destruct (_build_query str_float q) as [text|e]; cbn [pbind].
    - apply query_attempts_shape.
    - split; exact I. }
  destruct Hbody as [Hfree Hdepth].
  destruct (try_finally_shape body _ Hfree Hdepth) as [Hh Hd].
  split; [left; split; [reflexivity | intros _; exact Hh] |].
  split; [| reflexivity].
  replace (2 * Z.to_nat (max_retries q) + 2)%nat
    with (S (S (2 * Z.to_nat (max_retries q)))) by lia.
  cbn [depth_le]. intros _. exact Hd.
Qed.

Lemma spawn_batch (Es : nat -> env) (queries : list OverpassQuery) :
  forall i, batch_inv (spawn str_float Es i queries) (steps_bound queries) 0.
Proof.
  induction queries as [|q qs IH]; intros i; cbn [spawn steps_bound];
    [constructor |].
  destruct (run_query_shape q (Es i)) as (Hs & Hd & Hh).
  replace 0 with
    (held {| code := _run_query str_float q; outside := Es i; seen := world0 |} + 0)
    by (rewrite Hh; reflexivity).
  constructor; [exact Hs | exact Hd | apply IH].
Qed.

Lemma own_outcomes_length (Es : nat -> env) (queries : list OverpassQuery) :
  forall i, List.length (own_outcomes str_float Es i queries) = List.length queries.
Proof.
  induction queries as [|q qs IH]; intros i; cbn; [reflexivity | now rewrite IH].
Qed.

(** C7, as the code has it.  Whatever the order in which the coroutines
    of a batch take their steps: a list that [run_all] returns has one
    result per query, at the place of the query, and it is the result the
    query comes to on its own ("no result" included); with at least one
    permit, and every query coming to a result on its own, [run_all] does
    return such a list; and when a query ends in an exception on its own
    (a query text that cannot be built, a payload that cannot be decoded),
    [run_all] returns no list at all. *)
Theorem run_all_results (self : AsyncOverpassClient) (Es : nat -> env)
  (queries : list OverpassQuery) :
  (forall choices results,
      run_all str_float self Es choices queries = Returned results ->
      map Ok results = own_outcomes str_float Es 0 queries /\
      List.length results = List.length queries) /\
  (1 <= max_concurrent self ->
   Forall is_ok (own_outcomes str_float Es 0 queries) ->
   forall choices,
     (steps_bound queries <= List.length choices)%nat ->
     exists results,
       run_all str_float self Es choices queries = Returned results /\
       map Ok results = own_outcomes str_float Es 0 queries) /\
  (~ Forall is_ok (own_outcomes str_float Es 0 queries) ->
   forall choices results,
     run_all str_float self Es choices queries <> Returned results).
Proof.
  assert (Hsound : forall choices results,
             run_all str_float self Es choices queries = Returned results ->
             map Ok results = own_outcomes str_float Es 0 queries).
  { intros choices results H. unfold run_all in H.
    apply gather_sound in H. cbn [tasks] in H. now rewrite spawn_outcomes in H. }
  split; [| split].
  - intros choices results H. split; [now apply (Hsound choices) |].
    apply Hsound in H. apply (f_equal (@List.length _)) in H.
    now rewrite length_map, own_outcomes_length in H.
  - intros Hmc Hok choices Hlen.
    destruct (gather_total choices
                {| permits := max_concurrent self;
                   tasks := spawn str_float Es 0 queries |}
                (steps_bound queries) 0) as [rs Hrs].
    + apply spawn_batch.
    + cbn [permits]. lia.
    + cbn [permits]. lia.
    + cbn [tasks]. now rewrite spawn_outcomes.
    + exact Hlen.
    + exists rs. split; [exact Hrs | now apply (Hsound choices)].
  - intros Hbad choices results H. apply Hbad.
    rewrite <- (Hsound choices results H).
    clear. induction results as [|r rs IH]; constructor; [now exists r | exact IH].
Qed.

End Batch.

Lemma run_all_results_witness :
  run_all (L := plain) no_float_text two_at_a_time calm some_order
    [hospitals; with_level; without_level] =
  Returned [GeoFrame []; RawJson (PyDict [("elements", PyList [])]);
            RawJson (PyDict [("elements", PyList [])])].
Proof.
  destruct (run_all_results (L := plain) no_float_text two_at_a_time calm
              [hospitals; with_level; without_level]) as (_ & Htotal & _).
  destruct (Htotal ltac:(cbn; lia)
              ltac:(repeat constructor; eexists; vm_compute; reflexivity)
              some_order ltac:(cbn; lia)) as (results & Hret & Hmap).
  rewrite Hret. f_equal.
  vm_compute in Hmap.
  destruct results as [|r1 [|r2 [|r3 [|r4 rest]]]]; try discriminate Hmap.
  now inversion Hmap.
Defined.

(** C7 as stated fails: with a query that has no location in the batch,
    [run_all] raises [ValueError] and the result of the sibling, which
    would have come to a frame on its own, is not returned. *)
Lemma run_all_loses_sibling_results :
  own_outcomes (L := plain) no_float_text calm 0 [hospitals; nowhere] =
  [Ok (GeoFrame []); Raise ValueError] /\
  (forall choices results,
      run_all (L := plain) no_float_text two_at_a_time calm choices
        [hospitals; nowhere]
      <> Returned results) /\
  run_all (L := plain) no_float_text two_at_a_time calm some_order
    [hospitals; nowhere] =
  Raised ValueError.
Proof.
  split; [vm_compute; reflexivity |].
  split; [| vm_compute; reflexivity].
  intros choices results H. unfold run_all in H.
  apply gather_sound in H. cbn [tasks] in H. rewrite spawn_outcomes in H.
  destruct results as [|r1 [|r2 rest]]; vm_compute in H; discriminate H.
Qed.

End Gather.

(* ===================================================================== *)
(** * Further properties of the query text                                *)
(* ===================================================================== *)

Module Templates.

Import OsmInput Reference MoreReference PyFacts QueryText.

Section WithFloatText.

Variable str_float : spec_float -> string.

(** X1.  The three texts of [_build_query], character for character.
    With a field list and [output = "csv"]: a [csv] header naming the
    fields, closed by [out center;].  With [output = "json"] and geometry
    parsing: a [json] header, closed by [out geom;].  In every other case:
    a header naming [output] as it is, closed by [out body;], [>;] and
    [out skel qt;].  The text has no blank at either end, the lines after
    the first keep the indentation of the source, and a timeout is written
    in decimal. *)
Theorem build_query_templates (self : OverpassQuery) (main : string) :
  _build_main_query str_float self = Ok main ->
  (forall f fs,
      output self = "csv" -> csv_fields self = Some (f :: fs) ->
      _build_query str_float self =
      Ok ("[out:csv(" ++ str_join "," (f :: fs) ++ ")][timeout:" ++
          str_int (timeout self) ++ "];" ++
          body_lines (_build_area_query self) main ++
          nl ++ pad12 ++ "out center;")) /\
  (output self = "json" -> parse_geometry self = true ->
   _build_query str_float self =
   Ok ("[out:json][timeout:" ++ str_int (timeout self) ++ "];" ++
       body_lines (_build_area_query self) main ++
       nl ++ pad12 ++ "out geom;")) /\
  ((output self <> "csv" \/ csv_fields self = None \/ csv_fields self = Some []) ->
   (output self <> "json" \/ parse_geometry self = false) ->
   _build_query str_float self =
   Ok ("[out:" ++ output self ++ "][timeout:" ++ str_int (timeout self) ++ "];" ++
       body_lines (_build_area_query self) main ++
       nl ++ pad12 ++ "out body;" ++ nl ++ pad12 ++ ">;" ++
       nl ++ pad12 ++ "out skel qt;")).
Proof.
  intros Hmain. unfold _build_query, body_lines. rewrite Hmain. cbn [bind].
  set (area := _build_area_query self).
  split; [| split].
  - intros f fs Hout Hcsv. unfold csv_fields_given. rewrite Hout, Hcsv.
    cbn [String.eqb andb]. change (String.eqb "csv" "csv") with true. cbn iota.
    f_equal.
    rewrite (strip_template_of "["%char
      ("out:csv(" ++ str_join "," (f :: fs) ++ ")][timeout:" ++
       str_int (timeout self) ++ "];" ++
       nl ++ pad12 ++ area ++ nl ++ pad12 ++ "(" ++ nl ++ pad16 ++ main ++
       nl ++ pad12 ++ ");" ++ nl ++ pad12) "out center;");
      [ | reflexivity | reflexivity | discriminate | ];
      rewrite !append_assoc; reflexivity.
  - intros Hout Hgeo. unfold csv_fields_given. rewrite Hout, Hgeo.
    change (String.eqb "json" "csv") with false.
    change (String.eqb "json" "json") with true. cbn [andb]. cbn iota.
    f_equal.
    rewrite (strip_template_of "["%char
      ("out:json][timeout:" ++ str_int (timeout self) ++ "];" ++
       nl ++ pad12 ++ area ++ nl ++ pad12 ++ "(" ++ nl ++ pad16 ++ main ++
       nl ++ pad12 ++ ");" ++ nl ++ pad12) "out geom;");
      [ | reflexivity | reflexivity | discriminate | ];
      rewrite !append_assoc; reflexivity.
  - intros Hcsv Hjson.
    assert (H1 : String.eqb (output self) "csv" && csv_fields_given self = false).
    { unfold csv_fields_given.
      destruct Hcsv as [Hne | [-> | ->]];
        [| apply andb_false_r | apply andb_false_r].
      destruct (String.eqb_spec (output self) "csv"); [contradiction | reflexivity]. }
    assert (H2 : String.eqb (output self) "json" && parse_geometry self = false).
    { destruct Hjson as [Hne | ->]; [| apply andb_false_r].
      destruct (String.eqb_spec (output self) "json"); [contradiction | reflexivity]. }
    rewrite H1, H2. f_equal.
    rewrite (strip_template_of "["%char
      ("out:" ++ output self ++ "][timeout:" ++ str_int (timeout self) ++ "];" ++
       nl ++ pad12 ++ area ++ nl ++ pad12 ++ "(" ++ nl ++ pad16 ++ main ++
       nl ++ pad12 ++ ");" ++ nl ++ pad12 ++ "out body;" ++ nl ++ pad12 ++ ">;" ++
       nl ++ pad12) "out skel qt;");
      [ | reflexivity | reflexivity | discriminate | ];
      rewrite !append_assoc; reflexivity.
Qed.

(** X2.  [_build_query] gives a text exactly when a location is there: a
    bounding box that is not empty, or an area name that is not empty.
    Tags, element types, output mode and the rest never make it fail, and
    [ValueError] is the only way it fails. *)
Theorem build_query_succeeds_iff (self : OverpassQuery) :
  ((exists text, _build_query str_float self = Ok text) <->
   ((exists c cs, bbox self = Some (c :: cs)) \/
    (exists a, area_name self = Some a /\ a <> ""))) /\
  (forall e, _build_query str_float self = Raise e -> e = ValueError).
Proof.
  assert (Hmain : (exists main, _build_main_query str_float self = Ok main) \/
                  (_build_main_query str_float self = Raise ValueError /\
                   bbox_given self = false /\ area_name_given self = false)).
  { unfold _build_main_query, bbox_given.
    destruct (bbox self) as [[|c cs]|]; cbn [bind]; try (left; eexists; reflexivity);
      destruct (area_name_given self); cbn [bind];
      try (left; eexists; reflexivity); right; repeat split. }
  assert (Hloc : (bbox_given self = true \/ area_name_given self = true) <->
                 ((exists c cs, bbox self = Some (c :: cs)) \/
                  (exists a, area_name self = Some a /\ a <> ""))).
  { unfold bbox_given, area_name_given. split.
    - intros [H | H].
      + left. destruct (bbox self) as [[|c cs]|]; try discriminate. now exists c, cs.
      + right. destruct (area_name self) as [a|]; [| discriminate].
        exists a. split; [reflexivity |].
        destruct (String.eqb_spec a ""); [discriminate | assumption].
    - intros [(c & cs & ->) | (a & -> & Hne)]; [now left | right].
      destruct (String.eqb_spec a ""); [contradiction | reflexivity]. }
  split.
  - rewrite <- Hloc. split.
    + intros [text Ht]. destruct Hmain as [[main Hm] | (Hm & Hb & Ha)].
      * unfold _build_main_query, bbox_given in *.
        destruct (bbox self) as [[|c cs]|]; try (now left);
          destruct (area_name_given self); try (now right); discriminate.
      * unfold _build_query in Ht. rewrite Hm in Ht. discriminate.
    + intros Hgiven. destruct Hmain as [[main Hm] | (Hm & Hb & Ha)].
      * destruct (build_query_layout str_float self main Hm) as (h & t & Hq).
        eexists. exact Hq.
      * destruct Hgiven; congruence.
  - intros e He. destruct Hmain as [[main Hm] | (Hm & _ & _)].
    + destruct (build_query_layout str_float self main Hm) as (h & t & Hq).
      congruence.
    + unfold _build_query in He. rewrite Hm in He. cbn in He. congruence.
Qed.

(** X3.  With both a bounding box and an area name, the statements are
    filtered by the bounding box, not by [(area)], and the statement that
    selects the named area is written all the same, on the line before the
    main part. *)
Theorem bbox_wins_area_stays (self : OverpassQuery) (s w n e : spec_float)
  (a : string) :
  bbox self = Some [s; w; n; e] ->
  area_name self = Some a -> a <> "" ->
  let main :=
    str_join nl
      (map (fun et =>
              et ++ _format_tags self ++
              ("(" ++ (str_float s ++ "," ++ str_float w ++ "," ++
                       str_float n ++ "," ++ str_float e) ++ ")") ++ ";")
           (element_types self)) in
  _build_main_query str_float self = Ok main /\
  exists head tail,
    _build_query str_float self =
    Ok (head ++
        body_lines ("area[name=" ++ dq ++ a ++ dq ++ "][admin_level];") main ++
        tail).
Proof.
  intros Hbox Ha Hne main.
  assert (Hmain : _build_main_query str_float self = Ok main)
    by (unfold _build_main_query; now rewrite Hbox).
  split; [exact Hmain |].
  destruct (build_query_layout str_float self main Hmain) as (head & tail & Hq).
  exists head, tail. rewrite Hq, (build_area_query_named self a Ha Hne).
  unfold body_lines. now rewrite !append_assoc.
Qed.

End WithFloatText.

Lemma build_query_templates_witness :
  _build_query no_float_text table =
  Ok ("[out:csv(::id,name)][timeout:40];" ++ nl ++ pad12 ++
      "area[name=" ++ dq ++ "Berlin" ++ dq ++ "][admin_level];" ++ nl ++ pad12 ++
      "(" ++ nl ++ pad16 ++
      "node[amenity=" ++ dq ++ "cafe" ++ dq ++ "](area);" ++ nl ++ pad12 ++
      ");" ++ nl ++ pad12 ++ "out center;") /\
  _build_query no_float_text hospitals = Ok hospitals_text /\
  _build_query berlin_float_text boxed =
  Ok ("[out:json][timeout:25];" ++ nl ++ pad12 ++
      "area[name=" ++ dq ++ "Berlin" ++ dq ++ "][admin_level];" ++ nl ++ pad12 ++
      "(" ++ nl ++ pad16 ++
      "way[highway](52.5,13.0,53.0,14.0);" ++ nl ++ pad12 ++
      ");" ++ nl ++ pad12 ++ "out body;" ++ nl ++ pad12 ++ ">;" ++ nl ++ pad12 ++
      "out skel qt;").
Proof.
  split; [| split].
  - destruct (build_query_templates no_float_text table
                ("node[amenity=" ++ dq ++ "cafe" ++ dq ++ "](area);") eq_refl)
      as (Hcsv & _ & _).
    rewrite (Hcsv "::id" ["name"] eq_refl eq_refl). reflexivity.
  - destruct (build_query_templates no_float_text hospitals
                ("node[amenity~" ++ dq ++ "^hospital|clinic$" ++ dq ++ "](area);" ++ nl ++
                 "way[amenity~" ++ dq ++ "^hospital|clinic$" ++ dq ++ "](area);") eq_refl)
      as (_ & Hgeom & _).
    rewrite (Hgeom eq_refl eq_refl). reflexivity.
  - destruct (build_query_templates berlin_float_text boxed
                "way[highway](52.5,13.0,53.0,14.0);" eq_refl)
      as (_ & _ & Hraw).
    rewrite Hraw; [reflexivity | left; discriminate | right; reflexivity].
Defined.

Lemma build_query_succeeds_iff_witness :
  (exists text, _build_query berlin_float_text boxed = Ok text) /\
  ~ (exists text, _build_query no_float_text nowhere = Ok text).
Proof.
  destruct (build_query_succeeds_iff berlin_float_text boxed) as [[_ Hyes] _].
  destruct (build_query_succeeds_iff no_float_text nowhere) as [[Hno _] _].
  split.
  - apply Hyes. left. now exists f52_5, [f13_0; f53_0; f14_0].
  - intros H. destruct (Hno H) as [(c & cs & Hb) | (a & Ha & _)]; discriminate.
Defined.

Lemma bbox_wins_area_stays_witness :
  _build_main_query berlin_float_text boxed =
  Ok "way[highway](52.5,13.0,53.0,14.0);".
Proof.
  apply (bbox_wins_area_stays berlin_float_text boxed f52_5 f13_0 f53_0 f14_0 "Berlin");
    [reflexivity | reflexivity | discriminate].
Defined.

End Templates.

(* ===================================================================== *)
(** * Further properties of the slot polling                              *)
(* ===================================================================== *)

Module SlotGateMore.

Import OsmInput Reference MoreReference PyFacts ExecFacts SlotGate.

(** X4.  [_check_availability] takes the service as available exactly
    when the status request is answered with status 200 and a body in
    which one of the three markers occurs; any other status, any other
    body and a connection failure all count as not available. *)
Theorem availability_markers (r : http_reply) :
  truthy (availability r) = true <->
  exists text data,
    r = Response 200 text data /\
    (occurs "Slot available" text \/ occurs "available now" text \/
     occurs "slots available" text).
Proof.
  unfold occurs. split.
  - destruct r as [code text data|]; cbn [availability]; [| discriminate].
    destruct (Z.eqb_spec code 200) as [-> | Hne]; [| discriminate].
    intros H. exists text, data. split; [reflexivity |].
    destruct (str_in "Slot available" text) eqn:H1;
      [left; now apply str_in_iff |].
    destruct (str_in "available now" text) eqn:H2;
      [right; left; now apply str_in_iff |].
    destruct (str_in "slots available" text) eqn:H3;
      [right; right; now apply str_in_iff | discriminate].
  - intros (text & data & -> & H). cbn [availability Z.eqb Pos.eqb].
    destruct H as [H | [H | H]]; apply str_in_iff in H; rewrite H;
      try reflexivity.
    + now destruct (str_in "Slot available" text).
    + destruct (str_in "Slot available" text); [reflexivity |].
      now destruct (str_in "available now" text).
Qed.

Lemma availability_markers_witness :
  truthy (availability (Response 200 "3 slots available now." (Opaque false))) = true /\
  truthy (availability (Response 503 "3 slots available now." (Opaque false))) = false /\
  truthy (availability ConnectionFailure) = false.
Proof.
  split; [| split; reflexivity].
  apply (proj2 (availability_markers (Response 200 "3 slots available now." (Opaque false)))).
  exists "3 slots available now.", (Opaque false). split; [reflexivity |].
  right. left. exists "3 slots ", ".". reflexivity.
Defined.

Lemma slept_append (t1 t2 : list event) : slept (t1 ++ t2) = slept t1 + slept t2.
Proof.
  induction t1 as [|e t1 IH]; [reflexivity |].
  destruct e; cbn [app slept]; lia.
Qed.

(** What the loop does whatever the status endpoint answers. *)
Lemma wait_loop_bounded (E : env) (self : OverpassQuery) (max_wait : Z) :
  forall (n : nat) (waited : Z) (w : world),
    polls_needed (max_wait - waited) = n ->
    let out := exec E (wait_loop self max_wait waited) w in
    (status_calls w <= status_calls (snd out) <= status_calls w + n)%nat /\
    slept (trace (snd out)) <= slept (trace w) + 5 * Z.of_nat n /\
    (fst out = Ok tt ->
     exists k, status_calls (snd out) = S k /\ (status_calls w <= k)%nat /\
               truthy (availability (status_reply E k)) = true) /\
    (fst out = Ok tt \/
     (fst out = Raise TimeoutError /\
      status_calls (snd out) = (status_calls w + n)%nat /\
      forall k, (status_calls w <= k < status_calls w + n)%nat ->
                truthy (availability (status_reply E k)) = false)).
Proof.
  induction n as [|n IH]; intros waited w Hn; cbv zeta; rewrite exec_wait_loop.
  - apply polls_needed_zero in Hn.
    destruct (Z_lt_dec waited max_wait); [lia |]. cbn [fst snd].
    split; [lia |]. split; [lia |]. split; [discriminate |].
    right. split; [reflexivity |]. split; [lia | intros k Hk; lia].
  - apply polls_needed_succ in Hn. destruct Hn as [Hpos Hn].
    destruct (Z_lt_dec waited max_wait); [| lia].
    destruct (truthy (availability (status_reply E (status_calls w)))) eqn:Hav.
    + cbn [fst snd after_polls status_calls trace].
      split; [lia |]. split; [rewrite slept_append; cbn [slept]; lia |].
      split; [| now left].
      intros _. exists (status_calls w).
      split; [lia |]. split; [lia | exact Hav].
    + specialize (IH (waited + 5)
                     (after_polls w 1 [StatusGet (status_url self); Sleep 5])).
      cbv zeta in IH.
      destruct IH as (Hcalls & Hslept & Hok & Hend);
        [rewrite <- Hn; f_equal; lia |].
      cbn [after_polls status_calls trace] in Hcalls, Hslept, Hok, Hend.
      rewrite slept_append in Hslept. cbn [slept] in Hslept.
      split; [lia |]. split; [lia |]. split.
      * intros H. destruct (Hok H) as (k & Hk1 & Hk2 & Hk3).
        exists k. split; [exact Hk1 |]. split; [lia | exact Hk3].
      * destruct Hend as [Hret | (Hto & Hnum & Hnone)]; [now left | right].
        split; [exact Hto |]. split; [lia |].
        intros k Hk. destruct (Nat.eq_dec k (status_calls w)) as [-> | Hne];
          [exact Hav | apply Hnone; lia].
Qed.

(** X5.  Whatever the status endpoint answers, [_wait_for_slot] ends in
    one of two ways, returning or raising [TimeoutError]; it makes at most
    one status request per 5 seconds of [max_wait] begun, sleeps 5 seconds
    at most that often, and sends no query.  It returns only right after a
    reply that reported a free slot, and it times out only when every one
    of its polls was answered otherwise. *)
Theorem wait_for_slot_bounded (E : env) (self : OverpassQuery) (max_wait : Z) :
  let out := exec E (_wait_for_slot self max_wait) world0 in
  (status_calls (snd out) <= polls_needed max_wait)%nat /\
  slept (trace (snd out)) <= 5 * Z.of_nat (polls_needed max_wait) /\
  query_calls (snd out) = O /\
  (fst out = Ok tt ->
   exists k, status_calls (snd out) = S k /\
             truthy (availability (status_reply E k)) = true) /\
  (fst out = Ok tt \/
   (fst out = Raise TimeoutError /\
    status_calls (snd out) = polls_needed max_wait /\
    forall k, (k < polls_needed max_wait)%nat ->
              truthy (availability (status_reply E k)) = false)).
Proof.
  cbv zeta. unfold _wait_for_slot.
  pose proof (wait_loop_bounded E self max_wait (polls_needed max_wait) 0 world0) as H.
  cbv zeta in H.
  destruct H as (Hcalls & Hslept & Hok & Hend); [f_equal; lia |].
  cbn [world0 status_calls trace slept] in Hcalls, Hslept, Hok, Hend.
  split; [lia |]. split; [lia |].
  split; [apply (wait_loop_no_query E self max_wait (polls_needed (max_wait - 0)));
          reflexivity |].
  split.
  - intros H. destruct (Hok H) as (k & Hk1 & _ & Hk3). now exists k.
  - destruct Hend as [Hret | (Hto & Hnum & Hnone)]; [now left | right].
    split; [exact Hto |]. split; [exact Hnum |].
    intros k Hk. apply Hnone. lia.
Qed.

Lemma wait_for_slot_bounded_witness :
  exec third_time_lucky (_wait_for_slot hospitals 60) world0 =
  (Ok tt, after_polls world0 3
            (poll_rounds (status_url hospitals) 2 ++ [StatusGet (status_url hospitals)])) /\
  (status_calls (snd (exec third_time_lucky (_wait_for_slot hospitals 60) world0))
   <= polls_needed 60)%nat.
Proof.
  split; [vm_compute; reflexivity |].
  apply (wait_for_slot_bounded third_time_lucky hospitals 60).
Defined.

(** *** The address of the status endpoint *)

Lemma str_in_false_inv (old : string) (c : ascii) (s : string) :
  str_in old (String c s) = false ->
  String.prefix old (String c s) = false /\ str_in old s = false.
Proof.
  rewrite str_in_unfold.
  destruct (String.prefix old (String c s)); [discriminate | now split].
Qed.

Lemma replace_no_match (old new s : string) :
  str_in old s = false -> replace_from old new O s = s.
Proof.
  induction s as [|c s IH]; intros H; [reflexivity |].
  apply str_in_false_inv in H. destruct H as [Hp Hs].
  cbn [replace_from]. rewrite Hp. now rewrite IH.
Qed.

Lemma replace_skip (old new : string) :
  forall (x b : string),
    replace_from old new (String.length x) (x ++ b) = replace_from old new O b.
Proof.
  induction x as [|c x IH]; intros b; cbn [String.length append]; [| exact (IH b)].
  destruct b; reflexivity.
Qed.

(** A prefix test looks no further than the length of the prefix. *)
Lemma prefix_trunc (p : string) :
  forall (s t : string),
    String.prefix p (s ++ t) = true ->
    (String.length p <= String.length s)%nat ->
    String.prefix p s = true.
Proof.
  induction p as [|c p IH]; intros s t H Hlen; [now destruct s |].
  destruct s as [|d s]; cbn [String.length] in Hlen; [lia |].
  cbn [append String.prefix] in *.
  destruct (ascii_dec c d); [| discriminate].
  apply (IH s t); [exact H | lia].
Qed.

Lemma prefix_self_app (p b : string) : String.prefix p (p ++ b) = true.
Proof. apply (proj2 (startswith_iff p (p ++ b))). now exists b. Qed.

Lemma length_append (a b : string) :
  String.length (a ++ b) = (String.length a + String.length b)%nat.
Proof. induction a as [|c a IH]; cbn; [reflexivity | now rewrite IH]. Qed.

Lemma replace_at_head (c0 : ascii) (o' new b : string) :
  replace_from (String c0 o') new O (String c0 o' ++ b) =
  new ++ replace_from (String c0 o') new O b.
Proof.
  cbn [append replace_from].
  change (String c0 (o' ++ b)) with (String c0 o' ++ b).
  rewrite prefix_self_app. f_equal.
  cbn [String.length Nat.pred]. apply replace_skip.
Qed.

(** The first occurrence is replaced, and the replacing goes on behind it. *)
Lemma replace_first (o1 : string) (z : ascii) (new : string) :
  forall (a b : string),
    str_in (o1 ++ String z "") (a ++ o1) = false ->
    replace_from (o1 ++ String z "") new O (a ++ (o1 ++ String z "") ++ b) =
    a ++ new ++ replace_from (o1 ++ String z "") new O b.
Proof.
  assert (Hlen : String.length (o1 ++ String z "") = S (String.length o1))
    by (rewrite length_append; cbn; lia).
  assert (Hshape : exists c0 o', o1 ++ String z "" = String c0 o')
    by (destruct o1; cbn; eauto).
  destruct Hshape as (c0 & o' & Hshape).
  induction a as [|c a IH]; intros b Hno.
  - cbn [append]. rewrite Hshape. apply replace_at_head.
  - cbn [append] in *. apply str_in_false_inv in Hno. destruct Hno as [Hp Hs].
    cbn [replace_from].
    destruct (String.prefix (o1 ++ String z "")
                (String c (a ++ (o1 ++ String z "") ++ b))) eqn:Hpre.
    + exfalso.
      assert (Heq : String c (a ++ (o1 ++ String z "") ++ b) =
                    String c (a ++ o1) ++ (String z "" ++ b)).
      { cbn [append]. f_equal. now rewrite !append_assoc. }
      rewrite Heq in Hpre. apply prefix_trunc in Hpre.
      * congruence.
      * rewrite Hlen. cbn [String.length]. rewrite length_append. lia.
    + f_equal. now apply IH.
Qed.

(** X6.  The status address is the server address with [/interpreter]
    replaced by [/status]: a server address in which [/interpreter] does
    not occur is itself taken as the status address, and otherwise the
    first occurrence is replaced (and any later one as well). *)
Theorem status_url_cases (self : OverpassQuery) :
  (str_in "/interpreter" (server self) = false -> status_url self = server self) /\
  (forall a b,
      server self = a ++ "/interpreter" ++ b ->
      str_in "/interpreter" (a ++ "/interprete") = false ->
      status_url self = a ++ "/status" ++ str_replace "/interpreter" "/status" b).
Proof.
  unfold status_url, str_replace. split.
  - apply replace_no_match.
  - intros a b Hs Hno. rewrite Hs.
    apply (replace_first "/interprete" "r"%char "/status" a b Hno).
Qed.

Lemma status_url_cases_witness :
  status_url hospitals = "https://overpass-api.de/api/status" /\
  status_url elsewhere = "https://example.org/overpass".
Proof.
  split.
  - apply (proj2 (status_url_cases hospitals) "https://overpass-api.de/api" "");
      reflexivity.
  - apply (proj1 (status_url_cases elsewhere)). reflexivity.
Defined.

End SlotGateMore.

(* ===================================================================== *)
(** * Further properties of the decoding                                  *)
(* ===================================================================== *)

Module Rows.

Import OsmInput Reference MoreReference PyFacts Decoder.

Section WithLibraries.

Context {L : Libraries}.

Lemma py_eq_str (v : pyval) (s : string) : py_eq v (PyStr s) = true -> v = PyStr s.
Proof.
  destruct v; cbn; try discriminate. intros H. apply String.eqb_eq in H. now subst.
Qed.

Lemma getitem_ok (el : pyval) (k : string) (v : pyval) :
  getitem el k = Ok v -> exists d, el = PyDict d /\ dict_get k d = Some v.
Proof.
  destruct el; cbn; try discriminate. intros H. exists d. split; [reflexivity |].
  destruct (dict_get k d); [now inversion H | discriminate].
Qed.

(** Where a geometry comes from. *)
Lemma element_geometry_some (el : pyval) (g : geometry) :
  element_geometry el = Ok (Some g) ->
  exists d, el = PyDict d /\
    ((dict_get "type" d = Some (PyStr "node") /\
      exists lon lat, dict_get "lon" d = Some lon /\ dict_get "lat" d = Some lat /\
                      Point lon lat = Ok g) \/
     (dict_get "type" d = Some (PyStr "way") /\
      exists cs, cs <> [] /\
                 (Polygon cs = Ok g /\ is_closed_ring cs = true \/
                  LineString cs = Ok g /\ is_closed_ring cs = false))).
Proof.
  unfold element_geometry. intros H.
  destruct (getitem el "type") as [ty|e] eqn:Hty; cbn [bind] in H; [| discriminate].
  destruct (getitem_ok el "type" ty Hty) as (d & -> & Hd).
  exists d. split; [reflexivity |].
  destruct (py_eq ty (PyStr "node")) eqn:Hnode.
  - left. apply py_eq_str in Hnode. subst ty. split; [exact Hd |].
    cbn [contains bind] in H. unfold dict_mem in H.
    destruct (dict_get "lat" d) as [lat|] eqn:Hlat; cbn [bind] in H;
      [| discriminate].
    destruct (dict_get "lon" d) as [lon|] eqn:Hlon; cbn [bind getitem] in H;
      [| discriminate].
    rewrite Hlon, Hlat in H. cbn [bind] in H.
    destruct (Point lon lat) as [g0|e] eqn:Hp; cbn [bind] in H; [| discriminate].
    inversion H; subst g0. now exists lon, lat.
  - destruct (py_eq ty (PyStr "way")) eqn:Hway.
    + right. apply py_eq_str in Hway. subst ty. split; [exact Hd |].
      destruct (get (PyDict d) "geometry" (PyList [])) as [gv|e]; cbn [bind] in H;
        [| discriminate].
      destruct (iter gv) as [pts|e]; cbn [bind] in H; [| discriminate].
      destruct (way_coords pts) as [cs|e]; cbn [bind] in H; [| discriminate].
      destruct cs as [|c cs]; [discriminate |].
      exists (c :: cs). split; [discriminate |].
      destruct (is_closed_ring (c :: cs)).
      * destruct (Polygon (c :: cs)) as [g0|e] eqn:Hp; cbn [bind] in H;
          [| discriminate].
        inversion H; subst g0. left. now split.
      * destruct (LineString (c :: cs)) as [g0|e] eqn:Hp; cbn [bind] in H;
          [| discriminate].
        inversion H; subst g0. right. now split.
    + destruct (py_eq ty (PyStr "relation")); discriminate.
Qed.

(** X7.  A row is made of a node or of a way, and of nothing else: the
    element is a dict with an id whose type is ["node"], and then the
    geometry is the [Point] made of its [lon] and [lat], in that order,
    or ["way"], and then it is the [LineString] or the [Polygon] made of
    coordinates of the way; an element of any other type, a relation in
    particular, gives no row and raises nothing. *)
Theorem rows_come_from_nodes_and_ways (el : pyval) :
  (forall row,
      decode_element el = Ok (Some row) ->
      exists d id g,
        el = PyDict d /\ dict_get "id" d = Some id /\
        dict_get "geometry" row = Some (Geom g) /\
        ((dict_get "type" d = Some (PyStr "node") /\
          exists lon lat, dict_get "lon" d = Some lon /\
                          dict_get "lat" d = Some lat /\ Point lon lat = Ok g) \/
         (dict_get "type" d = Some (PyStr "way") /\
          exists cs, Polygon cs = Ok g \/ LineString cs = Ok g))) /\
  (forall d ty,
      el = PyDict d -> dict_get "type" d = Some ty ->
      ty <> PyStr "node" -> ty <> PyStr "way" ->
      decode_element el = Ok None).
Proof.
  split.
  - intros row H.
    destruct (decode_element_geometry el row H) as (g & Hg & _ & Hrow).
    destruct (element_geometry_some el g Hg) as (d & -> & Hkind).
    assert (Hid : exists id, dict_get "id" d = Some id).
    { unfold decode_element in H. rewrite Hg in H. cbn [bind] in H.
      destruct (is_valid_geometry (Some g)) as [[|]|e]; cbn [bind negb] in H;
        try discriminate.
      destruct (get (PyDict d) "tags" (PyDict [])); cbn [bind getitem] in H;
        [| discriminate].
      destruct (dict_get "id" d) as [id|]; [now exists id | discriminate]. }
    destruct Hid as [id Hid]. exists d, id, g.
    split; [reflexivity |]. split; [exact Hid |]. split; [exact Hrow |].
    destruct Hkind as [[Hty Hpt] | [Hty (cs & _ & [[Hp _] | [Hp _]])]].
    + left. now split.
    + right. split; [exact Hty |]. exists cs. now left.
    + right. split; [exact Hty |]. exists cs. now right.
  - intros d ty -> Hty Hnn Hnw. unfold decode_element, element_geometry.
    cbn [getitem]. rewrite Hty. cbn [bind].
    destruct (py_eq ty (PyStr "node")) eqn:H1;
      [apply py_eq_str in H1; contradiction |].
    destruct (py_eq ty (PyStr "way")) eqn:H2;
      [apply py_eq_str in H2; contradiction |].
    destruct (py_eq ty (PyStr "relation")); reflexivity.
Qed.

End WithLibraries.

Lemma rows_come_from_nodes_and_ways_witness :
  decode_element (L := plain) a_relation = Ok None /\
  exists d id g,
    cafe = PyDict d /\ dict_get "id" d = Some id /\
    dict_get "geometry"
      [("id", Val (PyInt 21)); ("amenity", Val (PyStr "cafe"));
       ("name", Val (PyStr "Anna"));
       ("geometry", Geom (point f13_0 f52_5))] =
    Some (Geom g) /\
    ((dict_get "type" d = Some (PyStr "node") /\
      exists lon lat, dict_get "lon" d = Some lon /\
                      dict_get "lat" d = Some lat /\
                      Point (L := plain) lon lat = Ok g) \/
     (dict_get "type" d = Some (PyStr "way") /\
      exists cs, Polygon (L := plain) cs = Ok g \/
                 LineString (L := plain) cs = Ok g)).
Proof.
  split.
  - apply (proj2 (rows_come_from_nodes_and_ways (L := plain) a_relation)
             [("type", PyStr "relation"); ("id", PyInt 5); ("members", PyList [])]
             (PyStr "relation")); try reflexivity; discriminate.
  - apply (proj1 (rows_come_from_nodes_and_ways (L := plain) cafe)).
    vm_compute. reflexivity.
Defined.

Section Nodes.

Context {L : Libraries}.

(** *** Nodes *)

Lemma finite_b_number (v : pyval) :
  json_number v -> (finite_b v = true <-> finite_number v).
Proof.
  destruct v as [| b | z | f | s | l | d | l]; cbn; try contradiction;
    intros _; try (split; [intros _; exact I | reflexivity]).
  split.
  - apply float_is_finite_sound.
  - intros [Hnan Hinf]. destruct f; try reflexivity; [now elim (Hinf s) | now elim Hnan].
Qed.

Lemma check_coords_number (v : pyval) :
  json_number v -> check_coords v = Ok (finite_b v).
Proof.
  intros Hv. destruct v; cbn in *; try contradiction; try reflexivity.
  now rewrite Hv.
Qed.

(** X8.  A node without [lat] or without [lon] is passed over quietly.  A
    node with both as numbers, an id and tags that are a mapping (or no
    tags) gives a row with the point of its [lon] and [lat], each as a
    double, when both are finite, and no row when one of them is a NaN or
    an infinity. *)
Theorem node_decoding (d : dict pyval) :
  dict_get "type" d = Some (PyStr "node") ->
  (dict_get "lat" d = None \/ dict_get "lon" d = None ->
   decode_element (PyDict d) = Ok None) /\
  (forall lon lat id,
      dict_get "lon" d = Some lon -> dict_get "lat" d = Some lat ->
      json_number lon -> json_number lat ->
      dict_get "id" d = Some id ->
      (dict_get "tags" d = None \/ exists t, dict_get "tags" d = Some (PyDict t)) ->
      (finite_number lon /\ finite_number lat ->
       exists row, decode_element (PyDict d) = Ok (Some row) /\
                   dict_get "geometry" row =
                   Some (Geom (point (to_double lon) (to_double lat)))) /\
      (~ (finite_number lon /\ finite_number lat) ->
       decode_element (PyDict d) = Ok None)).
Proof.
  intros Hty. split.
  - intros Hmiss. unfold decode_element, element_geometry.
    cbn [getitem contains]. rewrite Hty. cbn [bind py_eq].
    change (String.eqb "node" "node") with true. cbn iota. unfold dict_mem.
    destruct (dict_get "lat" d); cbn [bind]; [| reflexivity].
    destruct Hmiss as [H | H]; [discriminate | now rewrite H].
  - intros lon lat id Hlon Hlat Nlon Nlat Hid Htags.
    set (g := point (to_double lon) (to_double lat)).
    destruct (py_float_number lon Nlon) as [Plon Dlon].
    destruct (py_float_number lat Nlat) as [Plat Dlat].
    assert (Hpoint : Point lon lat = Ok g).
    { unfold Point.
      replace (is_number lon) with true
        by (destruct lon; try contradiction; reflexivity).
      replace (is_number lat) with true
        by (destruct lat; try contradiction; reflexivity).
      cbn [andb]. rewrite Plon, Plat. reflexivity. }
    assert (Hgeom : element_geometry (PyDict d) = Ok (Some g)).
    { unfold element_geometry. cbn [getitem contains]. rewrite Hty. cbn [bind py_eq].
      change (String.eqb "node" "node") with true. cbn iota. unfold dict_mem.
      rewrite Hlat, Hlon. cbn [bind]. rewrite Hpoint. reflexivity. }
    assert (Hcheck : check_coords (coordinates g) =
                     Ok (finite_b lon && finite_b lat)).
    { unfold g. cbn [coordinates].
      change (check_coords (PyTuple [PyFloat (to_double lon); PyFloat (to_double lat)]))
        with (let? b := Ok (float_is_finite (to_double lon)) in
              if b then (let? b' := Ok (float_is_finite (to_double lat)) in
                         if b' then Ok true else Ok false)
              else Ok false).
      rewrite Dlon, Dlat.
      cbn [bind]. destruct (finite_b lon), (finite_b lat); reflexivity. }
    split.
    + intros [Flon Flat].
      apply (finite_b_number lon Nlon) in Flon.
      apply (finite_b_number lat Nlat) in Flat.
      apply (decode_element_row d g id); try assumption.
      now rewrite Hcheck, Flon, Flat.
    + intros Hnot. unfold decode_element. rewrite Hgeom. cbn [bind].
      unfold is_valid_geometry. rewrite Hcheck.
      destruct (finite_b lon) eqn:Flon; destruct (finite_b lat) eqn:Flat;
        try reflexivity.
      exfalso. apply Hnot.
      split; [now apply (finite_b_number lon Nlon) | now apply (finite_b_number lat Nlat)].
Qed.

End Nodes.

Lemma node_decoding_witness :
  (exists row, decode_element (L := plain) cafe = Ok (Some row) /\
               dict_get "geometry" row = Some (Geom (point f13_0 f52_5))) /\
  decode_element (L := plain) lost_node = Ok None.
Proof.
  split.
  - apply (proj2 (node_decoding (L := plain)
             [("type", PyStr "node"); ("id", PyInt 21);
              ("lat", PyFloat f52_5); ("lon", PyFloat f13_0);
              ("tags", PyDict [("amenity", PyStr "cafe"); ("name", PyStr "Anna")])]
             eq_refl) (PyFloat f13_0) (PyFloat f52_5) (PyInt 21));
      try reflexivity; try exact I.
    + right. eexists. reflexivity.
    + repeat split; discriminate.
  - apply (proj2 (node_decoding (L := plain)
             [("type", PyStr "node"); ("id", PyInt 22);
              ("lat", PyFloat f52_5); ("lon", PyFloat S754_nan);
              ("tags", PyDict [("amenity", PyStr "cafe")])]
             eq_refl) (PyFloat S754_nan) (PyFloat f52_5) (PyInt 22));
      try reflexivity; try exact I.
    + right. eexists. reflexivity.
    + intros [[Hnan _] _]. now apply Hnan.
Defined.

(** *** Batches *)

Section Batches.

Context {L : Libraries}.

Lemma decode_loop_acc (els : list pyval) :
  Forall is_dict els ->
  exists rows, (List.length rows <= List.length els)%nat /\
               forall acc, decode_loop els acc = Ok (acc ++ rows)%list.
Proof.
  induction 1 as [|el els [d ->] _ (rows & Hlen & IH)].
  - exists []. split; [cbn; lia |]. intros acc. cbn. now rewrite app_nil_r.
  - destruct (decode_element (PyDict d)) as [[row|]|e] eqn:Hel.
    + exists (row :: rows). split; [cbn; lia |]. intros acc.
      cbn [decode_loop]. rewrite Hel, IH, <- app_assoc. reflexivity.
    + exists rows. split; [cbn; lia |]. intros acc.
      cbn [decode_loop]. now rewrite Hel.
    + exists rows. split; [cbn; lia |]. intros acc.
      cbn [decode_loop]. rewrite Hel. cbn [get].
      destruct (dict_get "id" d); cbn [bind]; apply IH.
Qed.

Lemma decode_loop_app (a b : list pyval) :
  Forall is_dict a ->
  forall acc rows,
    decode_loop a acc = Ok rows ->
    decode_loop (a ++ b) acc = decode_loop b rows.
Proof.
  induction 1 as [|el a [d ->] _ IH]; intros acc rows H; cbn [app decode_loop] in *.
  - now inversion H.
  - destruct (decode_element (PyDict d)) as [[row|]|e]; try (now apply IH).
    cbn [get] in *. destruct (dict_get "id" d); cbn [bind] in *; now apply IH.
Qed.

(** The frame of a payload is made of the rows the loop gathers. *)
Lemma json_to_geodataframe_elements (osm_json : pyval) (els : list pyval) :
  has_elements osm_json els ->
  json_to_geodataframe osm_json =
  let? rows := decode_loop els [] in frame_of els rows.
Proof.
  intros (d & -> & Hd). unfold json_to_geodataframe. cbn [get]. rewrite Hd.
  cbn [bind]. destruct els as [|el els]; [reflexivity |].
  change (truthy (PyList (el :: els))) with true. cbn [negb iter bind].
  destruct (decode_loop (el :: els) []) as [[|r rows]|e]; reflexivity.
Qed.

(** X9.  On payloads whose elements are dicts, the loop goes element by
    element and always comes to its end, with at most one row per
    element; the rows of a list of elements put together from two lists
    are the rows of the first followed by the rows of the second, so rows
    come in the order of their elements and an element that fails takes
    no other row with it.  The frame returned is made of these rows: an
    empty list of elements gives the empty frame, and elements that leave
    no row at all give no frame but a [ValueError]. *)
Theorem decoding_composes (ja jb jab : pyval) (a b : list pyval) :
  has_elements ja a -> has_elements jb b -> has_elements jab (a ++ b) ->
  Forall is_dict a -> Forall is_dict b ->
  exists ra rb,
    decode_loop a [] = Ok ra /\
    decode_loop b [] = Ok rb /\
    decode_loop (a ++ b) [] = Ok (ra ++ rb)%list /\
    (List.length ra <= List.length a)%nat /\
    (List.length rb <= List.length b)%nat /\
    json_to_geodataframe ja = frame_of a ra /\
    json_to_geodataframe jb = frame_of b rb /\
    json_to_geodataframe jab = frame_of (a ++ b) (ra ++ rb)%list /\
    (a = [] -> json_to_geodataframe ja = Ok []) /\
    (a <> [] -> ra = [] -> json_to_geodataframe ja = Raise ValueError) /\
    (ra <> [] \/ rb <> [] -> json_to_geodataframe jab = Ok (ra ++ rb)%list).
Proof.
  intros Ha Hb Hab Da Db.
  rewrite (json_to_geodataframe_elements ja a Ha),
          (json_to_geodataframe_elements jb b Hb),
          (json_to_geodataframe_elements jab (a ++ b) Hab).
  destruct (decode_loop_acc a Da) as (ra & Hla & Hra).
  destruct (decode_loop_acc b Db) as (rb & Hlb & Hrb).
  assert (Hab' : decode_loop (a ++ b) [] = Ok (ra ++ rb)%list).
  { rewrite (decode_loop_app a b Da [] ra (Hra [])). apply Hrb. }
  exists ra, rb. rewrite Hab', (Hra []), (Hrb []). cbn [app bind].
  repeat split; try reflexivity; try assumption.
  - intros ->. destruct ra; [reflexivity | cbn in Hla; lia].
  - intros Hne ->. destruct a; [now elim Hne | reflexivity].
  - intros Hrows. unfold frame_of.
    destruct (a ++ b)%list; [reflexivity |].
    destruct (ra ++ rb)%list eqn:E; [| reflexivity].
    apply app_eq_nil in E. destruct E as [-> ->].
    destruct Hrows as [H | H]; now elim H.
Qed.

End Batches.

Lemma decoding_composes_witness :
  exists ra rb,
    decode_loop (L := plain) [square; no_lon_way] [] = Ok ra /\
    decode_loop (L := plain) [a_relation; cafe] [] = Ok rb /\
    decode_loop (L := plain) [square; no_lon_way; a_relation; cafe] [] =
    Ok (ra ++ rb)%list /\
    (List.length ra <= 2)%nat /\
    (List.length rb <= 2)%nat /\
    json_to_geodataframe (L := plain) (payload [square; no_lon_way]) =
    frame_of [square; no_lon_way] ra /\
    json_to_geodataframe (L := plain) (payload [a_relation; cafe]) =
    frame_of [a_relation; cafe] rb /\
    json_to_geodataframe (L := plain)
      (payload [square; no_lon_way; a_relation; cafe]) =
    frame_of [square; no_lon_way; a_relation; cafe] (ra ++ rb)%list /\
    ([square; no_lon_way] = [] ->
     json_to_geodataframe (L := plain) (payload [square; no_lon_way]) = Ok []) /\
    ([square; no_lon_way] <> [] -> ra = [] ->
     json_to_geodataframe (L := plain) (payload [square; no_lon_way]) =
     Raise ValueError) /\
    (ra <> [] \/ rb <> [] ->
     json_to_geodataframe (L := plain)
       (payload [square; no_lon_way; a_relation; cafe]) = Ok (ra ++ rb)%list).
Proof.
  apply (decoding_composes (L := plain)
           (payload [square; no_lon_way]) (payload [a_relation; cafe])
           (payload [square; no_lon_way; a_relation; cafe])
           [square; no_lon_way] [a_relation; cafe]);
    try (eexists; split; reflexivity);
    repeat constructor; eexists; reflexivity.
Defined.

Section Aborts.

Context {L : Libraries}.

(** X10.  The handler of the loop reads [el.get('id')] for its message,
    so an element that is not a dict (a [null], a number, a string, a list)
    makes [json_to_geodataframe] raise [AttributeError] and no frame is
    returned, whatever the other elements are. *)
Theorem non_dict_element_aborts (osm_json : pyval) (els : list pyval) (x : pyval) :
  has_elements osm_json els ->
  In x els -> (forall d, x <> PyDict d) ->
  json_to_geodataframe osm_json = Raise AttributeError.
Proof.
  intros Hels Hin Hx. rewrite (json_to_geodataframe_elements osm_json els Hels).
  clear Hels.
  enough (H : forall acc, decode_loop els acc = Raise AttributeError)
    by (now rewrite H).
  induction els as [|el els IH]; intros acc; [destruct Hin |].
  cbn [decode_loop].
  destruct el as [| b | z | f | s | l | d | l];
    try (cbn; reflexivity).
  destruct Hin as [<- | Hin]; [now elim (Hx d) |].
  destruct (decode_element (PyDict d)) as [[row|]|e]; try (now apply IH).
  cbn [get]. destruct (dict_get "id" d); cbn [bind]; now apply IH.
Qed.

End Aborts.

Lemma non_dict_element_aborts_witness :
  json_to_geodataframe (L := plain) (payload [square; PyNone; cafe]) =
  Raise AttributeError.
Proof.
  apply (non_dict_element_aborts (L := plain) (payload [square; PyNone; cafe])
           [square; PyNone; cafe] PyNone).
  - eexists. split; reflexivity.
  - right. left. reflexivity.
  - intros d H. discriminate H.
Defined.

(** *** The columns of a row *)

Lemma dict_get_app_one {V} (k k0 : string) (v0 : V) (l : dict V) :
  dict_get k (l ++ [(k0, v0)])%list =
  match dict_get k l with
  | Some v => Some v
  | None => if String.eqb k k0 then Some v0 else None
  end.
Proof.
  induction l as [|[a b] l IH]; cbn; [reflexivity |].
  destruct (String.eqb k a); [reflexivity | exact IH].
Qed.

Lemma dict_get_none {V} (k : string) (l : dict V) :
  dict_get k l = None <-> ~ In k (map fst l).
Proof.
  induction l as [|[a b] l IH]; cbn.
  - split; [intros _ H; exact H | reflexivity].
  - destruct (String.eqb_spec k a) as [-> | Hne].
    + split; [discriminate | intros H; elim H; now left].
    + rewrite IH. split.
      * intros H [Heq | Hin]; [now elim Hne | now elim H].
      * intros H Hin. apply H. now right.
Qed.

(** With keys that are all different, looking up from the end is looking
    up from the start. *)
Lemma dict_get_rev {V} (k : string) (l : dict V) :
  NoDup (map fst l) -> dict_get k (rev l) = dict_get k l.
Proof.
  induction l as [|[a b] l IH]; intros Hnd; [reflexivity |].
  cbn [map fst] in Hnd. inversion Hnd as [|x xs Hnotin Hnd']; subst.
  cbn [rev]. rewrite dict_get_app_one, (IH Hnd'). cbn [dict_get].
  destruct (String.eqb_spec k a) as [-> | Hne].
  - apply dict_get_none in Hnotin. now rewrite Hnotin.
  - now destruct (dict_get k l).
Qed.

Section Columns.

Context {L : Libraries}.

(** X11.  The columns of a row: every tag of the element is a column of
    its own with the value of the tag, except a tag named [geometry]; the
    element id stands under [id] unless there is a tag of that name; and
    there are no other columns than [id], [geometry] and the tag keys. *)
Theorem row_columns (d tags : dict pyval) (id : pyval) (row : record) :
  decode_element (PyDict d) = Ok (Some row) ->
  dict_get "tags" d = Some (PyDict tags) ->
  NoDup (map fst tags) ->
  dict_get "id" d = Some id ->
  (forall k v, dict_get k tags = Some v -> k <> "geometry" ->
               dict_get k row = Some (Val v)) /\
  (dict_get "id" tags = None -> dict_get "id" row = Some (Val id)) /\
  (exists g, dict_get "geometry" row = Some (Geom g)) /\
  (forall k, k <> "id" -> k <> "geometry" -> dict_get k tags = None ->
             dict_get k row = None).
Proof.
  intros Hrow Htags Hnd Hid.
  destruct (decode_element_geometry (PyDict d) row Hrow) as (g & Hg & Hc & Hgeo).
  assert (Hshape : row = dict_set "geometry" (Geom g)
                           (dict_update (dict_set "id" (Val id) [])
                              (map (fun kv => (fst kv, Val (snd kv))) tags))).
  { unfold decode_element in Hrow. rewrite Hg in Hrow. cbn [bind] in Hrow.
    unfold is_valid_geometry in Hrow. rewrite Hc in Hrow.
    cbn [bind negb get getitem] in Hrow. rewrite Htags, Hid in Hrow.
    cbn [bind mapping_items] in Hrow. now inversion Hrow. }
  assert (Hlook : forall k, k <> "geometry" ->
            dict_get k row =
            match dict_get k tags with
            | Some v => Some (Val v)
            | None => if String.eqb k "id" then Some (Val id) else None
            end).
  { intros k Hk. rewrite Hshape, dict_get_set_other by exact Hk.
    rewrite dict_get_update, <- map_rev, dict_get_map_val, (dict_get_rev k tags Hnd).
    destruct (dict_get k tags); reflexivity. }
  split; [| split; [| split]].
  - intros k v Hk Hne. rewrite (Hlook k Hne). now rewrite Hk.
  - intros Hnone. rewrite (Hlook "id") by discriminate. now rewrite Hnone.
  - now exists g.
  - intros k Hid' Hgeo' Hnone. rewrite (Hlook k Hgeo'), Hnone.
    destruct (String.eqb_spec k "id"); [contradiction | reflexivity].
Qed.

End Columns.

Lemma row_columns_witness :
  dict_get "name"
    [("id", Val (PyInt 21)); ("amenity", Val (PyStr "cafe"));
     ("name", Val (PyStr "Anna"));
     ("geometry", Geom (point f13_0 f52_5))] =
  Some (Val (PyStr "Anna")).
Proof.
  apply (proj1 (row_columns (L := plain)
           [("type", PyStr "node"); ("id", PyInt 21);
            ("lat", PyFloat f52_5); ("lon", PyFloat f13_0);
            ("tags", PyDict [("amenity", PyStr "cafe"); ("name", PyStr "Anna")])]
           [("amenity", PyStr "cafe"); ("name", PyStr "Anna")] (PyInt 21)
           [("id", Val (PyInt 21)); ("amenity", Val (PyStr "cafe"));
            ("name", Val (PyStr "Anna"));
            ("geometry", Geom (point f13_0 f52_5))]
           ltac:(vm_compute; reflexivity) eq_refl
           ltac:(repeat constructor; cbn; intuition discriminate) eq_refl)).
  - reflexivity.
  - discriminate.
Defined.

(** *** The validity test *)

Lemma finite_coords_items (l : list pyval) :
  (finite_coords (PyList l) <-> forall x, In x l -> finite_coords x) /\
  (finite_coords (PyTuple l) <-> forall x, In x l -> finite_coords x).
Proof.
  split; split; intros H; try (now constructor);
    inversion H as [v Hv | l' Hl' | l' Hl']; subst;
    try (destruct Hv); assumption.
Qed.

Lemma check_coords_cons (x : pyval) (l : list pyval) :
  check_coords (PyList (x :: l)) =
  let? b := check_coords x in
  if b then check_coords (PyList l) else Ok false.
Proof. reflexivity. Qed.

(** The items of a sequence are checked from the left. *)
Lemma check_coords_items (l : list pyval) :
  (forall x, In x l ->
     (check_coords x = Ok true /\ finite_coords x) \/
     (check_coords x = Ok false /\ ~ finite_coords x)) ->
  (check_coords (PyList l) = Ok true /\ forall x, In x l -> finite_coords x) \/
  (check_coords (PyList l) = Ok false /\ ~ forall x, In x l -> finite_coords x).
Proof.
  induction l as [|x l IHl]; intros Hd.
  - left. split; [reflexivity |]. intros x [].
  - rewrite check_coords_cons.
    destruct (Hd x (or_introl eq_refl)) as [[Hx Fx] | [Hx Fx]];
      rewrite Hx; cbn [bind].
    + destruct IHl as [[Hl Fl] | [Hl Fl]].
      * intros y Hy. apply Hd. now right.
      * left. split; [exact Hl |].
        intros y [<- | Hy]; [exact Fx | now apply Fl].
      * right. split; [exact Hl |]. intros H. apply Fl.
        intros y Hy. apply H. now right.
    + right. split; [reflexivity |]. intros H. apply Fx. apply H. now left.
Qed.

Lemma check_coords_decides (c : pyval) :
  number_tree c ->
  (check_coords c = Ok true /\ finite_coords c) \/
  (check_coords c = Ok false /\ ~ finite_coords c).
Proof.
  induction c as [v Hv Hv' | l IH | l IH] using pyval_list_ind; intros Hnum.
  - assert (Hj : json_number v).
    { inversion Hnum as [v' Hj' | l Hl | l Hl]; subst;
        [exact Hj' | now elim (Hv l) | now elim (Hv' l)]. }
    rewrite (check_coords_number v Hj).
    destruct (finite_b v) eqn:Hf.
    + left. split; [reflexivity |]. apply finite_leaf.
      now apply (finite_b_number v Hj).
    + right. split; [reflexivity |]. intros H.
      inversion H as [v' Hfin | l Hl | l Hl]; subst;
        [| now elim (Hv l) | now elim (Hv' l)].
      apply (finite_b_number v Hj) in Hfin. congruence.
  - assert (Hall : forall x, In x l -> number_tree x).
    { inversion Hnum as [v' Hj' | l' Hl | l' Hl]; subst;
        [destruct Hj' | exact Hl]. }
    destruct (check_coords_items l (fun x Hx => IH x Hx (Hall x Hx)))
      as [[Hc Hf] | [Hc Hf]]; [left | right]; (split; [exact Hc |]);
      now rewrite (proj1 (finite_coords_items l)).
  - assert (Hall : forall x, In x l -> number_tree x).
    { inversion Hnum as [v' Hj' | l' Hl | l' Hl]; subst;
        [destruct Hj' | exact Hl]. }
    rewrite check_coords_tuple.
    destruct (check_coords_items l (fun x Hx => IH x Hx (Hall x Hx)))
      as [[Hc Hf] | [Hc Hf]]; [left | right]; (split; [exact Hc |]);
      now rewrite (proj2 (finite_coords_items l)).
Qed.

(** The coordinates of a geometry are doubles, in tuples. *)
Lemma coordinates_numbers (g : geometry) : number_tree (coordinates g).
Proof.
  assert (Hpair : forall c, number_tree (pair_val c)).
  { intros c. apply number_tuple.
    intros x [<- | [<- | []]]; apply number_leaf; exact I. }
  assert (Hpairs : forall cs, number_tree (PyTuple (map pair_val cs))).
  { intros cs. apply number_tuple. intros x Hx.
    apply in_map_iff in Hx. destruct Hx as (c & <- & _). apply Hpair. }
  destruct g as [x y | cs | [|c shell]]; cbn [coordinates].
  - apply (Hpair (x, y)).
  - apply Hpairs.
  - apply number_tuple. intros x [].
  - apply number_tuple. intros x [<- | []]. apply Hpairs.
Qed.

(** X12.  [is_valid_geometry] answers, without an exception, exactly the
    question whether every coordinate component of the geometry, at every
    depth, is finite; with no geometry at all it answers no.  The inner
    check does so on every nesting of lists and tuples of numbers. *)
Theorem is_valid_geometry_decides (g : geometry) :
  is_valid_geometry None = Ok false /\
  ((is_valid_geometry (Some g) = Ok true /\ finite_coords (coordinates g)) \/
   (is_valid_geometry (Some g) = Ok false /\ ~ finite_coords (coordinates g))) /\
  (forall c,
      number_tree c ->
      (check_coords c = Ok true /\ finite_coords c) \/
      (check_coords c = Ok false /\ ~ finite_coords c)).
Proof.
  split; [reflexivity |]. split; [| apply check_coords_decides].
  apply check_coords_decides, coordinates_numbers.
Qed.

Lemma is_valid_geometry_decides_witness :
  is_valid_geometry (Some (point (S754_infinity false) f52_5)) = Ok false /\
  ~ finite_coords (coordinates (point (S754_infinity false) f52_5)).
Proof.
  destruct (proj1 (proj2 (is_valid_geometry_decides
                            (point (S754_infinity false) f52_5))))
    as [[H _] | H]; [discriminate H | exact H].
Defined.

End Rows.

(* ===================================================================== *)
(** * Further properties of the synchronous executor                      *)
(* ===================================================================== *)

Module RunMore.

Import OsmInput Reference MoreReference PyFacts ExecFacts SlotGate SlotGateMore
  Executor.

Section WithFloatText.

Context {L : Libraries}.
Variable str_float : spec_float -> string.

(** X13.  Without a free slot [run] sends nothing: with a status endpoint
    that never reports one it polls 12 times, 5 seconds apart, and raises
    [TimeoutError], be the query what it may (even one whose text could
    not be built). *)
Theorem run_needs_a_slot (E : env) (self : OverpassQuery) :
  never_available E ->
  exec E (run str_float self) world0 =
  (Raise TimeoutError,
   after_polls world0 12 (poll_rounds (status_url self) 12)).
Proof.
  intros Hbusy. unfold run. rewrite exec_bind. unfold _wait_for_slot.
  rewrite (wait_loop_times_out E self 60 Hbusy 12 0 world0) by reflexivity.
  reflexivity.
Qed.

(** [run] as the slot wait followed by the attempts. *)
Lemma exec_run (E : env) (self : OverpassQuery) :
  exec E (run str_float self) world0 =
  match exec E (_wait_for_slot self 60) world0 with
  | (Ok _, w) =>
      match _build_query str_float self with
      | Ok query => exec E (run_attempts self query (Z.to_nat (max_retries self))) w
      | Raise e => (Raise e, w)
      end
  | (Raise e, w) => (Raise e, w)
  end.
Proof.
  unfold run. rewrite exec_bind.
  destruct (exec E (_wait_for_slot self 60) world0) as [[u|e] w]; [| reflexivity].
  unfold lift. destruct (_build_query str_float self); reflexivity.
Qed.

(** The wait before [run]'s requests: it sends no query, and it returns
    only when some status reply reported a free slot. *)
Lemma wait_ends_on_a_slot (E : env) (self : OverpassQuery) (max_wait : Z) :
  let out := exec E (_wait_for_slot self max_wait) world0 in
  query_calls (snd out) = O /\
  (fst out = Ok tt ->
   exists k, truthy (availability (status_reply E k)) = true).
Proof.
  cbv zeta. unfold _wait_for_slot.
  pose proof (wait_loop_bounded E self max_wait (polls_needed max_wait) 0 world0) as H.
  cbv zeta in H.
  destruct H as (_ & _ & Hok & _); [f_equal; lia |].
  split; [apply (wait_loop_no_query E self max_wait (polls_needed (max_wait - 0)));
          reflexivity |].
  intros H. destruct (Hok H) as (k & _ & _ & Hk3). now exists k.
Qed.

(** X14.  Whatever the outside answers, [run] sends at most [max_retries]
    query requests (none at all when [max_retries] is zero or negative),
    and it sends one only after a status reply that reported a free slot
    and with a query text that could be built. *)
Theorem run_request_budget (E : env) (self : OverpassQuery) :
  let out := exec E (run str_float self) world0 in
  (query_calls (snd out) <= Z.to_nat (max_retries self))%nat /\
  ((0 < query_calls (snd out))%nat ->
   (exists k, truthy (availability (status_reply E k)) = true) /\
   (exists query, _build_query str_float self = Ok query)).
Proof.
  cbv zeta. rewrite exec_run.
  destruct (wait_ends_on_a_slot E self 60) as (Hq & Hok).
  cbv zeta in Hq, Hok.
  destruct (exec E (_wait_for_slot self 60) world0) as [[u|e] w];
    cbn [fst snd] in *.
  - destruct (_build_query str_float self) as [query|e].
    + pose proof (run_attempts_at_most E self query (Z.to_nat (max_retries self)) w)
        as Hle.
      rewrite Hq in Hle. split; [exact Hle |].
      intros _. split; [| now exists query].
      destruct u. exact (Hok eq_refl).
    + cbn [snd]. rewrite Hq. split; [lia | intros H; lia].
  - rewrite Hq. split; [lia | intros H; lia].
Qed.

(** X15.  [run] on the replies to its query requests, once a slot was
    seen at poll [i0] and with the query text [query].  A reply is retried
    when it is transient (status 429, 500 or 503, or a connection failure)
    or a 200 whose body is asked for as JSON and is no document.  With a
    [retry_delay] that [time.sleep] takes: if the first [max_retries]
    replies are all retried, each is followed by a sleep of [retry_delay]
    and the end is "no result"; if after [i] retried replies, [i] below
    [max_retries], a reply of another kind comes, [run] ends with it,
    without a sleep: with the success branch on a 200, with "no result" on
    anything else.  When the first reply is of that other kind the
    [retry_delay] does not matter.  With a [retry_delay] that [time.sleep]
    refuses, a negative one in particular, the first retried reply ends
    [run] with the exception of the sleep ([ValueError] for a negative
    length), after one request and no sleep.  A reply whose body is a
    JSON document is retried exactly when its status is 429, 500 or
    503. *)
Theorem run_retry_contract (E : env) (self : OverpassQuery) (i0 : nat)
  (query : string) :
  first_available_at E i0 -> 5 * Z.of_nat i0 < 60 ->
  _build_query str_float self = Ok query ->
  let w0 := after_polls world0 (S i0)
              (poll_rounds (status_url self) i0 ++ [StatusGet (status_url self)]) in
  let n := Z.to_nat (max_retries self) in
  (sleepable (retry_delay self) ->
   (forall j, (j < n)%nat -> retried self (query_reply E j) = true) ->
   exec E (run str_float self) world0 =
   (Ok NoResult,
    after_queries w0 n (retry_rounds (server self) query (retry_delay self) n))) /\
  (forall i code text b,
      i = O \/ sleepable (retry_delay self) ->
      (i < n)%nat ->
      (forall j, (j < i)%nat -> retried self (query_reply E j) = true) ->
      query_reply E i = Response code text b ->
      retried self (Response code text b) = false ->
      exec E (run str_float self) world0 =
      let w' := after_queries w0 (S i)
                  (retry_rounds (server self) query (retry_delay self) i ++
                   [HttpGet (server self) query]) in
      if code =? 200 then exec E (on_success self text (requests_json b)) w'
      else (Ok NoResult, w')) /\
  (forall e,
      sleep_error (retry_delay self) = Some e ->
      (0 < n)%nat ->
      retried self (query_reply E O) = true ->
      exec E (run str_float self) world0 =
      (Raise e, after_queries w0 1 [HttpGet (server self) query])) /\
  (-9223372036 <= retry_delay self < 0 ->
   sleep_error (retry_delay self) = Some ValueError) /\
  (~ sleepable (retry_delay self) ->
   exists e, sleep_error (retry_delay self) = Some e /\
             (e = ValueError \/ e = OverflowError)) /\
  (forall r, transient r = true -> retried self r = true) /\
  (forall code text data,
      retried self (Response code text (Json data)) = retryable code).
Proof.
  intros Hslot Hfits Hquery w0 n.
  assert (Hrun : exec E (run str_float self) world0 =
                 exec E (run_attempts self query n) w0).
  { rewrite exec_run. unfold _wait_for_slot.
    destruct Hslot as [Hbusy Hfree].
    rewrite (wait_loop_returns E self 60 i0 0 world0 Hbusy Hfree) by lia.
    now rewrite Hquery. }
  split; [| split; [| split; [| split; [| split; [| split]]]]].
  - intros Hd Htr. rewrite Hrun. apply run_attempts_exhausted; [exact Hd |].
    intros j Hj. cbn. now apply Htr.
  - intros i code text b Hor Hi Htr Hrep Hnr. rewrite Hrun.
    apply (run_attempts_decided E self query i n w0 code text b);
      cbn; assumption.
  - intros e He Hn Hr. rewrite Hrun.
    destruct n as [|m]; [lia |].
    now apply run_attempts_sleep_refused.
  - apply sleep_error_negative.
  - intros Hns. destruct (sleep_error (retry_delay self)) as [e|] eqn:He.
    + exists e. split; [reflexivity |].
      apply sleep_error_kind in He. tauto.
    + elim Hns. now apply sleep_error_sleepable.
  - apply transient_retried.
  - intros code text data. cbn [retried is_opaque].
    now rewrite andb_false_r, orb_false_r.
Qed.

End WithFloatText.

Lemma run_needs_a_slot_witness :
  exec busy_env (run (L := plain) no_float_text nowhere) world0 =
  (Raise TimeoutError,
   after_polls world0 12 (poll_rounds (status_url nowhere) 12)).
Proof.
  apply (run_needs_a_slot (L := plain) no_float_text busy_env nowhere).
  intros n. reflexivity.
Defined.

Lemma run_request_budget_witness :
  (query_calls
     (snd (exec (free_env (fun _ => unavailable))
             (run (L := plain) no_float_text hospitals) world0))
   <= 3)%nat.
Proof.
  apply (run_request_budget (L := plain) no_float_text
           (free_env (fun _ => unavailable)) hospitals).
Defined.

Lemma run_retry_contract_witness :
  exec (free_env (replies [unavailable; ConnectionFailure; not_found]))
       (run (L := plain) no_float_text hospitals) world0 =
  (Ok NoResult,
   after_queries
     (after_polls world0 1 [StatusGet (status_url hospitals)]) 3
     (retry_rounds (server hospitals) hospitals_text 10 2 ++
      [HttpGet (server hospitals) hospitals_text])) /\
  exec (free_env (replies [unavailable; ConnectionFailure; not_found]))
       (run (L := plain) no_float_text hurried) world0 =
  (Raise ValueError,
   after_queries
     (after_polls world0 1 [StatusGet (status_url hurried)]) 1
     [HttpGet (server hurried) hospitals_text]).
Proof.
  split.
  - destruct (run_retry_contract (L := plain) no_float_text
                (free_env (replies [unavailable; ConnectionFailure; not_found]))
                hospitals 0 hospitals_text) as (_ & Hdecided & _).
    + split; [intros j Hj; inversion Hj | reflexivity].
    + reflexivity.
    + vm_compute. reflexivity.
    + apply (Hdecided 2%nat 404 "not found" (Opaque false)).
      * right. unfold sleepable. cbn. lia.
      * cbn. lia.
      * intros j Hj. destruct j as [|[|j]]; [reflexivity | reflexivity | lia].
      * reflexivity.
      * reflexivity.
  - destruct (run_retry_contract (L := plain) no_float_text
                (free_env (replies [unavailable; ConnectionFailure; not_found]))
                hurried 0 hospitals_text) as (_ & _ & Hrefused & Hneg & _).
    + split; [intros j Hj; inversion Hj | reflexivity].
    + reflexivity.
    + vm_compute. reflexivity.
    + apply (Hrefused ValueError).
      * apply Hneg. cbn. lia.
      * cbn. lia.
      * reflexivity.
Defined.

End RunMore.

(* ===================================================================== *)
(** * Further properties of the asynchronous client                       *)
(* ===================================================================== *)

Module RunQueryMore.

Import OsmInput OsmClient Reference MoreReference PyFacts ExecFacts Executor Gather.

Lemma exec_try_finally {A} (E : env) (body : prog A) (fin : event) :
  forall w,
    exec E (try_finally body fin) w =
    (fst (exec E body w),
     snd (handle E (snd (exec E body w)) fin)).
Proof.
  induction body as [r|e k IH]; intros w; cbn [try_finally exec fst snd].
  - destruct (handle E w fin) as [x w']. reflexivity.
  - destruct (handle E w e) as [x w']. apply IH.
Qed.

(** A program whose events all pass a test leaves only such events on
    record; if they are query requests and sleeps, the status endpoint is
    left alone. *)
Lemma exec_only_events {A} (E : env) (P : event -> bool) (p : prog A) :
  only_events P p ->
  forall w, exists evs,
    trace (snd (exec E p w)) = (trace w ++ evs)%list /\ forallb P evs = true.
Proof.
  induction p as [r|e k IH]; intros Hp w; cbn [exec snd].
  - exists []. split; [now rewrite app_nil_r | reflexivity].
  - destruct Hp as [He Hk]. destruct (handle E w e) as [x w'] eqn:Hh.
    destruct (IH x (Hk x) w') as (evs & Hevs & Hall).
    assert (Hw : trace w' = (trace w ++ [e])%list)
      by (destruct e; cbn in Hh; inversion Hh; reflexivity).
    exists (e :: evs). rewrite Hevs, Hw, <- app_assoc. cbn [app forallb].
    split; [reflexivity | now rewrite He].
Qed.

Lemma exec_no_status {A} (E : env) (p : prog A) :
  only_events query_or_sleep p ->
  forall w, status_calls (snd (exec E p w)) = status_calls w.
Proof.
  induction p as [r|e k IH]; intros Hp w; cbn [exec snd]; [reflexivity |].
  destruct Hp as [He Hk]. destruct (handle E w e) as [x w'] eqn:Hh.
  rewrite (IH x (Hk x) w').
  destruct e; cbn in He, Hh; try discriminate; inversion Hh; reflexivity.
Qed.

Lemma pbind_only_events {A B} (P : event -> bool) (m : prog A) (f : A -> prog B) :
  only_events P m -> (forall a, only_events P (f a)) -> only_events P (pbind m f).
Proof.
  intros Hm Hf. induction m as [[a|e]|e k IH]; cbn [pbind only_events] in *;
    [apply Hf | exact I |].
  destruct Hm as [He Hk]. split; [exact He |]. intros x. now apply IH.
Qed.

Section WithFloatText.

Context {L : Libraries}.
Variable str_float : spec_float -> string.

Lemma query_attempt_events (q : OverpassQuery) (query : string) :
  only_events query_or_sleep (query_attempt q query).
Proof.
  unfold query_attempt. cbn [trigger pbind try_except only_events ret].
  split; [reflexivity |].
  intros [status text b|].
  - destruct (status =? 200).
    + destruct (on_success_ends q text (aiohttp_json b)) as [[r|e] ->];
        cbn [pbind try_except ret]; [exact I |].
      destruct (is_ClientError e); cbn; [| exact I].
      split; [reflexivity | intros _; exact I].
    + cbn. split; [reflexivity | intros _; exact I].
  - cbn. split; [reflexivity | intros _; exact I].
Qed.

Lemma query_attempts_events (q : OverpassQuery) (query : string) (left : nat) :
  only_events query_or_sleep (query_attempts q query left).
Proof.
  induction left as [|n IH]; [exact I |].
  cbn [query_attempts]. apply pbind_only_events; [apply query_attempt_events |].
  intros [x|]; [exact I | exact IH].
Qed.

Lemma query_attempts_at_most (E : env) (q : OverpassQuery) (query : string) :
  forall (left : nat) (w : world),
    (query_calls (snd (exec E (query_attempts q query left) w))
     <= query_calls w + left)%nat.
Proof.
  induction left as [|n IH]; intros w; [cbn; lia |].
  rewrite exec_query_attempts_succ. cbv zeta.
  assert (Hgo : (query_calls
                   (snd (exec E (query_attempts q query n)
                           (after_queries w 1
                              [HttpGet (server q) query; Sleep (retry_delay q)])))
                 <= query_calls w + S n)%nat).
  { eapply Nat.le_trans; [apply IH |]. cbn. lia. }
  destruct (query_reply E (query_calls w)) as [status text b|]; [| exact Hgo].
  destruct (status =? 200); [| exact Hgo].
  destruct (fst (exec E (on_success q text (aiohttp_json b)) world0)) as [r|e];
    [cbn; lia |].
  destruct e; try (cbn; lia); exact Hgo.
Qed.

Lemma inner_events (q : OverpassQuery) : only_events query_or_sleep (inner str_float q).
Proof.
  unfold inner, lift. destruct (_build_query str_float q); cbn [pbind].
  - apply query_attempts_events.
  - exact I.
Qed.

(** X16.  [_run_query] takes one permit and gives it back, on every way
    out: whatever the replies, and also when the query text cannot be
    built or the payload cannot be decoded, what it does is an acquire,
    then query requests and sleeps only, then a release.  It never asks
    the status endpoint, and it sends at most [max_retries] requests. *)
Theorem run_query_permit_discipline (E : env) (q : OverpassQuery) :
  let out := exec E (_run_query str_float q) world0 in
  (exists mid,
      trace (snd out) = (Acquire :: mid ++ [Release])%list /\
      forallb query_or_sleep mid = true) /\
  status_calls (snd out) = O /\
  (query_calls (snd out) <= Z.to_nat (max_retries q))%nat.
Proof.
  cbv zeta. unfold _run_query. cbn [exec handle].
  fold (inner str_float q). rewrite exec_try_finally. cbn [snd handle].
  set (w1 := {| status_calls := status_calls world0;
                query_calls := query_calls world0;
                trace := (trace world0 ++ [Acquire])%list |}).
  destruct (exec_only_events E query_or_sleep (inner str_float q) (inner_events q) w1)
    as (mid & Hmid & Hall).
  split; [| split].
  - exists mid. split; [| exact Hall]. rewrite Hmid. reflexivity.
  - now rewrite (exec_no_status E (inner str_float q) (inner_events q) w1).
  - unfold inner, lift. destruct (_build_query str_float q) as [query|e];
      cbn [pbind exec snd]; [| cbn; lia].
    apply (query_attempts_at_most E q query (Z.to_nat (max_retries q)) w1).
Qed.

(** After [i] replies that are passed over, with budget left, a 200 that
    is not passed over goes to the success branch. *)
Lemma query_attempts_success (E : env) (q : OverpassQuery) (query : string) :
  forall (i left : nat) (w : world) (text : string) (b : body),
    (i < left)%nat ->
    (forall j, (j < i)%nat -> passed_over q (query_reply E (query_calls w + j))) ->
    query_reply E (query_calls w + i) = Response 200 text b ->
    ~ passed_over q (Response 200 text b) ->
    exec E (query_attempts q query left) w =
    exec E (on_success q text (aiohttp_json b))
      (after_queries w (S i)
         (retry_rounds (server q) query (retry_delay q) i ++
          [HttpGet (server q) query])).
Proof.
  induction i as [|i IH]; intros left w text b Hlt Hno Hrep Hnp;
    destruct left as [|n]; try lia.
  - rewrite exec_query_attempts_succ; cbv zeta.
    rewrite Nat.add_0_r in Hrep. rewrite Hrep. cbn [Z.eqb Pos.eqb].
    rewrite (exec_on_success E q text (aiohttp_json b) (after_queries _ _ _)).
    cbn [retry_rounds app].
    destruct (fst (exec E (on_success q text (aiohttp_json b)) world0))
      as [r|e] eqn:Hout; [reflexivity |].
    destruct e; try reflexivity.
    apply on_success_transport_error in Hout; [| auto].
    elim Hnp. cbn [passed_over]. now right.
  - pose proof (Hno O (Nat.lt_0_succ i)) as H0. rewrite Nat.add_0_r in H0.
    rewrite (exec_query_attempts_passed E q query n w H0).
    rewrite (IH n _ text b); try assumption; try lia.
    + now rewrite after_queries_twice.
    + intros j Hj. cbn. rewrite <- Nat.add_assoc. apply Hno. cbn. lia.
    + cbn. rewrite <- Nat.add_assoc. exact Hrep.
Qed.

(** X17.  [_run_query] on the replies to its requests, with the query
    text [query].  A reply is passed over when it is no 200, whatever its
    status, or a connection failure, or a 200 whose body is asked for as
    JSON and refused by aiohttp for its content type: it is followed by a
    sleep of [retry_delay] and the next attempt.  The first 200 that is
    not passed over, within [max_retries] attempts, ends the query with
    the success branch, and [max_retries] replies that are passed over end
    it with "no result".  Either way the permit is given back last.  A 200
    whose body is a JSON document declared as such is never passed
    over. *)
Theorem run_query_contract (E : env) (q : OverpassQuery) (query : string) :
  _build_query str_float q = Ok query ->
  let n := Z.to_nat (max_retries q) in
  let w0 := and_then world0 Acquire in
  ((forall j, (j < n)%nat -> passed_over q (query_reply E j)) ->
   exec E (_run_query str_float q) world0 =
   (Ok NoResult,
    and_then
      (after_queries w0 n (retry_rounds (server q) query (retry_delay q) n))
      Release)) /\
  (forall i text b,
      (i < n)%nat ->
      (forall j, (j < i)%nat -> passed_over q (query_reply E j)) ->
      query_reply E i = Response 200 text b ->
      ~ passed_over q (Response 200 text b) ->
      exec E (_run_query str_float q) world0 =
      (fst (exec E (on_success q text (aiohttp_json b)) world0),
       and_then
         (after_queries w0 (S i)
            (retry_rounds (server q) query (retry_delay q) i ++
             [HttpGet (server q) query]))
         Release)) /\
  (forall r, not_ok r -> passed_over q r) /\
  (forall text data, ~ passed_over q (Response 200 text (Json data))).
Proof.
  intros Hquery n w0.
  assert (Hrun : exec E (_run_query str_float q) world0 =
                 (fst (exec E (query_attempts q query n) w0),
                  and_then (snd (exec E (query_attempts q query n) w0)) Release)).
  { unfold _run_query. cbn [exec handle]. rewrite exec_try_finally.
    rewrite Hquery. cbn [lift pbind]. reflexivity. }
  split; [| split; [| split]].
  - intros Hno. rewrite Hrun, query_attempts_exhausted; [reflexivity |].
    intros j Hj. cbn. now apply Hno.
  - intros i text b Hi Hno Hrep Hnp. rewrite Hrun.
    rewrite (query_attempts_success E q query i n w0 text b); try assumption.
    rewrite (exec_on_success E q text (aiohttp_json b) (after_queries _ _ _)).
    reflexivity.
  - intros [status text b|] Hr; cbn in *; [now left | exact I].
  - intros text data [H | [_ H]]; [now apply H | discriminate H].
Qed.

End WithFloatText.

Lemma run_query_contract_witness :
  exec (free_env (replies [not_found; ConnectionFailure; empty_payload]))
       (_run_query (L := plain) no_float_text hospitals) world0 =
  (Ok (GeoFrame []),
   and_then
     (after_queries (and_then world0 Acquire) 3
        (retry_rounds (server hospitals) hospitals_text 10 2 ++
         [HttpGet (server hospitals) hospitals_text]))
     Release).
Proof.
  destruct (run_query_contract (L := plain) no_float_text
              (free_env (replies [not_found; ConnectionFailure; empty_payload]))
              hospitals hospitals_text ltac:(vm_compute; reflexivity))
    as (_ & Hsuccess & _).
  apply (Hsuccess 2%nat "{}" (Json (PyDict [("elements", PyList [])]))).
  - cbn. lia.
  - intros j Hj. destruct j as [|[|j]]; [left; discriminate | exact I | lia].
  - reflexivity.
  - intros [H | [_ H]]; [now apply H | discriminate H].
Defined.

End RunQueryMore.

(* ===================================================================== *)
(** * Further properties of the batch                                     *)
(* ===================================================================== *)

Module Permits.

Import OsmInput OsmClient Reference MoreReference ExecFacts Gather.

Lemma batch_holders (ts : list task) (N : nat) (H : Z) :
  batch_inv ts N H -> H = holders ts.
Proof. induction 1 as [|t ts n N H _ _ _ IH]; cbn; [reflexivity | now rewrite IH]. Qed.

Lemma replace_nth_length {A} (l : list A) :
  forall i x, List.length (replace_nth i x l) = List.length l.
Proof.
  induction l as [|y l IH]; intros [|i] x; cbn; try reflexivity. now rewrite IH.
Qed.

Lemma holders_done (ts : list task) :
  (forall t, In t ts -> exists r, code t = Ret r) -> holders ts = 0.
Proof.
  induction ts as [|t ts IH]; intros H; cbn [holders]; [reflexivity |].
  rewrite IH by (intros t' Ht'; apply H; now right).
  destruct (H t (or_introl eq_refl)) as [r Hr].
  unfold held, holding. now rewrite Hr.
Qed.

Lemma holders_bounds (ts : list task) :
  0 <= holders ts <= Z.of_nat (List.length ts).
Proof.
  induction ts as [|t ts IH]; cbn [holders List.length]; [lia |].
  unfold held. destruct (holding t); lia.
Qed.

Section Batch.

Context {L : Libraries}.
Variable str_float : spec_float -> string.

(** What every state of a batch keeps. *)
Lemma reachable_inv (self : AsyncOverpassClient) (Es : nat -> env)
  (queries : list OverpassQuery) (s : system) :
  0 <= max_concurrent self ->
  reachable (start str_float self Es queries) s ->
  exists N H, batch_inv (tasks s) N H /\
              0 <= permits s /\ permits s + H = max_concurrent self /\
              List.length (tasks s) = List.length queries.
Proof.
  intros Hmc. induction 1 as [|s i _ (N & H & Hinv & Hp & Hsum & Hlen)].
  - exists (steps_bound queries), 0. cbn [start tasks permits].
    split; [apply spawn_batch |]. split; [exact Hmc |]. split; [lia |].
    generalize O. induction queries as [|q qs IHq]; intros i; cbn;
      [reflexivity | now rewrite IHq].
  - unfold step_system.
    destruct (nth_error (tasks s) i) as [t|] eqn:Hn; [| now exists N, H].
    destruct (step_task (permits s) t) as [[p' t']|] eqn:Hstep; [| now exists N, H].
    destruct (batch_step _ _ _ Hinv i t t' (permits s) p' Hn Hp Hstep)
      as (N' & H' & Hinv' & _ & Hsum' & Hp').
    exists N', H'. cbn [tasks permits].
    split; [exact Hinv' |]. split; [exact Hp' |]. split; [lia |].
    now rewrite replace_nth_length.
Qed.

(** X18.  The ceiling of [run_all].  In every state a batch can come to,
    in whatever order its coroutines step, the coroutines between their
    acquire and their release are at most [max_concurrent] (and at most as
    many as there are queries); each of them holds one permit, held and
    free permits together are [max_concurrent]; and once every coroutine
    is done all permits are free again. *)
Theorem run_all_ceiling (self : AsyncOverpassClient) (Es : nat -> env)
  (queries : list OverpassQuery) (s : system) :
  0 <= max_concurrent self ->
  reachable (start str_float self Es queries) s ->
  0 <= holders (tasks s) <= max_concurrent self /\
  holders (tasks s) <= Z.of_nat (List.length queries) /\
  permits s + holders (tasks s) = max_concurrent self /\
  (all_done s -> permits s = max_concurrent self).
Proof.
  intros Hmc Hreach.
  destruct (reachable_inv self Es queries s Hmc Hreach)
    as (N & H & Hinv & Hp & Hsum & Hlen).
  rewrite (batch_holders _ _ _ Hinv) in Hsum.
  pose proof (holders_bounds (tasks s)) as Hb. rewrite Hlen in Hb.
  split; [lia |]. split; [lia |]. split; [exact Hsum |].
  intros Hdone. rewrite (holders_done (tasks s) Hdone) in Hsum. lia.
Qed.

Lemma spawn_waiting (Es : nat -> env) (queries : list OverpassQuery) :
  forall i,
    first_raised (spawn str_float Es i queries) = None /\
    enabled_from 0 i (spawn str_float Es i queries) = [] /\
    (queries <> [] -> all_returned (spawn str_float Es i queries) = None).
Proof.
  induction queries as [|q qs IH]; intros i; cbn [spawn].
  - repeat split. intros H. now elim H.
  - destruct (IH (S i)) as (Hr & He & _).
    cbn [first_raised enabled_from all_returned code _run_query].
    split; [exact Hr |]. split; [exact He | reflexivity].
Qed.

(** X19.  A client made with [max_concurrent = 0] never gets a batch
    done: no coroutine gets past its acquire, so for a batch that is not
    empty [gather] waits for ever, whatever the outside answers.  An empty
    batch is done at once, with the empty list. *)
Theorem run_all_without_permits (self : AsyncOverpassClient) (Es : nat -> env)
  (queries : list OverpassQuery) (choices : list nat) :
  (max_concurrent self = 0 -> queries <> [] ->
   run_all str_float self Es choices queries = Blocked) /\
  (queries = [] -> run_all str_float self Es choices queries = Returned []).
Proof.
  split.
  - intros Hzero Hne. unfold run_all. rewrite gather_unfold. cbn [tasks permits].
    destruct (spawn_waiting Es queries O) as (Hr & He & Ha).
    rewrite Hr, (Ha Hne), Hzero, He. reflexivity.
  - intros ->. unfold run_all. now rewrite gather_unfold.
Qed.

End Batch.

Lemma run_all_ceiling_witness :
  holders
    (tasks (step_system 1 (step_system 0 (step_system 2
       (start (L := plain) no_float_text two_at_a_time calm
          [hospitals; with_level; without_level]))))) <= 2.
Proof.
  apply (run_all_ceiling (L := plain) no_float_text two_at_a_time calm
           [hospitals; with_level; without_level]).
  - cbn. lia.
  - repeat apply reach_step. apply reach_start.
Defined.

Lemma run_all_without_permits_witness :
  run_all (L := plain) no_float_text no_room calm some_order
    [hospitals; with_level] = Blocked.
Proof.
  apply (run_all_without_permits (L := plain) no_float_text no_room calm
           [hospitals; with_level] some_order); [reflexivity | discriminate].
Defined.

End Permits.


(* ===================================================================== *)
(** * Sanitising a result for JSON: [sanitize_obj]                        *)
(* ===================================================================== *)

Module Sanitize.

Import Utils SanitizeReference Doubles.

(** Induction over values that goes through the items of lists and of
    tuples and the values of dicts. *)
Lemma pyval_tree_ind (P : pyval -> Prop) :
  P PyNone -> (forall b, P (PyBool b)) -> (forall z, P (PyInt z)) ->
  (forall f, P (PyFloat f)) -> (forall s, P (PyStr s)) ->
  (forall l, Forall P l -> P (PyList l)) ->
  (forall d, Forall (fun kv => P (snd kv)) d -> P (PyDict d)) ->
  (forall l, Forall P l -> P (PyTuple l)) ->
  forall v, P v.
Proof.
  intros HN HB HI HF HS HL HD HT. fix IH 1. intros v.
  destruct v as [| b | z | f | s | l | d | l];
    [exact HN | apply HB | apply HI | apply HF | apply HS | | |].
  - apply HL. induction l as [|x l IHl]; constructor; [apply IH | exact IHl].
  - apply HD. induction d as [|[k x] d IHd]; constructor; [apply IH | exact IHd].
  - apply HT. induction l as [|x l IHl]; constructor; [apply IH | exact IHl].
Qed.

Lemma sanitize_list (l : list pyval) :
  sanitize_obj (PyList l) = let? l' := sanitize_each l in Ok (PyList l').
Proof.
  reflexivity.
Qed.

(** A tuple goes through the comprehension of a list, and a list comes
    out of it. *)
Lemma sanitize_tuple (l : list pyval) :
  sanitize_obj (PyTuple l) = sanitize_obj (PyList l).
Proof.
  reflexivity.
Qed.

Lemma sanitize_dict (d : dict pyval) :
  sanitize_obj (PyDict d) = let? d' := sanitize_items d in Ok (PyDict d').
Proof.
  reflexivity.
Qed.

Lemma is_sanitized_list (l : list pyval) :
  is_sanitized (PyList l) = forallb is_sanitized l.
Proof.
  cbn [is_sanitized]. induction l as [|x l IH]; [reflexivity|].
  cbn [forallb]. rewrite <- IH. reflexivity.
Qed.

Lemma is_sanitized_dict (d : dict pyval) :
  is_sanitized (PyDict d) = forallb (fun kv => is_sanitized (snd kv)) d.
Proof.
  cbn [is_sanitized]. induction d as [|[k x] d IH]; [reflexivity|].
  cbn [forallb snd]. rewrite <- IH. reflexivity.
Qed.

Lemma ints_fit_list (l : list pyval) :
  ints_fit (PyList l) = forallb ints_fit l.
Proof.
  cbn [ints_fit]. induction l as [|x l IH]; [reflexivity|].
  cbn [forallb]. rewrite <- IH. reflexivity.
Qed.

Lemma ints_fit_tuple (l : list pyval) :
  ints_fit (PyTuple l) = ints_fit (PyList l).
Proof.
  reflexivity.
Qed.

Lemma ints_fit_dict (d : dict pyval) :
  ints_fit (PyDict d) = forallb (fun kv => ints_fit (snd kv)) d.
Proof.
  cbn [ints_fit]. induction d as [|[k x] d IH]; [reflexivity|].
  cbn [forallb snd]. rewrite <- IH. reflexivity.
Qed.

(** [float(z)] returns exactly for the integers [math.isfinite] takes, and
    what it returns is finite. *)
Lemma float_of_int_cases (z : Z) :
  if int_fits_float z
  then exists f, float_of_int z = Ok f /\ float_is_finite f = true /\
                 f = binary_normalize 53 1024 z 0 false
  else float_of_int z = Raise OverflowError.
Proof.
  unfold float_of_int. rewrite nearest_double_finite.
  destruct (int_fits_float z) eqn:E; [|reflexivity].
  eexists. split; [reflexivity|]. split; [|reflexivity].
  rewrite nearest_double_finite. exact E.
Qed.

Lemma sanitize_int (z : Z) :
  if int_fits_float z
  then exists f, sanitize_obj (PyInt z) = Ok (PyFloat f) /\ float_is_finite f = true /\
                 f = binary_normalize 53 1024 z 0 false
  else sanitize_obj (PyInt z) = Raise OverflowError.
Proof.
  pose proof (float_of_int_cases z) as H. cbn [sanitize_obj math_isfinite].
  destruct (int_fits_float z); cbn [bind negb].
  - destruct H as [f [-> [Hf Hv]]]. exists f. cbn [bind]. auto.
  - reflexivity.
Qed.

Lemma sanitize_bool (b : bool) :
  exists f, sanitize_obj (PyBool b) = Ok (PyFloat f) /\ float_is_finite f = true /\
            f = binary_normalize 53 1024 (bool_int b) 0 false.
Proof.
  destruct b; eexists; (split; [vm_compute; reflexivity | split; vm_compute; reflexivity]).
Qed.


Lemma bind_ok {A B} (m : result A) (k : A -> result B) (b : B) :
  bind m k = Ok b -> exists a, m = Ok a /\ k a = Ok b.
Proof. destruct m as [a|e]; cbn [bind]; [eauto | discriminate]. Qed.

(** The list comprehension, item by item. *)
Lemma sanitize_each_ok (l l' : list pyval) :
  sanitize_each l = Ok l' <-> Forall2 (fun x x' => sanitize_obj x = Ok x') l l'.
Proof.
  revert l'. induction l as [|x l IH]; intro l'; cbn [sanitize_each].
  - split; [intro H; inversion H; constructor | intro H; inversion H; reflexivity].
  - split.
    + intro H. apply bind_ok in H as [x' [Hx H]]. apply bind_ok in H as [r [Hr H]].
      inversion H; subst. constructor; [exact Hx | now apply IH].
    + intro H. inversion H as [|? x' ? r Hx Hr]; subst.
      apply IH in Hr. rewrite Hx, Hr. reflexivity.
Qed.

(** The dict comprehension, item by item. *)
Lemma sanitize_items_ok (d d' : dict pyval) :
  sanitize_items d = Ok d' <->
  Forall2 (fun kv kv' => fst kv' = fst kv /\ sanitize_obj (snd kv) = Ok (snd kv')) d d'.
Proof.
  revert d'. induction d as [|[k x] d IH]; intro d'; cbn [sanitize_items].
  - split; [intro H; inversion H; constructor | intro H; inversion H; reflexivity].
  - split.
    + intro H. apply bind_ok in H as [x' [Hx H]]. apply bind_ok in H as [r [Hr H]].
      inversion H; subst. constructor; [split; [reflexivity | exact Hx] | now apply IH].
    + intro H. inversion H as [|? [k' x'] ? r [Hk Hx] Hr]; subst.
      cbn [fst snd] in *. subst k'.
      apply IH in Hr. rewrite Hx, Hr. reflexivity.
Qed.

(** What comes out holds no number other than a finite float. *)
Lemma sanitize_clean (obj : pyval) :
  forall r, sanitize_obj obj = Ok r -> is_sanitized r = true.
Proof.
  induction obj as [| b | z | f | s | l IH | d IH | l IH] using pyval_tree_ind;
    intros r H; try rewrite sanitize_tuple in H.
  - inversion H. reflexivity.
  - destruct (sanitize_bool b) as [f [E [Hf _]]]. rewrite E in H. inversion H. exact Hf.
  - pose proof (sanitize_int z) as E. destruct (int_fits_float z).
    + destruct E as [f [E [Hf _]]]. rewrite E in H. inversion H. exact Hf.
    + rewrite E in H. discriminate.
  - cbn [sanitize_obj math_isfinite bind] in H.
    destruct (float_is_finite f) eqn:Hf; cbn [negb] in H; inversion H; [exact Hf | reflexivity].
  - inversion H. reflexivity.
  - rewrite sanitize_list in H. apply bind_ok in H as [l' [Hl H]]. inversion H; subst r.
    apply sanitize_each_ok in Hl. rewrite is_sanitized_list.
    clear H. induction Hl as [|x x' l l' Hx Hl IHl]; [reflexivity|].
    inversion IH as [|? ? IHx IHrest]; subst. cbn [forallb].
    rewrite (IHx _ Hx), (IHl IHrest). reflexivity.
  - rewrite sanitize_dict in H. apply bind_ok in H as [d' [Hd H]]. inversion H; subst r.
    apply sanitize_items_ok in Hd. rewrite is_sanitized_dict.
    clear H. induction Hd as [|kv kv' d d' [_ Hx] Hd IHd]; [reflexivity|].
    inversion IH as [|? ? IHx IHrest]; subst. cbn [forallb].
    rewrite (IHx _ Hx), (IHd IHrest). reflexivity.
  - rewrite sanitize_list in H. apply bind_ok in H as [l' [Hl H]]. inversion H; subst r.
    apply sanitize_each_ok in Hl. rewrite is_sanitized_list.
    clear H. induction Hl as [|x x' l l' Hx Hl IHl]; [reflexivity|].
    inversion IH as [|? ? IHx IHrest]; subst. cbn [forallb].
    rewrite (IHx _ Hx), (IHl IHrest). reflexivity.
Qed.

(** Such a value is returned as it is. *)
Lemma sanitize_fixed (v : pyval) :
  is_sanitized v = true -> sanitize_obj v = Ok v.
Proof.
  induction v as [| b | z | f | s | l IH | d IH | l IH] using pyval_tree_ind;
    intro H; try discriminate; try reflexivity.
  - cbn [is_sanitized] in H. cbn [sanitize_obj math_isfinite bind]. rewrite H. reflexivity.
  - rewrite is_sanitized_list in H. rewrite sanitize_list.
    assert (E : sanitize_each l = Ok l).
    { induction l as [|x l IHl]; [reflexivity|].
      cbn [forallb] in H. apply andb_true_iff in H as [Hx Hl].
      inversion IH as [|? ? IHx IHrest]; subst.
      cbn [sanitize_each]. rewrite (IHx Hx), (IHl IHrest Hl). reflexivity. }
    rewrite E. reflexivity.
  - rewrite is_sanitized_dict in H. rewrite sanitize_dict.
    assert (E : sanitize_items d = Ok d).
    { induction d as [|[k x] d IHd]; [reflexivity|].
      cbn [forallb snd] in H. apply andb_true_iff in H as [Hx Hd].
      inversion IH as [|? ? IHx IHrest]; subst. cbn [snd] in IHx.
      cbn [sanitize_items]. rewrite (IHx Hx), (IHd IHrest Hd). reflexivity. }
    rewrite E. reflexivity.
Qed.

(** [sanitize_obj] returns when every integer converts, and raises
    [OverflowError] when one does not. *)
Lemma sanitize_each_total (l : list pyval) :
  Forall (fun x => if ints_fit x then exists r, sanitize_obj x = Ok r
                   else sanitize_obj x = Raise OverflowError) l ->
  if forallb ints_fit l then exists l', sanitize_each l = Ok l'
  else sanitize_each l = Raise OverflowError.
Proof.
  induction 1 as [|x l IHx _ IHl]; [cbn; eauto|].
  cbn [forallb sanitize_each].
  destruct (ints_fit x); cbn [andb].
  - destruct IHx as [x' ->]. cbn [bind].
    destruct (forallb ints_fit l).
    + destruct IHl as [l' ->]. cbn [bind]. eauto.
    + rewrite IHl. reflexivity.
  - rewrite IHx. reflexivity.
Qed.

Lemma sanitize_total (obj : pyval) :
  if ints_fit obj then exists r, sanitize_obj obj = Ok r
  else sanitize_obj obj = Raise OverflowError.
Proof.
  induction obj as [| b | z | f | s | l IH | d IH | l IH] using pyval_tree_ind;
    try rewrite ints_fit_tuple, sanitize_tuple; cbn [ints_fit].
  - eexists; reflexivity.
  - destruct (sanitize_bool b) as [f [E _]]. eauto.
  - pose proof (sanitize_int z) as E. destruct (int_fits_float z).
    + destruct E as [f [E _]]. eauto.
    + exact E.
  - cbn [sanitize_obj math_isfinite bind]. destruct (negb (float_is_finite f)); eauto.
  - eexists; reflexivity.
  - change ((fix all (xs : list pyval) : bool :=
               match xs with [] => true | x :: rest => ints_fit x && all rest end) l)
      with (ints_fit (PyList l)).
    rewrite ints_fit_list, sanitize_list.
    pose proof (sanitize_each_total l IH) as E.
    destruct (forallb ints_fit l).
    + destruct E as [l' ->]. cbn [bind]. eauto.
    + rewrite E. reflexivity.
  - change ((fix all (kvs : dict pyval) : bool :=
               match kvs with [] => true | (_, x) :: rest => ints_fit x && all rest end) d)
      with (ints_fit (PyDict d)).
    rewrite ints_fit_dict, sanitize_dict.
    assert (E : if forallb (fun kv => ints_fit (snd kv)) d
                then exists d', sanitize_items d = Ok d'
                else sanitize_items d = Raise OverflowError).
    { induction d as [|[k x] d IHd]; [cbn; eauto|].
      inversion IH as [|? ? IHx IHrest]; subst. specialize (IHd IHrest).
      cbn [snd] in IHx. cbn [forallb sanitize_items snd].
      destruct (ints_fit x); cbn [andb].
      - destruct IHx as [x' ->]. cbn [bind].
        destruct (forallb (fun kv => ints_fit (snd kv)) d).
        + destruct IHd as [d' ->]. cbn [bind]. eauto.
        + rewrite IHd. reflexivity.
      - rewrite IHx. reflexivity. }
    destruct (forallb (fun kv => ints_fit (snd kv)) d).
    + destruct E as [d' ->]. cbn [bind]. eauto.
    + rewrite E. reflexivity.
  - change ((fix all (xs : list pyval) : bool :=
               match xs with [] => true | x :: rest => ints_fit x && all rest end) l)
      with (ints_fit (PyList l)).
    rewrite ints_fit_list, sanitize_list.
    pose proof (sanitize_each_total l IH) as E.
    destruct (forallb ints_fit l).
    + destruct E as [l' ->]. cbn [bind]. eauto.
    + rewrite E. reflexivity.
Qed.


(** X20.  [sanitize_obj] returns exactly when every integer in the value,
    at any depth, converts to a double, that is when it is below
    [2^1024 - 2^970] in magnitude; otherwise it raises, and
    [OverflowError] is the only exception it raises: there is no handler
    for the conversion inside [math.isfinite]. *)
Theorem sanitize_obj_returns_iff (obj : pyval) :
  ((exists r, sanitize_obj obj = Ok r) <-> ints_fit obj = true) /\
  (forall e, sanitize_obj obj = Raise e -> e = OverflowError) /\
  (forall z, sanitize_obj (PyInt z) = Raise OverflowError <->
             2 ^ 1024 - 2 ^ 970 <= Z.abs z).
Proof.
  pose proof (sanitize_total obj) as H. split; [|split].
  - destruct (ints_fit obj).
    + split; [reflexivity | intros _; exact H].
    + split; [intros [r Hr]; rewrite H in Hr; discriminate | discriminate].
  - intros e He. destruct (ints_fit obj).
    + destruct H as [r Hr]. rewrite Hr in He. discriminate.
    + rewrite H in He. inversion He. reflexivity.
  - intro z. pose proof (sanitize_int z) as Hz. unfold int_fits_float in Hz.
    destruct (Z.abs z <? 2 ^ 1024 - 2 ^ 970) eqn:E.
    + apply Z.ltb_lt in E. destruct Hz as [f [Hf _]]. rewrite Hf.
      split; [discriminate | lia].
    + apply Z.ltb_ge in E. split; [intros _; exact E | intros _; exact Hz].
Qed.

Lemma sanitize_obj_returns_iff_witness :
  ints_fit dumped = true /\ (exists r, sanitize_obj dumped = Ok r) /\
  sanitize_obj oversized = Raise OverflowError.
Proof.
  split; [vm_compute; reflexivity|]. split.
  - apply (proj1 (sanitize_obj_returns_iff dumped)). vm_compute. reflexivity.
  - vm_compute. reflexivity.
Defined.

(** X21.  What [sanitize_obj] returns is clean: it holds no [int], no
    [bool], no NaN, no infinity and no tuple at any depth; every number in
    it is a finite float and every sequence a list.  Sanitising is
    idempotent, and the values it returns unchanged are exactly the clean
    ones.  A tuple is never returned unchanged, not even the empty one: it
    comes back as a list; so a value with finite floats only is changed
    all the same when it holds a tuple. *)
Theorem sanitize_obj_stable (obj : pyval) :
  (forall r, sanitize_obj obj = Ok r ->
             is_sanitized r = true /\ sanitize_obj r = Ok r) /\
  (sanitize_obj obj = Ok obj <-> is_sanitized obj = true) /\
  (forall l, sanitize_obj (PyTuple l) <> Ok (PyTuple l)) /\
  sanitize_obj (PyTuple []) = Ok (PyList []).
Proof.
  split; [| split; [| split]].
  - intros r Hr. pose proof (sanitize_clean obj r Hr) as Hc.
    split; [exact Hc | apply sanitize_fixed; exact Hc].
  - split.
    + intro H. apply (sanitize_clean obj obj H).
    + apply sanitize_fixed.
  - intros l H. apply sanitize_clean in H. discriminate H.
  - reflexivity.
Qed.

Lemma sanitize_obj_stable_witness :
  (exists r, sanitize_obj dumped = Ok r /\ is_sanitized r = true /\
             sanitize_obj r = Ok r /\ is_sanitized dumped = false) /\
  is_sanitized a_pair = false /\ sanitize_obj a_pair <> Ok a_pair /\
  sanitize_obj a_pair = Ok a_pair_list.
Proof.
  split; [| split; [| split]].
  - eexists. split; [vm_compute; reflexivity|].
    split; [|split].
    + apply (proj1 (sanitize_obj_stable dumped)). vm_compute. reflexivity.
    + apply (proj1 (sanitize_obj_stable dumped)). vm_compute. reflexivity.
    + vm_compute. reflexivity.
  - reflexivity.
  - apply (proj1 (proj2 (proj2 (sanitize_obj_stable a_pair)))).
  - vm_compute. reflexivity.
Defined.

Lemma items_lookup (d d' : dict pyval) (k : string) :
  Forall2 (fun kv kv' => fst kv' = fst kv /\ sanitize_obj (snd kv) = Ok (snd kv')) d d' ->
  match dict_get k d with
  | Some v => exists v', sanitize_obj v = Ok v' /\ dict_get k d' = Some v'
  | None => dict_get k d' = None
  end.
Proof.
  induction 1 as [|[k1 v] [k2 v'] d d' [Hk Hv] Hd IH]; [reflexivity|].
  cbn [fst snd] in *. subst k2. cbn [dict_get].
  destruct (String.eqb k k1); [eauto | exact IH].
Qed.

Lemma items_keys (d d' : dict pyval) :
  Forall2 (fun kv kv' => fst kv' = fst kv /\ sanitize_obj (snd kv) = Ok (snd kv')) d d' ->
  map fst d' = map fst d.
Proof.
  induction 1 as [|kv kv' d d' [Hk _] Hd IH]; [reflexivity|].
  cbn [map]. rewrite Hk, IH. reflexivity.
Qed.

Lemma each_nth (l l' : list pyval) :
  Forall2 (fun x x' => sanitize_obj x = Ok x') l l' ->
  List.length l' = List.length l /\
  forall i v, nth_error l i = Some v ->
              exists v', sanitize_obj v = Ok v' /\ nth_error l' i = Some v'.
Proof.
  induction 1 as [|x x' l l' Hx Hl [IHlen IH]].
  - split; [reflexivity | intros [|i] v H; discriminate].
  - split; [cbn [List.length]; rewrite IHlen; reflexivity|].
    intros [|i] v H; cbn [nth_error] in *.
    + inversion H; subst. eauto.
    + apply IH. exact H.
Qed.

(** X22.  [sanitize_obj] keeps the structure of what it is given.  A dict
    comes back as a dict with the same keys in the same order, and under
    each key stands the sanitised value of that key; a list comes back as
    a list of the same length whose items are the sanitised items, in
    order, and so does a tuple: as a list, not as a tuple; a string comes
    back unchanged; [None] stays [None], and a float comes back as it is
    when it is finite and as [None] when it is a NaN or an infinity. *)
Theorem sanitize_obj_keeps_structure (obj r : pyval) :
  sanitize_obj obj = Ok r ->
  (forall d, obj = PyDict d ->
     exists d', r = PyDict d' /\ map fst d' = map fst d /\
       forall k, match dict_get k d with
                 | Some v => exists v', sanitize_obj v = Ok v' /\
                                        dict_get k d' = Some v'
                 | None => dict_get k d' = None
                 end) /\
  (forall l, obj = PyList l ->
     exists l', r = PyList l' /\ List.length l' = List.length l /\
       forall i v, nth_error l i = Some v ->
                   exists v', sanitize_obj v = Ok v' /\ nth_error l' i = Some v') /\
  (forall l, obj = PyTuple l ->
     exists l', r = PyList l' /\ List.length l' = List.length l /\
       forall i v, nth_error l i = Some v ->
                   exists v', sanitize_obj v = Ok v' /\ nth_error l' i = Some v') /\
  (forall s, obj = PyStr s -> r = PyStr s) /\
  (obj = PyNone -> r = PyNone) /\
  (forall f, obj = PyFloat f ->
     r = if float_is_finite f then PyFloat f else PyNone).
Proof.
  intro H. repeat split.
  - intros d ->. rewrite sanitize_dict in H. apply bind_ok in H as [d' [Hd H]].
    inversion H; subst r. apply sanitize_items_ok in Hd.
    exists d'. split; [reflexivity|]. split; [now apply items_keys|].
    intro k. now apply items_lookup.
  - intros l ->. rewrite sanitize_list in H. apply bind_ok in H as [l' [Hl H]].
    inversion H; subst r. apply sanitize_each_ok in Hl.
    exists l'. split; [reflexivity|]. now apply each_nth.
  - intros l ->. rewrite sanitize_tuple, sanitize_list in H.
    apply bind_ok in H as [l' [Hl H]].
    inversion H; subst r. apply sanitize_each_ok in Hl.
    exists l'. split; [reflexivity|]. now apply each_nth.
  - intros s ->. inversion H. reflexivity.
  - intros ->. inversion H. reflexivity.
  - intros f ->. cbn [sanitize_obj math_isfinite bind] in H.
    destruct (float_is_finite f); cbn [negb] in H; inversion H; reflexivity.
Qed.

Lemma sanitize_obj_keeps_structure_witness :
  exists r d',
    sanitize_obj dumped = Ok r /\ r = PyDict d' /\
    map fst d' = ["id"; "type"; "tags"; "geometry"] /\
    dict_get "type" d' = Some (PyStr "node").
Proof.
  assert (H : exists r, sanitize_obj dumped = Ok r)
    by (eexists; vm_compute; reflexivity).
  destruct H as [r Hr].
  destruct (proj1 (sanitize_obj_keeps_structure dumped r Hr) _ eq_refl)
    as [d' [E [Hkeys Hget]]].
  exists r, d'. split; [exact Hr|]. split; [exact E|]. split; [exact Hkeys|].
  specialize (Hget "type"). cbn in Hget.
  destruct Hget as [v' [Hv Hd]]. inversion Hv; subst. exact Hd.
Defined.

(** X23.  Numbers other than floats are turned into floats.  An [int]
    below [2^53] in magnitude comes back as the float equal to it, and a
    [bool] comes back as the float equal to it ([1.0] or [0.0]) and not as
    a [bool]; above [2^53] the float can differ from the integer:
    [2^53 + 1] comes back as a float that is not equal to it. *)
Theorem sanitize_obj_numbers (z : Z) (b : bool) :
  (Z.abs z < 2 ^ 53 ->
   exists f, sanitize_obj (PyInt z) = Ok (PyFloat f) /\
             py_eq (PyFloat f) (PyInt z) = true) /\
  (exists f, sanitize_obj (PyBool b) = Ok (PyFloat f) /\
             py_eq (PyFloat f) (PyBool b) = true) /\
  (exists f, sanitize_obj (PyInt (2 ^ 53 + 1)) = Ok (PyFloat f) /\
             py_eq (PyFloat f) (PyInt (2 ^ 53 + 1)) = false).
Proof.
  split; [|split].
  - intro Hz. pose proof (sanitize_int z) as H.
    assert (Hfit : int_fits_float z = true).
    { unfold int_fits_float. apply Z.ltb_lt.
      assert (2 ^ 53 < 2 ^ 1024 - 2 ^ 970) by (vm_compute; reflexivity). lia. }
    rewrite Hfit in H. destruct H as [f [Hf [_ Hv]]].
    exists f. split; [exact Hf|]. cbn [py_eq]. rewrite Hv.
    now apply nearest_double_exact.
  - destruct (sanitize_bool b) as [f [Hf [_ Hv]]].
    exists f. split; [exact Hf|]. cbn [py_eq]. rewrite Hv.
    apply nearest_double_exact. destruct b; vm_compute; reflexivity.
  - eexists. split; vm_compute; reflexivity.
Qed.

Lemma sanitize_obj_numbers_witness :
  Z.abs 21 < 2 ^ 53 /\
  exists f, sanitize_obj (PyInt 21) = Ok (PyFloat f) /\
            py_eq (PyFloat f) (PyInt 21) = true.
Proof.
  split; [vm_compute; reflexivity|].
  apply (proj1 (sanitize_obj_numbers 21 true)). vm_compute. reflexivity.
Defined.

End Sanitize.
